(** * Qudi camera GUI and joystick logic: a shallow embedding

    Two modules of the instrument-control framework are modelled here:

    - [logic/joystick_logic.py], class [JoystickLogic]: a single-shot timer
      drives [loop], which reads the joystick and compares the reading with
      the stored one;
    - [gui/camera/cameragui.py], classes [CrossROI], [CrossLine] and
      [CameraGUI]: a rectangular region of interest (ROI) on a camera image,
      a crosshair through its centre, spin boxes in pixels and meters and a
      mask of the ROI.

    Python methods are functions in a state-and-exception monad over the
    object they mutate.  Numbers are exact rationals ([Q]) in the modules
    [Joystick] and [Camera]; the statements proved there compare numbers,
    clamp them or have the same expression on both sides.  Where rounding
    decides, in the position of the ROI and in the conversion between
    pixels and meters, the handlers are modelled a second time in
    [Camera64] with binary64 floats. *)

From Stdlib Require Import QArith Lqa Floats.
From stdpp Require Import gmap strings list fin_maps.

Set Warnings "-inexact-float".

Local Open Scope string_scope.
Local Open Scope list_scope.

(** ** Python statements: state plus exceptions *)

Module Py.

Inductive exn : Type :=
| TypeError
| AttributeError (attr : string)
| KeyError (key : string)
| IndexError
| ZeroDivisionError
| ValueError
| OverflowError.

(** A statement runs on a state, always leaves a state behind (effects that
    happened before an exception stay), and either raises or returns. *)
Definition M (St A : Type) : Type := St -> St * (exn + A).

Definition ret {St A} (a : A) : M St A := fun s => (s, inr a).

Definition raise {St A} (e : exn) : M St A := fun s => (s, inl e).

Definition bind {St A B} (c : M St A) (k : A -> M St B) : M St B :=
  fun s => match c s with
           | (s', inr a) => k a s'
           | (s', inl e) => (s', inl e)
           end.

Definition get {St} : M St St := fun s => (s, inr s).

Definition gets {St A} (f : St -> A) : M St A := fun s => (s, inr (f s)).

Definition modify {St} (f : St -> St) : M St unit := fun s => (f s, inr tt).

(** [for x in l: acc = body(acc, x)]: the loop variables that the body
    rebinds are threaded through as [acc]. *)
Fixpoint for_in {St A B} (l : list A) (acc : B) (body : B -> A -> M St B)
  : M St B :=
  match l with
  | [] => ret acc
  | x :: l' => bind (body acc x) (fun acc' => for_in l' acc' body)
  end.

(** State after a statement, and its outcome. *)
Definition exec {St A} (c : M St A) (s : St) : St := fst (c s).
Definition outcome {St A} (c : M St A) (s : St) : exn + A := snd (c s).

(** A slot called by the Qt event loop or by a signal: an exception raised
    inside it is reported by the framework and does not reach the caller. *)
Definition slot {St} (c : M St unit) : M St unit :=
  fun s => (fst (c s), inr tt).

(** Emitting a Qt signal calls the connected slots in the order they were
    connected. *)
Fixpoint emit {St} (slots : list (M St unit)) : M St unit :=
  match slots with
  | [] => ret tt
  | c :: rest => bind (slot c) (fun _ => emit rest)
  end.

(** A property of the state that a statement keeps, however it ends. *)
Definition stable {St A} (I : St -> Prop) (c : M St A) : Prop :=
  forall s, I s -> I (exec c s).

End Py.

Notation "x <- c ;; k" := (Py.bind c (fun x => k))
  (at level 20, c at level 99, k at level 200, only parsing).
Notation "c ;;; k" := (Py.bind c (fun _ => k))
  (at level 100, k at level 200, only parsing, right associativity).

(** ** logic/joystick_logic.py *)

Module Joystick.
Import Py.

(** Values of a joystick reading: booleans for buttons, numbers for axes.
    [!=] compares numerically ([True == 1]); a value is truthy unless it
    is numerically zero. *)
Inductive pyval : Type :=
| PyBool (b : bool)
| PyNum (q : Q).

Definition num_of (v : pyval) : Q :=
  match v with
  | PyBool true => 1%Q
  | PyBool false => 0%Q
  | PyNum q => q
  end.

Definition py_ne (a b : pyval) : bool := negb (Qeq_bool (num_of a) (num_of b)).

Definition truthy (v : pyval) : bool := negb (Qeq_bool (num_of v) 0%Q).

(** A state snapshot is a flat dict from control name to value. *)
Abbreviation snapshot := (gmap string pyval).

(** Signal objects, told apart by identity.  [QtCore.Signal()] evaluated
    inside a method gives an unbound signal: it is a plain descriptor and
    has no [emit].  A bound signal (a class attribute looked up on an
    instance, or any object with an [emit()] method that is handed in from
    outside) can be emitted. *)
Inductive signal : Type :=
| Unbound (id : nat)
| Bound (id : nat).

(** [events]: control name -> event name -> signal. *)
Abbreviation events_dict := (gmap string (gmap string signal)).

Record QTimer : Type := mkQTimer {
  singleShot : bool;
  timeout_to_loop : bool;          (* timeout.connect(self.loop) was done *)
  active : option Q                (* Some msec while armed *)
}.

Inductive hardware : Type := JoystickHardware.

(** The attributes of a [JoystickLogic] instance.  The class body binds
    [events] (to [None]); [_events], which [loop] reads, is bound nowhere,
    so on an instance the attribute is absent ([None] below) unless it is
    set from outside the class. *)
Record JoystickLogic : Type := mkJoystickLogic {
  _hardware : option hardware;
  _max_fps : Q;
  _fps : Q;
  timer : option QTimer;
  enabled : bool;
  _last_state : option snapshot;
  events : option events_dict;
  _events : option events_dict
}.

(** What the outside observes. *)
Inductive effect : Type :=
| Emit (s : signal)
| EmitControllerChanged
| TimerStart (msec : Q)
| TimerStop.

(** The object together with its surroundings: the readings the device will
    deliver, how many were taken, the next fresh signal and the effects so
    far (oldest first). *)
Record world : Type := mkWorld {
  self : JoystickLogic;
  hw_feed : nat -> snapshot;
  hw_reads : nat;
  next_signal : nat;
  trace : list effect
}.

Definition with_self (f : JoystickLogic -> JoystickLogic) (w : world) : world :=
  mkWorld (f (self w)) (hw_feed w) (hw_reads w) (next_signal w) (trace w).

Definition set_hardware (h : option hardware) (o : JoystickLogic) :=
  mkJoystickLogic h (_max_fps o) (_fps o) (timer o) (enabled o)
                  (_last_state o) (events o) (_events o).
Definition set_fps (v : Q) (o : JoystickLogic) :=
  mkJoystickLogic (_hardware o) (_max_fps o) v (timer o) (enabled o)
                  (_last_state o) (events o) (_events o).
Definition set_timer (t : option QTimer) (o : JoystickLogic) :=
  mkJoystickLogic (_hardware o) (_max_fps o) (_fps o) t (enabled o)
                  (_last_state o) (events o) (_events o).
Definition set_enabled (b : bool) (o : JoystickLogic) :=
  mkJoystickLogic (_hardware o) (_max_fps o) (_fps o) (timer o) b
                  (_last_state o) (events o) (_events o).
Definition set_last_state (s : option snapshot) (o : JoystickLogic) :=
  mkJoystickLogic (_hardware o) (_max_fps o) (_fps o) (timer o) (enabled o)
                  s (events o) (_events o).
Definition set_events (e : option events_dict) (o : JoystickLogic) :=
  mkJoystickLogic (_hardware o) (_max_fps o) (_fps o) (timer o) (enabled o)
                  (_last_state o) e (_events o).

Definition log (e : effect) : M world unit :=
  modify (fun w => mkWorld (self w) (hw_feed w) (hw_reads w) (next_signal w)
                           (trace w ++ [e])).

(** [QtCore.Signal()] *)
Definition new_signal : M world signal :=
  fun w => (mkWorld (self w) (hw_feed w) (hw_reads w) (S (next_signal w))
                    (trace w),
            inr (Unbound (next_signal w))).

(** [d[k]] on a dict *)
Definition getitem {St V} (d : gmap string V) (k : string) : M St V :=
  match d !! k with
  | Some v => ret v
  | None => raise (KeyError k)
  end.

(** [x[k]] where [x] may be [None] *)
Definition getitem_opt {St V} (d : option (gmap string V)) (k : string)
  : M St V :=
  match d with
  | Some d => getitem d k
  | None => raise TypeError
  end.

(** [self._hardware.get_state()] *)
Definition hardware_get_state : M world snapshot :=
  w <- get ;;
  match _hardware (self w) with
  | None => raise (AttributeError "get_state")
  | Some JoystickHardware =>
      fun w => (mkWorld (self w) (hw_feed w) (S (hw_reads w)) (next_signal w)
                        (trace w),
                inr (hw_feed w (hw_reads w)))
  end.

(** [self.timer.start(1000*1/self._fps)]: the bound method is looked up
    first, then the argument is evaluated. *)
Definition timer_start : M world unit :=
  w <- get ;;
  match timer (self w) with
  | None => raise (AttributeError "start")
  | Some t =>
      if Qeq_bool (_fps (self w)) 0%Q then raise ZeroDivisionError
      else
        let msec := (1000 * 1 / _fps (self w))%Q in
        modify (with_self (set_timer
                  (Some (mkQTimer (singleShot t) (timeout_to_loop t) (Some msec))))) ;;;
        log (TimerStart msec)
  end.

(** [self.timer.stop()] *)
Definition timer_stop : M world unit :=
  w <- get ;;
  match timer (self w) with
  | None => raise (AttributeError "stop")
  | Some t =>
      modify (with_self (set_timer
                (Some (mkQTimer (singleShot t) (timeout_to_loop t) None)))) ;;;
      log TimerStop
  end.

Definition _button_list : list string :=
  ["left_up"; "left_down"; "left_left"; "left_right"; "left_joystick";
   "right_up"; "right_down"; "right_left"; "right_right"; "right_joystick";
   "middle_left"; "middle_right"; "left_shoulder"; "right_shoulder"].

Definition _axis_list : list string :=
  ["left_vertical"; "left_horizontal"; "right_vertical"; "right_horizontal";
   "left_trigger"; "right_trigger"].

(** [self.events[k] = d] *)
Definition events_setitem (k : string) (d : gmap string signal) : M world unit :=
  w <- get ;;
  match events (self w) with
  | None => raise TypeError
  | Some ev => modify (with_self (set_events (Some (<[k := d]> ev))))
  end.

Definition start_loop : M world unit :=
  modify (with_self (set_enabled true)) ;;;
  timer_start.

Definition stop_loop : M world unit :=
  timer_stop ;;;
  modify (with_self (set_enabled false)).

Definition on_activate : M world unit :=
  (* self._hardware = self.hardware() *)
  modify (with_self (set_hardware (Some JoystickHardware))) ;;;
  (* self.timer = QTimer(); setSingleShot(True); timeout.connect(self.loop) *)
  modify (with_self (set_timer (Some (mkQTimer false false None)))) ;;;
  modify (with_self (set_timer (Some (mkQTimer true false None)))) ;;;
  modify (with_self (set_timer (Some (mkQTimer true true None)))) ;;;
  for_in _button_list tt (fun _ button =>
    pressed <- new_signal ;;
    value_change <- new_signal ;;
    events_setitem button
      (<["pressed" := pressed]> (<["value_change" := value_change]> ∅))) ;;;
  for_in _axis_list tt (fun _ axis =>
    value_change <- new_signal ;;
    events_setitem axis (<["value_change" := value_change]> ∅)) ;;;
  state <- hardware_get_state ;;
  modify (with_self (set_last_state (Some state))) ;;;
  start_loop.

Definition on_deactivate : M world unit := stop_loop.

(** [fps(value=None)] *)
Definition fps (value : option Q) : M world Q :=
  match value with
  | Some v => modify (with_self (set_fps v))
  | None => ret tt
  end ;;;
  gets (fun w => _fps (self w)).

(** [self._events[control][name].emit()] *)
Definition emit_event (control name : string) : M world unit :=
  w <- get ;;
  match _events (self w) with
  | None => raise (AttributeError "_events")
  | Some ev =>
      d <- getitem ev control ;;
      s <- getitem d name ;;
      match s with
      | Bound _ => log (Emit s)
      | Unbound _ => raise (AttributeError "emit")
      end
  end.

(** [loop]: the two [for] loops rebind the local [changed], which is
    therefore threaded through them. *)
Definition loop : M world unit :=
  w <- get ;;
  let old_state := _last_state (self w) in
  state <- hardware_get_state ;;
  let changed := false in
  if negb (enabled (self w)) then ret tt
  else
    changed <- for_in _button_list changed (fun changed button =>
      new <- getitem state button ;;
      old <- getitem_opt old_state button ;;
      if py_ne new old then
        emit_event button "value_change" ;;;
        (if truthy new then emit_event button "pressed" else ret tt) ;;;
        ret true
      else ret changed) ;;
    changed <- for_in _axis_list changed (fun changed axis =>
      new <- getitem state axis ;;
      old <- getitem_opt old_state axis ;;
      if py_ne new old then
        emit_event axis "value_change" ;;;
        ret true
      else ret changed) ;;
    (if changed : bool then log EmitControllerChanged else ret tt) ;;;
    timer_start.

Definition get_last_state : M world (option snapshot) :=
  gets (fun w => _last_state (self w)).

(** The two ways in which [loop] touches the surroundings. *)
Definition after_read (w : world) : world :=
  mkWorld (self w) (hw_feed w) (S (hw_reads w)) (next_signal w) (trace w).

Definition after_effect (e : effect) (w : world) : world :=
  mkWorld (self w) (hw_feed w) (hw_reads w) (next_signal w) (trace w ++ [e]).

(** The names under which a control is entered in [events]. *)
Definition entry_names (w : world) (control : string) : option (gset string) :=
  dom <$> (events (self w) ≫= (fun d => d !! control)).

(** An effect that, where it arms the timer, does so with the period that
    the rate [F] gives. *)
Definition arms_with (F : Q) (e : effect) : Prop :=
  match e with
  | TimerStart msec => msec = (1000 * 1 / F)%Q
  | _ => True
  end.

(** The rate is [F], and everything that happened since the trace was [T0]
    armed the timer with the period of [F]. *)
Definition polls_at (F : Q) (T0 : list effect) (w : world) : Prop :=
  _fps (self w) = F /\
  exists new, trace w = T0 ++ new /\ Forall (arms_with F) new.

(** The calls that reach the object while it runs: [start_loop] and
    [stop_loop] from other modules, [loop] from the timer, and reading the
    rate with [fps()].  Each is a separate entry from the event loop. *)
Inductive call : Type :=
| CallStartLoop
| CallStopLoop
| CallLoop
| CallFps.

Definition run_call (c : call) : M world unit :=
  match c with
  | CallStartLoop => slot start_loop
  | CallStopLoop => slot stop_loop
  | CallLoop => slot loop
  | CallFps => slot (fps None ;;; ret tt)
  end.

Fixpoint run_calls (cs : list call) : M world unit :=
  match cs with
  | [] => ret tt
  | c :: cs' => run_call c ;;; run_calls cs'
  end.

(** A new instance: the attributes as the class body binds them, with the
    configured rate of 100 per second. *)
Definition fresh : JoystickLogic :=
  mkJoystickLogic None 100%Q 100%Q None false None None None.

Definition boot (o : JoystickLogic) (feed : nat -> snapshot) : world :=
  mkWorld o feed 0 0 [].

(** Two readings: nothing touched, and the same with [left_up] held. *)
Definition released : snapshot :=
  list_to_map (((fun b => (b, PyBool false)) <$> _button_list) ++
               ((fun a => (a, PyNum 0%Q)) <$> _axis_list)).

Definition left_up_pressed : snapshot := <["left_up" := PyBool true]> released.

(** A device that is untouched at the first reading and has [left_up] held
    from the second reading on. *)
Definition press_after_first (n : nat) : snapshot :=
  match n with
  | O => released
  | S _ => left_up_pressed
  end.

(** A new instance after its (failed) activation on an untouched device. *)
Definition idle : world := exec on_activate (boot fresh (fun _ => released)).

(** An instance on which [events] was bound to an empty dict before
    activation, activated on that device. *)
Definition activated : world :=
  exec on_activate (boot (set_events (Some ∅) fresh) press_after_first).

(** *** Notions used to state further properties of the loop *)

(** The bodies of the two [for] loops of [loop], for a reading [state] and
    the stored [old_state]. *)
Definition button_step (state : snapshot) (old_state : option snapshot)
           (changed : bool) (button : string) : M world bool :=
  new <- getitem state button ;;
  old <- getitem_opt old_state button ;;
  if py_ne new old then
    emit_event button "value_change" ;;;
    (if truthy new then emit_event button "pressed" else ret tt) ;;;
    ret true
  else ret changed.

Definition axis_step (state : snapshot) (old_state : option snapshot)
           (changed : bool) (axis : string) : M world bool :=
  new <- getitem state axis ;;
  old <- getitem_opt old_state axis ;;
  if py_ne new old then
    emit_event axis "value_change" ;;;
    ret true
  else ret changed.

Definition after_effects (es : list effect) (w : world) : world :=
  fold_left (fun w e => after_effect e w) es w.

(** The snapshot has a value for every button and every axis. *)
Definition complete (s : snapshot) : bool :=
  forallb (fun c => match s !! c with Some _ => true | None => false end)
          (_button_list ++ _axis_list).

(** [state[c] != old[c]], where both have [c]. *)
Definition differs (state old : snapshot) (c : string) : bool :=
  match state !! c, old !! c with
  | Some new, Some o => py_ne new o
  | _, _ => false
  end.

Definition truthy_at (state : snapshot) (c : string) : bool :=
  match state !! c with
  | Some v => truthy v
  | None => false
  end.

(** The emission of the signal entered for [control] under [name], if
    there is one and it can be emitted. *)
Definition emission (ev : events_dict) (control name : string) : list effect :=
  match ev !! control ≫= (fun d => d !! name) with
  | Some (Bound i) => [Emit (Bound i)]
  | _ => []
  end.

(** Every button has its two signals and every axis its one, and each of
    them can be emitted. *)
Definition wired (ev : events_dict) : bool :=
  forallb (fun b => match emission ev b "value_change", emission ev b "pressed" with
                    | [_], [_] => true
                    | _, _ => false
                    end) _button_list &&
  forallb (fun a => match emission ev a "value_change" with
                    | [_] => true
                    | _ => false
                    end) _axis_list.


(** What an iteration has to emit for one button and for one axis. *)
Definition button_emissions (ev : events_dict) (state old : snapshot)
           (b : string) : list effect :=
  if differs state old b
  then emission ev b "value_change" ++
       (if truthy_at state b then emission ev b "pressed" else [])
  else [].

Definition axis_emissions (ev : events_dict) (state old : snapshot)
           (a : string) : list effect :=
  if differs state old a then emission ev a "value_change" else [].

(** Binding the attribute [_events] from outside the class. *)
Definition set_private_events (e : option events_dict) (o : JoystickLogic) :=
  mkJoystickLogic (_hardware o) (_max_fps o) (_fps o) (timer o) (enabled o)
                  (_last_state o) (events o) e.

(** The dict that [on_activate] fills on the activated instance, and a
    dict of the same layout whose entries are bound signals. *)
Definition wiring : events_dict := default ∅ (events (self activated)).

Definition bind_signal (s : signal) : signal :=
  match s with
  | Unbound i => Bound i
  | Bound i => Bound i
  end.

Definition bound_wiring : events_dict :=
  (fun d : gmap string signal => bind_signal <$> d) <$> wiring.

(** An instance as that activation leaves it, with [_events] bound from
    outside to the dict of bound signals: one reading taken, the next one
    has [left_up] held. *)
Definition rewired : world :=
  mkWorld (mkJoystickLogic (Some JoystickHardware) 100%Q 100%Q
             (Some (mkQTimer true true (Some (1000 * 1 / 100)%Q))) true
             (Some released) (Some wiring) (Some bound_wiring))
          press_after_first 1 34 [TimerStart (1000 * 1 / 100)%Q].


(** An enabled instance on a device that nobody touches, [_events]
    unbound. *)
Definition polling_untouched : world :=
  mkWorld (mkJoystickLogic (Some JoystickHardware) 100%Q 100%Q
             (Some (mkQTimer true true (Some (1000 * 1 / 100)%Q))) true
             (Some released) None None)
          (fun _ => released) 1 0 [TimerStart (1000 * 1 / 100)%Q].

(** A new instance after its failed activation and a call of
    [start_loop]. *)
Definition started (feed : nat -> snapshot) : world :=
  exec start_loop (exec on_activate (boot fresh feed)).

(** The entries that [on_activate] makes, with the signals numbered in the
    order of their creation. *)
Definition button_entry (n : nat) : gmap string signal :=
  <["pressed" := Unbound n]> (<["value_change" := Unbound (S n)]> ∅).

Definition axis_entry (n : nat) : gmap string signal :=
  <["value_change" := Unbound n]> ∅.

Fixpoint register_buttons (l : list string) (n : nat) (ev : events_dict) : events_dict :=
  match l with
  | [] => ev
  | b :: l' => register_buttons l' (S (S n)) (<[b := button_entry n]> ev)
  end.

Fixpoint register_axes (l : list string) (n : nat) (ev : events_dict) : events_dict :=
  match l with
  | [] => ev
  | a :: l' => register_axes l' (S n) (<[a := axis_entry n]> ev)
  end.

(** The instance with [events] bound to [ev'] and [k] signals created. *)
Definition registered (ev' : events_dict) (k : nat) (w : world) : world :=
  mkWorld (set_events (Some ev') (self w)) (hw_feed w) (hw_reads w) k (trace w).

End Joystick.

(** ** gui/camera/cameragui.py *)

Module Camera.
Import Py.

Local Open Scope Q_scope.

(** Comparisons of Python numbers. *)
Definition Qgt_bool (a b : Q) : bool := negb (Qle_bool a b).
Definition Qlt_bool (a b : Q) : bool := negb (Qle_bool b a).
Definition Qge_bool (a b : Q) : bool := Qle_bool b a.

(** Numbers are fractions here; two of them are the same number when
    numerator and denominator agree, and two positions or sizes when both
    coordinates do. *)
Definition same_number (a b : Q) : bool :=
  (Qnum a =? Qnum b)%Z && (Qden a =? Qden b)%positive.

Definition same_point (p q : Q * Q) : bool :=
  same_number (fst p) (fst q) && same_number (snd p) (snd q).

(** [int(x)]: truncation toward zero. *)
Definition py_int (x : Q) : Z := Z.quot (Qnum x) (Zpos (Qden x)).

(** [range(a, b)] *)
Definition py_range (a b : Z) : list Z :=
  map (fun i => (a + Z.of_nat i)%Z) (seq 0 (Z.to_nat (b - a))).

(** A 2-d array, row-major: [image[v][h]]. *)
Abbreviation image := (list (list Q)).

(** [np.shape(a)[0]] and [np.shape(a)[1]] *)
Definition shape0 (a : image) : N := N.of_nat (length a).
Definition shape1 (a : image) : N :=
  match a with
  | [] => 0%N
  | row :: _ => N.of_nat (length row)
  end.

(** An index into an axis of length [n]: negative indices count from the
    end, anything else out of range raises [IndexError]. *)
Definition np_index (n : nat) (i : Z) : option nat :=
  if ((0 <=? i) && (i <? Z.of_nat n))%Z then Some (Z.to_nat i)
  else if ((- Z.of_nat n <=? i) && (i <? 0))%Z then Some (Z.to_nat (Z.of_nat n + i))
  else None.

(** [a[v][h] = x] *)
Definition np_setitem {St} (a : image) (v h : Z) (x : Q) : M St image :=
  match np_index (length a) v with
  | None => raise IndexError
  | Some r =>
      match a !! r with
      | None => raise IndexError
      | Some row =>
          match np_index (length row) h with
          | None => raise IndexError
          | Some c => ret (<[r := <[c := x]> row]> a)
          end
      end
  end.

(** [np.sum(a * b)] for arrays of one shape. *)
Definition np_sum_mul (a b : image) : Q :=
  fold_right Qplus 0
    (map (fun rows => fold_right Qplus 0
                        (map (fun xy => fst xy * snd xy) (combine (fst rows) (snd rows))))
         (combine a b)).

(** [a / b] on numpy floats: no exception on a zero divisor; the result is
    then not a finite number ([None]). *)
Definition np_divide (a b : Q) : option Q :=
  if Qeq_bool b 0 then None else Some (a / b).

Record CrossROI : Type := mkCrossROI {
  pos : Q * Q;
  size : Q * Q;
  userDrag : bool
}.

Record CrossLine : Type := mkCrossLine {
  angle : Z;
  value : Q
}.

(** A spin box whose range the program sets.  Qt keeps the value of a spin
    box within its range: [setValue] stores the nearest bound for a value
    that lies outside, and [setRange] takes [minimum] for a [maximum] below
    it and brings the value into the new range.  (The class of the boxes is
    fixed in [ui_camera.ui]; rounding to the decimals on display is not
    modelled.) *)
Module SpinBox.

Record t : Type := mk {
  value : Q;
  minimum : Q;
  maximum : Q
}.

Definition bound (b : t) (v : Q) : Q :=
  let v := if Qlt_bool v (minimum b) then minimum b else v in
  if Qgt_bool v (maximum b) then maximum b else v.

Definition setValue (v : Q) (b : t) : t := mk (bound b v) (minimum b) (maximum b).

Definition setRange (lo hi : Q) (b : t) : t :=
  let hi := if Qlt_bool lo hi then hi else lo in
  setValue (value b) (mk (value b) lo hi).

(** The user enters [v]: the value that the box holds when the editing is
    finished. *)
Definition enter (v : Q) (b : t) : t := mk v (minimum b) (maximum b).

(** [v] lies in the range of the box. *)
Definition within (b : t) (v : Q) : bool :=
  Qle_bool (minimum b) v && Qle_bool v (maximum b).

End SpinBox.

(** The widgets of the main window that the code reads and writes: the
    four position boxes, whose range [createCrosshair] sets, and the size
    boxes and the intensity display, which are modelled by the number last
    handed to them. *)
Record CameraWindow : Type := mkCameraWindow {
  x_current_InputWidget_pixels : SpinBox.t;
  y_current_InputWidget_pixels : SpinBox.t;
  x_current_InputWidget_meter : SpinBox.t;
  y_current_InputWidget_meter : SpinBox.t;
  cursor_x_size_input : Q;
  cursor_y_size_input : Q;
  intensity_current : option Q
}.

Record CameraGUI : Type := mkCameraGUI {
  _mw : CameraWindow;
  _pixel_size_x : Q;
  _pixel_size_y : Q;
  _raw_data_image : image;
  _image_size : N * N;             (* (width, height) *)
  roi_xy : CrossROI;
  hline_xy : CrossLine;
  vline_xy : CrossLine
}.

Definition with_mw (f : CameraWindow -> CameraWindow) (g : CameraGUI) :=
  mkCameraGUI (f (_mw g)) (_pixel_size_x g) (_pixel_size_y g) (_raw_data_image g)
              (_image_size g) (roi_xy g) (hline_xy g) (vline_xy g).
Definition with_roi (f : CrossROI -> CrossROI) (g : CameraGUI) :=
  mkCameraGUI (_mw g) (_pixel_size_x g) (_pixel_size_y g) (_raw_data_image g)
              (_image_size g) (f (roi_xy g)) (hline_xy g) (vline_xy g).
Definition with_hline (f : CrossLine -> CrossLine) (g : CameraGUI) :=
  mkCameraGUI (_mw g) (_pixel_size_x g) (_pixel_size_y g) (_raw_data_image g)
              (_image_size g) (roi_xy g) (f (hline_xy g)) (vline_xy g).
Definition with_vline (f : CrossLine -> CrossLine) (g : CameraGUI) :=
  mkCameraGUI (_mw g) (_pixel_size_x g) (_pixel_size_y g) (_raw_data_image g)
              (_image_size g) (roi_xy g) (hline_xy g) (f (vline_xy g)).
Definition set_image (img : image) (sz : N * N) (g : CameraGUI) :=
  mkCameraGUI (_mw g) (_pixel_size_x g) (_pixel_size_y g) img sz
              (roi_xy g) (hline_xy g) (vline_xy g).

Definition set_x_pixels (f : SpinBox.t -> SpinBox.t) (m : CameraWindow) :=
  mkCameraWindow (f (x_current_InputWidget_pixels m)) (y_current_InputWidget_pixels m)
    (x_current_InputWidget_meter m) (y_current_InputWidget_meter m)
    (cursor_x_size_input m) (cursor_y_size_input m) (intensity_current m).
Definition set_y_pixels (f : SpinBox.t -> SpinBox.t) (m : CameraWindow) :=
  mkCameraWindow (x_current_InputWidget_pixels m) (f (y_current_InputWidget_pixels m))
    (x_current_InputWidget_meter m) (y_current_InputWidget_meter m)
    (cursor_x_size_input m) (cursor_y_size_input m) (intensity_current m).
Definition set_x_meter (f : SpinBox.t -> SpinBox.t) (m : CameraWindow) :=
  mkCameraWindow (x_current_InputWidget_pixels m) (y_current_InputWidget_pixels m)
    (f (x_current_InputWidget_meter m)) (y_current_InputWidget_meter m)
    (cursor_x_size_input m) (cursor_y_size_input m) (intensity_current m).
Definition set_y_meter (f : SpinBox.t -> SpinBox.t) (m : CameraWindow) :=
  mkCameraWindow (x_current_InputWidget_pixels m) (y_current_InputWidget_pixels m)
    (x_current_InputWidget_meter m) (f (y_current_InputWidget_meter m))
    (cursor_x_size_input m) (cursor_y_size_input m) (intensity_current m).
Definition set_cursor_size (sx sy : Q) (m : CameraWindow) :=
  mkCameraWindow (x_current_InputWidget_pixels m) (y_current_InputWidget_pixels m)
    (x_current_InputWidget_meter m) (y_current_InputWidget_meter m) sx sy
    (intensity_current m).
Definition set_intensity (i : option Q) (m : CameraWindow) :=
  mkCameraWindow (x_current_InputWidget_pixels m) (y_current_InputWidget_pixels m)
    (x_current_InputWidget_meter m) (y_current_InputWidget_meter m)
    (cursor_x_size_input m) (cursor_y_size_input m) i.

Definition set_pos (p : Q * Q) (r : CrossROI) := mkCrossROI p (size r) (userDrag r).
Definition set_size (s : Q * Q) (r : CrossROI) := mkCrossROI (pos r) s (userDrag r).
Definition set_userDrag (b : bool) (r : CrossROI) := mkCrossROI (pos r) (size r) b.
Definition setValue (v : Q) (l : CrossLine) := mkCrossLine (angle l) v.

(** [CrossLine.adjust], for each of the two lines of the crosshair *)
Definition adjust (with_line : (CrossLine -> CrossLine) -> CameraGUI -> CameraGUI)
                  (line : CameraGUI -> CrossLine) : M CameraGUI unit :=
  g <- get ;;
  (if Z.eqb (angle (line g)) 0
   then modify (with_line (setValue (snd (pos (roi_xy g)) + snd (size (roi_xy g)) * (1#2))))
   else ret tt) ;;;
  g <- get ;;
  (if Z.eqb (angle (line g)) 90
   then modify (with_line (setValue (fst (pos (roi_xy g)) + fst (size (roi_xy g)) * (1#2))))
   else ret tt).

Definition update_input_x (x_pos : Q) : M CameraGUI unit :=
  g <- get ;;
  modify (with_mw (set_x_pixels (SpinBox.setValue x_pos))) ;;;
  modify (with_mw (set_x_meter (SpinBox.setValue (x_pos * _pixel_size_x g)))).

Definition update_input_y (y_pos : Q) : M CameraGUI unit :=
  g <- get ;;
  modify (with_mw (set_y_pixels (SpinBox.setValue y_pos))) ;;;
  modify (with_mw (set_y_meter (SpinBox.setValue (y_pos * _pixel_size_y g)))).

Definition create_mask_ROI (img : image) : M CameraGUI image :=
  g <- get ;;
  let roi := roi_xy g in
  let mask := map (map (fun x => x * 0)) img in
  let h_bounds := (py_int (fst (pos roi) - fst (size roi) / 2),
                   (py_int (fst (pos roi) + fst (size roi) / 2) + 1)%Z) in
  let v_bounds := (py_int (snd (pos roi) - snd (size roi) / 2),
                   (py_int (snd (pos roi) + snd (size roi) / 2) + 1)%Z) in
  let h_bounds :=
    if Qge_bool (fst (pos roi) + fst (size roi)) (inject_Z (Z.of_N (fst (_image_size g))))
    then (fst h_bounds, Z.of_N (fst (_image_size g))) else h_bounds in
  let v_bounds :=
    if Qge_bool (snd (pos roi) + snd (size roi)) (inject_Z (Z.of_N (snd (_image_size g))))
    then (fst v_bounds, Z.of_N (snd (_image_size g))) else v_bounds in
  let h_bounds :=
    if Qle_bool (fst (pos roi) - fst (size roi)) 0
    then (0%Z, snd h_bounds) else h_bounds in
  let v_bounds :=
    if Qle_bool (snd (pos roi) - snd (size roi)) 0
    then (0%Z, snd v_bounds) else v_bounds in
  for_in (py_range (fst h_bounds) (snd h_bounds)) mask (fun mask h =>
    for_in (py_range (fst v_bounds) (snd v_bounds)) mask (fun mask v =>
      np_setitem mask v h 1)).

Definition update_intensity : M CameraGUI unit :=
  g <- get ;;
  mask <- create_mask_ROI (_raw_data_image g) ;;
  let intensity_test :=
    np_divide (np_sum_mul mask (_raw_data_image g))
              (fst (size (roi_xy g)) * snd (size (roi_xy g))) in
  modify (with_mw (set_intensity intensity_test)).

Definition update_from_roi_xy : M CameraGUI unit :=
  g <- get ;;
  let h_pos := fst (pos (roi_xy g)) + (1#2) * fst (size (roi_xy g)) in
  let v_pos := snd (pos (roi_xy g)) + (1#2) * snd (size (roi_xy g)) in
  update_input_x h_pos ;;;
  update_input_y v_pos ;;;
  update_intensity.

(** Signals of [CrossROI] with their slots, in connection order:
    [CrossROI.__init__] connects first, [createCrosshair] later. *)
Definition startUserDrag : M CameraGUI unit := modify (with_roi (set_userDrag true)).
Definition stopUserDrag : M CameraGUI unit := modify (with_roi (set_userDrag false)).

Definition sigUserRegionUpdate : list (M CameraGUI unit) := [update_from_roi_xy].
Definition sigMachineRegionUpdate : list (M CameraGUI unit) := [].

Definition regionUpdateInfo : M CameraGUI unit :=
  g <- get ;;
  if userDrag (roi_xy g) then emit sigUserRegionUpdate
  else emit sigMachineRegionUpdate.

Definition sigRegionChanged : list (M CameraGUI unit) :=
  [regionUpdateInfo; adjust with_hline hline_xy; adjust with_vline vline_xy].

Definition sigRegionChangeStarted : list (M CameraGUI unit) := [startUserDrag].

(** [CrossROI.setPos(pos)]: [update=True], [finish=False].  [pg.ROI.setPos]
    stores the position and calls [stateChanged], which emits
    [sigRegionChanged] only if the state is not the one it was before.
    (Qt compares the two points with a tolerance of 1e-12; a move within
    that tolerance counts as a change here.) *)
Definition setPos (p : Q * Q) : M CameraGUI unit :=
  g <- get ;;
  modify (with_roi (set_pos p)) ;;;
  if same_point p (pos (roi_xy g)) then ret tt else emit sigRegionChanged.

Definition update_roi_xy (h v : option Q) : M CameraGUI unit :=
  g <- get ;;
  let roi_h_view := fst (pos (roi_xy g)) in
  let roi_v_view := snd (pos (roi_xy g)) in
  let roi_h_view :=
    match h with
    | Some h => h - fst (size (roi_xy g)) * (1#2)
    | None => roi_h_view
    end in
  let roi_v_view :=
    match v with
    | Some v => v - snd (size (roi_xy g)) * (1#2)
    | None => roi_v_view
    end in
  setPos (roi_h_view, roi_v_view) ;;;
  update_intensity.

Definition roi_xy_bounds_check : M CameraGUI unit :=
  g <- get ;;
  let h_pos := fst (pos (roi_xy g)) + (1#2) * fst (size (roi_xy g)) in
  let v_pos := snd (pos (roi_xy g)) + (1#2) * snd (size (roi_xy g)) in
  let new_h_pos := h_pos in
  let new_v_pos := v_pos in
  let max_h_pos := inject_Z (Z.of_N (fst (_image_size g))) in
  let max_v_pos := inject_Z (Z.of_N (snd (_image_size g))) in
  let new_h_pos := if Qgt_bool h_pos max_h_pos then max_h_pos else new_h_pos in
  let new_h_pos := if Qlt_bool h_pos 0 then 0 else new_h_pos in
  let new_v_pos := if Qgt_bool v_pos max_v_pos then max_v_pos else new_v_pos in
  let new_v_pos := if Qlt_bool v_pos 0 then 0 else new_v_pos in
  update_roi_xy (Some new_h_pos) (Some new_v_pos).

Definition sigRegionChangeFinished : list (M CameraGUI unit) :=
  [stopUserDrag; roi_xy_bounds_check].

(** [CrossROI.setSize(size)]: [update=True], [finish=True].  As in
    [setPos], [sigRegionChanged] is emitted only on a change;
    [sigRegionChangeFinished] is emitted in any case. *)
Definition setSize (s : Q * Q) : M CameraGUI unit :=
  g <- get ;;
  modify (with_roi (set_size s)) ;;;
  (if same_point s (size (roi_xy g)) then ret tt else emit sigRegionChanged) ;;;
  emit sigRegionChangeFinished.

Definition update_from_input_x : M CameraGUI unit :=
  g <- get ;;
  let x_pos := SpinBox.value (x_current_InputWidget_pixels (_mw g)) in
  update_roi_xy (Some x_pos) None ;;;
  modify (with_mw (set_x_meter (SpinBox.setValue (x_pos * _pixel_size_x g)))).

(** [a / b] on Python floats *)
Definition py_div {St} (a b : Q) : M St Q :=
  if Qeq_bool b 0 then raise ZeroDivisionError else ret (a / b).

Definition update_from_input_x_meter : M CameraGUI unit :=
  g <- get ;;
  x_pos <- py_div (SpinBox.value (x_current_InputWidget_meter (_mw g)))
                  (_pixel_size_x g) ;;
  update_roi_xy (Some x_pos) None ;;;
  modify (with_mw (set_x_pixels (SpinBox.setValue x_pos))).

Definition update_from_input_y : M CameraGUI unit :=
  g <- get ;;
  let y_pos := SpinBox.value (y_current_InputWidget_pixels (_mw g)) in
  update_roi_xy None (Some y_pos) ;;;
  modify (with_mw (set_y_meter (SpinBox.setValue (y_pos * _pixel_size_y g)))).

Definition update_from_input_y_meter : M CameraGUI unit :=
  g <- get ;;
  let y_pos_meter := SpinBox.value (y_current_InputWidget_meter (_mw g)) in
  y_pos <- py_div y_pos_meter (_pixel_size_y g) ;;
  update_roi_xy None (Some y_pos) ;;;
  g' <- get ;;
  y_pos' <- py_div y_pos_meter (_pixel_size_y g') ;;
  modify (with_mw (set_y_pixels (SpinBox.setValue y_pos'))).

Definition update_from_key (x y : option Q) : M CameraGUI unit :=
  match x with
  | Some x => update_roi_xy (Some x) None ;;; update_input_x x
  | None => ret tt
  end ;;;
  match y with
  | Some y => update_roi_xy None (Some y) ;;; update_input_y y
  | None => ret tt
  end ;;;
  update_intensity.

Definition update_from_input_xy_size : M CameraGUI unit :=
  g <- get ;;
  let x_size := cursor_x_size_input (_mw g) in
  let y_size := cursor_y_size_input (_mw g) in
  setSize (x_size, y_size) ;;;
  update_intensity.

(** [update_data], with the image that the logic module hands over *)
Definition update_data (last_image : image) : M CameraGUI unit :=
  modify (set_image last_image (shape1 last_image, shape0 last_image)) ;;;
  update_intensity.

(** [createCrosshair]: the ROI at (5, 5) with size (1, 1), both lines
    through its centre, the ranges of the position boxes (the image in
    pixels and in meters), and the boxes showing the initial position.
    (The early return on a missing image item is left out: [on_activate]
    creates the item before it calls [createCrosshair].) *)
Definition createCrosshair : M CameraGUI unit :=
  modify (with_roi (fun _ => mkCrossROI (5, 5) (1, 1) false)) ;;;
  g <- get ;;
  modify (with_hline (fun _ =>
    mkCrossLine 0 (snd (pos (roi_xy g)) + snd (size (roi_xy g)) * (1#2)))) ;;;
  modify (with_vline (fun _ =>
    mkCrossLine 90 (fst (pos (roi_xy g)) + fst (size (roi_xy g)) * (1#2)))) ;;;
  let width := inject_Z (Z.of_N (fst (_image_size g))) in
  let height := inject_Z (Z.of_N (snd (_image_size g))) in
  modify (with_mw (set_x_pixels (SpinBox.setRange 0 width))) ;;;
  modify (with_mw (set_y_pixels (SpinBox.setRange 0 height))) ;;;
  modify (with_mw (set_x_meter (SpinBox.setRange 0 (width * _pixel_size_x g)))) ;;;
  modify (with_mw (set_y_meter (SpinBox.setRange 0 (height * _pixel_size_y g)))) ;;;
  modify (with_mw (set_x_pixels (SpinBox.setValue (fst (pos (roi_xy g)))))) ;;;
  modify (with_mw (set_y_pixels (SpinBox.setValue (snd (pos (roi_xy g)))))) ;;;
  modify (with_mw (set_x_meter
                     (SpinBox.setValue (fst (pos (roi_xy g)) * _pixel_size_x g)))) ;;;
  modify (with_mw (set_y_meter
                     (SpinBox.setValue (snd (pos (roi_xy g)) * _pixel_size_y g)))) ;;;
  modify (with_mw (set_cursor_size (fst (size (roi_xy g))) (snd (size (roi_xy g))))).

(** What the user and the camera logic can do to the panel once it is up.
    An edit of a box carries the value that the box holds when the editing
    is finished. *)
Inductive gui_event : Type :=
| DragStart
| DragMove (p : Q * Q)
| DragFinish
| EditXPixels (x : Q)
| EditYPixels (y : Q)
| EditXMeter (x : Q)
| EditYMeter (y : Q)
| EditCursorSize (sx sy : Q)
| KeyMove (x y : option Q)
| NewImage (img : image).

Definition handle (e : gui_event) : M CameraGUI unit :=
  match e with
  | DragStart => emit sigRegionChangeStarted
  | DragMove p => setPos p
  | DragFinish => emit sigRegionChangeFinished
  | EditXPixels x =>
      modify (with_mw (set_x_pixels (SpinBox.enter x))) ;;; slot update_from_input_x
  | EditYPixels y =>
      modify (with_mw (set_y_pixels (SpinBox.enter y))) ;;; slot update_from_input_y
  | EditXMeter x =>
      modify (with_mw (set_x_meter (SpinBox.enter x))) ;;; slot update_from_input_x_meter
  | EditYMeter y =>
      modify (with_mw (set_y_meter (SpinBox.enter y))) ;;; slot update_from_input_y_meter
  | EditCursorSize sx sy =>
      modify (with_mw (set_cursor_size sx sy)) ;;; slot update_from_input_xy_size
  | KeyMove x y => slot (update_from_key x y)
  | NewImage img => slot (update_data img)
  end.

Fixpoint handle_all (es : list gui_event) : M CameraGUI unit :=
  match es with
  | [] => ret tt
  | e :: es' => handle e ;;; handle_all es'
  end.

(** *** Notions used to state the properties *)

(** The centre of the ROI: origin plus half the size, per axis. *)
Definition centre (r : CrossROI) : Q * Q :=
  (fst (pos r) + fst (size r) / 2, snd (pos r) + snd (size r) / 2).

(** [x] clamped to the interval from [lo] to [hi]. *)
Definition clamp (lo hi x : Q) : Q :=
  if Qlt_le_dec x lo then lo else if Qlt_le_dec hi x then hi else x.

Definition image_width (g : CameraGUI) : Q := inject_Z (Z.of_N (fst (_image_size g))).
Definition image_height (g : CameraGUI) : Q := inject_Z (Z.of_N (snd (_image_size g))).


(** The half-open index range that [create_mask_ROI] runs through on one
    axis, for origin [p], size [s] and [n] pixels. *)
Definition mask_bounds (p s : Q) (n : N) : Z * Z :=
  (if Qle_bool (p - s) 0 then 0%Z else py_int (p - s / 2),
   if Qge_bool (p + s) (inject_Z (Z.of_N n)) then Z.of_N n
   else (py_int (p + s / 2) + 1)%Z).

(** The stored image has the shape that [_image_size] records, it has at
    least one pixel, and the ROI has no negative extent. *)
Definition mask_safe (g : CameraGUI) : bool :=
  Qle_bool 0 (fst (size (roi_xy g))) && Qle_bool 0 (snd (size (roi_xy g))) &&
  (1 <=? fst (_image_size g))%N && (1 <=? snd (_image_size g))%N &&
  (N.of_nat (length (_raw_data_image g)) =? snd (_image_size g))%N &&
  forallb (fun row => (N.of_nat (length row) =? fst (_image_size g))%N)
          (_raw_data_image g).

(** An array of [rows] rows with [cols] entries each. *)
Definition has_shape (rows cols : nat) (a : image) : Prop :=
  length a = rows /\ Forall (fun row => length row = cols) a.

(** [mask[v][h]] *)
Definition entry (mask : image) (v h : nat) : option Q :=
  mask !! v ≫= (fun row => row !! h).

(** [create_mask_ROI(self._raw_data_image)[v][h]], or the exception that
    [create_mask_ROI] raises. *)
Definition mask_entry (g : CameraGUI) (v h : nat) : exn + option Q :=
  match outcome (create_mask_ROI (_raw_data_image g)) g with
  | inl e => inl e
  | inr mask => inr (entry mask v h)
  end.

(** Pixel [(h, v)] covers the unit square at [(h, v)]: it belongs to the
    ROI rectangle intersected with the image if it lies in the image and
    the square overlaps the rectangle from [pos] to [pos + size]. *)
Definition in_roi_rectangle (g : CameraGUI) (h v : nat) : bool :=
  let r := roi_xy g in
  (N.of_nat h <? fst (_image_size g))%N && (N.of_nat v <? snd (_image_size g))%N &&
  Qlt_bool (fst (pos r)) (inject_Z (Z.of_nat h) + 1) &&
  Qlt_bool (inject_Z (Z.of_nat h)) (fst (pos r) + fst (size r)) &&
  Qlt_bool (snd (pos r)) (inject_Z (Z.of_nat v) + 1) &&
  Qlt_bool (inject_Z (Z.of_nat v)) (snd (pos r) + snd (size r)).

(** Where [update_roi_xy] puts the origin. *)
Definition new_origin (r : CrossROI) (h v : option Q) : Q * Q :=
  (match h with Some h => h - fst (size r) * (1#2) | None => fst (pos r) end,
   match v with Some v => v - snd (size r) * (1#2) | None => snd (pos r) end).

(** Properties of the panel that do not depend on the widgets, on the
    crosshair lines, or on where the ROI is and whether it is dragged. *)
Definition ignores_widgets (I : CameraGUI -> Prop) : Prop :=
  forall g f, I g -> I (with_mw f g).

Definition ignores_lines (I : CameraGUI -> Prop) : Prop :=
  forall g f, I g -> I (with_hline f g) /\ I (with_vline f g).

Definition ignores_position (I : CameraGUI -> Prop) : Prop :=
  forall g p b, I g -> I (with_roi (set_pos p) g) /\ I (with_roi (set_userDrag b) g).

(** *** Concrete panels *)

Definition zeros (rows cols : nat) : image := repeat (repeat 0 cols) rows.

(** A spin box as Qt creates it: value 0, range 0 to 99.99. *)
Definition new_box : SpinBox.t := SpinBox.mk 0 0 (9999#100).

(** A panel on a dark 20 x 20 image with pixels of 1/2 by 3 units, before
    the crosshair is created. *)
Definition blank_panel : CameraGUI :=
  mkCameraGUI (mkCameraWindow new_box new_box new_box new_box 0 0 None)
              (1#2) 3 (zeros 20 20) (20%N, 20%N)
              (mkCrossROI (0, 0) (0, 0) false) (mkCrossLine 0 0) (mkCrossLine 0 0).

Definition panel : CameraGUI := exec createCrosshair blank_panel.

(** The same panel with the ROI at (10, 10) and of size (4, 4): the
    rectangle from (10, 10) to (14, 14), well inside the image. *)
Definition panel_roi_10_4 : CameraGUI :=
  with_roi (fun _ => mkCrossROI (10, 10) (4, 4) false) panel.

(** A panel configured with pixel sizes [px] and [py]. *)
Definition with_pixel_size (px py : Q) (g : CameraGUI) : CameraGUI :=
  mkCameraGUI (_mw g) px py (_raw_data_image g) (_image_size g)
              (roi_xy g) (hline_xy g) (vline_xy g).

(** *** Notions used to state further properties of the panel *)

(** [i] lies in the half-open index range [b]. *)
Definition in_range (b : Z * Z) (i : nat) : bool :=
  (fst b <=? Z.of_nat i)%Z && (Z.of_nat i <? snd b)%Z.

(** The index rectangle of [create_mask_ROI]: column [h] and row [v] lie
    in the ranges of their axes. *)
Definition painted (g : CameraGUI) (v h : nat) : bool :=
  in_range (mask_bounds (fst (pos (roi_xy g))) (fst (size (roi_xy g)))
                        (fst (_image_size g))) h &&
  in_range (mask_bounds (snd (pos (roi_xy g))) (snd (size (roi_xy g)))
                        (snd (_image_size g))) v.

(** An image with at least one row and one column whose rows all have one
    length. *)
Definition rectangular (img : image) : bool :=
  match img with
  | [] => false
  | row :: rest =>
      (1 <=? length row)%nat && forallb (fun r => (length r =? length row)%nat) rest
  end.

(** Events that keep the panel safe for the mask: no negative cursor size
    is entered and the images that arrive are rectangular. *)
Definition benign (e : gui_event) : bool :=
  match e with
  | EditCursorSize sx sy => Qle_bool 0 sx && Qle_bool 0 sy
  | NewImage img => rectangular img
  | _ => true
  end.

(** What the four position boxes show, and the ranges they are held in. *)
Definition position_boxes (g : CameraGUI) : Q * Q * (Q * Q) :=
  (SpinBox.value (x_current_InputWidget_pixels (_mw g)),
   SpinBox.value (y_current_InputWidget_pixels (_mw g)),
   (SpinBox.value (x_current_InputWidget_meter (_mw g)),
    SpinBox.value (y_current_InputWidget_meter (_mw g)))).

Definition range (b : SpinBox.t) : Q * Q := (SpinBox.minimum b, SpinBox.maximum b).

Definition ranges (g : CameraGUI) : Q * Q * (Q * Q) * (Q * Q * (Q * Q)) :=
  (range (x_current_InputWidget_pixels (_mw g)),
   range (y_current_InputWidget_pixels (_mw g)),
   (range (x_current_InputWidget_meter (_mw g)),
    range (y_current_InputWidget_meter (_mw g)))).

(** What a handler of a position box keeps on a safe panel: the panel is
    still safe, and the configuration and the ranges of the boxes are what
    they were. *)
Definition settled (g g' : CameraGUI) : Prop :=
  mask_safe g' = true /\
  _pixel_size_x g' = _pixel_size_x g /\
  _pixel_size_y g' = _pixel_size_y g /\
  ranges g' = ranges g.

End Camera.


(** ** gui/camera/cameragui.py in binary64

    [Camera] computes with exact fractions.  That is immaterial where the
    code compares numbers, stores them or passes them on, and where a
    statement has the same expression on both sides; it is not where a
    statement needs [(h - s*0.5) + s*0.5] to be [h], or [(p*s)/s] to be
    [p].  This module repeats the handlers of the ROI position and of the
    position boxes with Python's floats as they are: IEEE 754 binary64,
    every operation rounded to nearest.  The image and the mask are the
    arrays of [Camera]. *)

Module Camera64.
Import Py.

Local Open Scope float_scope.

(** [float(n)] for an [int]: the nearest float.  (Exact below 2^53; an
    image size is far below.) *)
Definition of_int (z : Z) : float := SF2Prim (binary_normalize prec emax z 0 false).

(** [int(x)]: truncation toward zero; not a number and the infinities
    raise. *)
Definition py_int {St} (x : float) : M St Z :=
  match Prim2SF x with
  | S754_nan => raise ValueError
  | S754_infinity _ => raise OverflowError
  | S754_zero _ => ret 0%Z
  | S754_finite s m e =>
      let n := if (0 <=? e)%Z then Z.shiftl (Z.pos m) e
               else Z.shiftr (Z.pos m) (- e) in
      ret (if s then (- n)%Z else n)
  end.

(** [a / b] on Python floats *)
Definition py_div {St} (a b : float) : M St float :=
  if b =? 0 then raise ZeroDivisionError else ret (a / b).

(** The sum of the masked pixel values as a float: the sum is taken
    exactly (pixel values are whole numbers in a camera image) and rounded
    once. *)
Definition of_fraction (q : Q) : float := of_int (Qnum q) / of_int (Z.pos (Qden q)).

Record CrossROI : Type := mkCrossROI {
  pos : float * float;
  size : float * float;
  userDrag : bool
}.

Record CrossLine : Type := mkCrossLine {
  angle : Z;
  value : float
}.

(** A spin box with its range, as in [Camera.SpinBox]. *)
Module SpinBox.

Record t : Type := mk {
  value : float;
  minimum : float;
  maximum : float
}.

Definition bound (b : t) (v : float) : float :=
  let v := if v <? minimum b then minimum b else v in
  if maximum b <? v then maximum b else v.

Definition setValue (v : float) (b : t) : t := mk (bound b v) (minimum b) (maximum b).

Definition setRange (lo hi : float) (b : t) : t :=
  let hi := if lo <? hi then hi else lo in
  setValue (value b) (mk (value b) lo hi).

Definition enter (v : float) (b : t) : t := mk v (minimum b) (maximum b).

End SpinBox.

Record CameraWindow : Type := mkCameraWindow {
  x_current_InputWidget_pixels : SpinBox.t;
  y_current_InputWidget_pixels : SpinBox.t;
  x_current_InputWidget_meter : SpinBox.t;
  y_current_InputWidget_meter : SpinBox.t;
  cursor_x_size_input : float;
  cursor_y_size_input : float;
  intensity_current : option float
}.

Record CameraGUI : Type := mkCameraGUI {
  _mw : CameraWindow;
  _pixel_size_x : float;
  _pixel_size_y : float;
  _raw_data_image : Camera.image;
  _image_size : N * N;             (* (width, height) *)
  roi_xy : CrossROI;
  hline_xy : CrossLine;
  vline_xy : CrossLine
}.

Definition with_mw (f : CameraWindow -> CameraWindow) (g : CameraGUI) :=
  mkCameraGUI (f (_mw g)) (_pixel_size_x g) (_pixel_size_y g) (_raw_data_image g)
              (_image_size g) (roi_xy g) (hline_xy g) (vline_xy g).
Definition with_roi (f : CrossROI -> CrossROI) (g : CameraGUI) :=
  mkCameraGUI (_mw g) (_pixel_size_x g) (_pixel_size_y g) (_raw_data_image g)
              (_image_size g) (f (roi_xy g)) (hline_xy g) (vline_xy g).
Definition with_hline (f : CrossLine -> CrossLine) (g : CameraGUI) :=
  mkCameraGUI (_mw g) (_pixel_size_x g) (_pixel_size_y g) (_raw_data_image g)
              (_image_size g) (roi_xy g) (f (hline_xy g)) (vline_xy g).
Definition with_vline (f : CrossLine -> CrossLine) (g : CameraGUI) :=
  mkCameraGUI (_mw g) (_pixel_size_x g) (_pixel_size_y g) (_raw_data_image g)
              (_image_size g) (roi_xy g) (hline_xy g) (f (vline_xy g)).

Definition set_x_pixels (f : SpinBox.t -> SpinBox.t) (m : CameraWindow) :=
  mkCameraWindow (f (x_current_InputWidget_pixels m)) (y_current_InputWidget_pixels m)
    (x_current_InputWidget_meter m) (y_current_InputWidget_meter m)
    (cursor_x_size_input m) (cursor_y_size_input m) (intensity_current m).
Definition set_y_pixels (f : SpinBox.t -> SpinBox.t) (m : CameraWindow) :=
  mkCameraWindow (x_current_InputWidget_pixels m) (f (y_current_InputWidget_pixels m))
    (x_current_InputWidget_meter m) (y_current_InputWidget_meter m)
    (cursor_x_size_input m) (cursor_y_size_input m) (intensity_current m).
Definition set_x_meter (f : SpinBox.t -> SpinBox.t) (m : CameraWindow) :=
  mkCameraWindow (x_current_InputWidget_pixels m) (y_current_InputWidget_pixels m)
    (f (x_current_InputWidget_meter m)) (y_current_InputWidget_meter m)
    (cursor_x_size_input m) (cursor_y_size_input m) (intensity_current m).
Definition set_y_meter (f : SpinBox.t -> SpinBox.t) (m : CameraWindow) :=
  mkCameraWindow (x_current_InputWidget_pixels m) (y_current_InputWidget_pixels m)
    (x_current_InputWidget_meter m) (f (y_current_InputWidget_meter m))
    (cursor_x_size_input m) (cursor_y_size_input m) (intensity_current m).
Definition set_cursor_size (sx sy : float) (m : CameraWindow) :=
  mkCameraWindow (x_current_InputWidget_pixels m) (y_current_InputWidget_pixels m)
    (x_current_InputWidget_meter m) (y_current_InputWidget_meter m) sx sy
    (intensity_current m).
Definition set_intensity (i : option float) (m : CameraWindow) :=
  mkCameraWindow (x_current_InputWidget_pixels m) (y_current_InputWidget_pixels m)
    (x_current_InputWidget_meter m) (y_current_InputWidget_meter m)
    (cursor_x_size_input m) (cursor_y_size_input m) i.

Definition set_pos (p : float * float) (r : CrossROI) := mkCrossROI p (size r) (userDrag r).
Definition setValue (v : float) (l : CrossLine) := mkCrossLine (angle l) v.

(** [CrossLine.adjust], for each of the two lines of the crosshair *)
Definition adjust (with_line : (CrossLine -> CrossLine) -> CameraGUI -> CameraGUI)
                  (line : CameraGUI -> CrossLine) : M CameraGUI unit :=
  g <- get ;;
  (if Z.eqb (angle (line g)) 0
   then modify (with_line (setValue (snd (pos (roi_xy g)) + snd (size (roi_xy g)) * 0.5)))
   else ret tt) ;;;
  g <- get ;;
  (if Z.eqb (angle (line g)) 90
   then modify (with_line (setValue (fst (pos (roi_xy g)) + fst (size (roi_xy g)) * 0.5)))
   else ret tt).

Definition update_input_x (x_pos : float) : M CameraGUI unit :=
  g <- get ;;
  modify (with_mw (set_x_pixels (SpinBox.setValue x_pos))) ;;;
  modify (with_mw (set_x_meter (SpinBox.setValue (x_pos * _pixel_size_x g)))).

Definition update_input_y (y_pos : float) : M CameraGUI unit :=
  g <- get ;;
  modify (with_mw (set_y_pixels (SpinBox.setValue y_pos))) ;;;
  modify (with_mw (set_y_meter (SpinBox.setValue (y_pos * _pixel_size_y g)))).

Definition create_mask_ROI (img : Camera.image) : M CameraGUI Camera.image :=
  g <- get ;;
  let roi := roi_xy g in
  let mask := map (map (fun x => (x * 0)%Q)) img in
  h0 <- py_int (fst (pos roi) - fst (size roi) / 2) ;;
  h1 <- py_int (fst (pos roi) + fst (size roi) / 2) ;;
  let h_bounds := (h0, (h1 + 1)%Z) in
  v0 <- py_int (snd (pos roi) - snd (size roi) / 2) ;;
  v1 <- py_int (snd (pos roi) + snd (size roi) / 2) ;;
  let v_bounds := (v0, (v1 + 1)%Z) in
  let h_bounds :=
    if of_int (Z.of_N (fst (_image_size g))) <=? fst (pos roi) + fst (size roi)
    then (fst h_bounds, Z.of_N (fst (_image_size g))) else h_bounds in
  let v_bounds :=
    if of_int (Z.of_N (snd (_image_size g))) <=? snd (pos roi) + snd (size roi)
    then (fst v_bounds, Z.of_N (snd (_image_size g))) else v_bounds in
  let h_bounds :=
    if fst (pos roi) - fst (size roi) <=? 0
    then (0%Z, snd h_bounds) else h_bounds in
  let v_bounds :=
    if snd (pos roi) - snd (size roi) <=? 0
    then (0%Z, snd v_bounds) else v_bounds in
  for_in (Camera.py_range (fst h_bounds) (snd h_bounds)) mask (fun mask h =>
    for_in (Camera.py_range (fst v_bounds) (snd v_bounds)) mask (fun mask v =>
      Camera.np_setitem mask v h 1%Q)).

(** [np.sum(mask * image) / (size_x * size_y)]: a numpy division, which
    raises nothing on a zero divisor. *)
Definition update_intensity : M CameraGUI unit :=
  g <- get ;;
  mask <- create_mask_ROI (_raw_data_image g) ;;
  let intensity_test :=
    of_fraction (Camera.np_sum_mul mask (_raw_data_image g))
    / (fst (size (roi_xy g)) * snd (size (roi_xy g))) in
  modify (with_mw (set_intensity (Some intensity_test))).

Definition update_from_roi_xy : M CameraGUI unit :=
  g <- get ;;
  let h_pos := fst (pos (roi_xy g)) + 0.5 * fst (size (roi_xy g)) in
  let v_pos := snd (pos (roi_xy g)) + 0.5 * snd (size (roi_xy g)) in
  update_input_x h_pos ;;;
  update_input_y v_pos ;;;
  update_intensity.

Definition sigUserRegionUpdate : list (M CameraGUI unit) := [update_from_roi_xy].
Definition sigMachineRegionUpdate : list (M CameraGUI unit) := [].

Definition regionUpdateInfo : M CameraGUI unit :=
  g <- get ;;
  if userDrag (roi_xy g) then emit sigUserRegionUpdate
  else emit sigMachineRegionUpdate.

Definition sigRegionChanged : list (M CameraGUI unit) :=
  [regionUpdateInfo; adjust with_hline hline_xy; adjust with_vline vline_xy].

(** Two positions that compare equal ([==] on both coordinates). *)
Definition same_point (p q : float * float) : bool :=
  (fst p =? fst q) && (snd p =? snd q).

(** [CrossROI.setPos(pos)], as in [Camera.setPos] *)
Definition setPos (p : float * float) : M CameraGUI unit :=
  g <- get ;;
  modify (with_roi (set_pos p)) ;;;
  if same_point p (pos (roi_xy g)) then ret tt else emit sigRegionChanged.

Definition update_roi_xy (h v : option float) : M CameraGUI unit :=
  g <- get ;;
  let roi_h_view := fst (pos (roi_xy g)) in
  let roi_v_view := snd (pos (roi_xy g)) in
  let roi_h_view :=
    match h with
    | Some h => h - fst (size (roi_xy g)) * 0.5
    | None => roi_h_view
    end in
  let roi_v_view :=
    match v with
    | Some v => v - snd (size (roi_xy g)) * 0.5
    | None => roi_v_view
    end in
  setPos (roi_h_view, roi_v_view) ;;;
  update_intensity.

Definition update_from_input_x : M CameraGUI unit :=
  g <- get ;;
  let x_pos := SpinBox.value (x_current_InputWidget_pixels (_mw g)) in
  update_roi_xy (Some x_pos) None ;;;
  modify (with_mw (set_x_meter (SpinBox.setValue (x_pos * _pixel_size_x g)))).

Definition update_from_input_x_meter : M CameraGUI unit :=
  g <- get ;;
  x_pos <- py_div (SpinBox.value (x_current_InputWidget_meter (_mw g)))
                  (_pixel_size_x g) ;;
  update_roi_xy (Some x_pos) None ;;;
  modify (with_mw (set_x_pixels (SpinBox.setValue x_pos))).

Definition update_from_input_y : M CameraGUI unit :=
  g <- get ;;
  let y_pos := SpinBox.value (y_current_InputWidget_pixels (_mw g)) in
  update_roi_xy None (Some y_pos) ;;;
  modify (with_mw (set_y_meter (SpinBox.setValue (y_pos * _pixel_size_y g)))).

Definition update_from_input_y_meter : M CameraGUI unit :=
  g <- get ;;
  let y_pos_meter := SpinBox.value (y_current_InputWidget_meter (_mw g)) in
  y_pos <- py_div y_pos_meter (_pixel_size_y g) ;;
  update_roi_xy None (Some y_pos) ;;;
  g' <- get ;;
  y_pos' <- py_div y_pos_meter (_pixel_size_y g') ;;
  modify (with_mw (set_y_pixels (SpinBox.setValue y_pos'))).

(** [createCrosshair], as in [Camera.createCrosshair] *)
Definition createCrosshair : M CameraGUI unit :=
  modify (with_roi (fun _ => mkCrossROI (5, 5) (1, 1) false)) ;;;
  g <- get ;;
  modify (with_hline (fun _ =>
    mkCrossLine 0 (snd (pos (roi_xy g)) + snd (size (roi_xy g)) * 0.5))) ;;;
  modify (with_vline (fun _ =>
    mkCrossLine 90 (fst (pos (roi_xy g)) + fst (size (roi_xy g)) * 0.5))) ;;;
  let width := of_int (Z.of_N (fst (_image_size g))) in
  let height := of_int (Z.of_N (snd (_image_size g))) in
  modify (with_mw (set_x_pixels (SpinBox.setRange 0 width))) ;;;
  modify (with_mw (set_y_pixels (SpinBox.setRange 0 height))) ;;;
  modify (with_mw (set_x_meter (SpinBox.setRange 0 (width * _pixel_size_x g)))) ;;;
  modify (with_mw (set_y_meter (SpinBox.setRange 0 (height * _pixel_size_y g)))) ;;;
  modify (with_mw (set_x_pixels (SpinBox.setValue (fst (pos (roi_xy g)))))) ;;;
  modify (with_mw (set_y_pixels (SpinBox.setValue (snd (pos (roi_xy g)))))) ;;;
  modify (with_mw (set_x_meter
                     (SpinBox.setValue (fst (pos (roi_xy g)) * _pixel_size_x g)))) ;;;
  modify (with_mw (set_y_meter
                     (SpinBox.setValue (snd (pos (roi_xy g)) * _pixel_size_y g)))) ;;;
  modify (with_mw (set_cursor_size (fst (size (roi_xy g))) (snd (size (roi_xy g))))).

(** *** Notions used to state the properties *)

(** The centre of the ROI: origin plus half the size, per axis. *)
Definition centre (r : CrossROI) : float * float :=
  (fst (pos r) + fst (size r) / 2, snd (pos r) + snd (size r) / 2).

(** Where [update_roi_xy] puts the origin. *)
Definition new_origin (r : CrossROI) (h v : option float) : float * float :=
  (match h with Some h => h - fst (size r) * 0.5 | None => fst (pos r) end,
   match v with Some v => v - snd (size r) * 0.5 | None => snd (pos r) end).

Definition range (b : SpinBox.t) : float * float :=
  (SpinBox.minimum b, SpinBox.maximum b).

(** The ranges of the four position boxes and the two pixel sizes. *)
Definition setup (g : CameraGUI)
  : (float * float) * (float * float) * ((float * float) * (float * float))
    * (float * float) :=
  (range (x_current_InputWidget_pixels (_mw g)),
   range (y_current_InputWidget_pixels (_mw g)),
   (range (x_current_InputWidget_meter (_mw g)),
    range (y_current_InputWidget_meter (_mw g))),
   (_pixel_size_x g, _pixel_size_y g)).

(** *** A concrete panel *)

Definition new_box : SpinBox.t := SpinBox.mk 0 0 99.99.

(** The panel of [Camera.blank_panel]: a dark 20 x 20 image, pixels of 0.5
    by 3 units; and the same after [createCrosshair]. *)
Definition blank_panel : CameraGUI :=
  mkCameraGUI (mkCameraWindow new_box new_box new_box new_box 0 0 None)
              0.5 3 (Camera.zeros 20 20) (20%N, 20%N)
              (mkCrossROI (0, 0) (0, 0) false) (mkCrossLine 0 0) (mkCrossLine 0 0).

Definition panel : CameraGUI := exec createCrosshair blank_panel.

(** That panel after the user has entered 0.1 in the vertical pixel box,
    and after the user has entered 1.2 in the horizontal meter box. *)
Definition panel_y_pixels_01 : CameraGUI :=
  with_mw (set_y_pixels (SpinBox.enter 0.1)) panel.

Definition panel_x_meter_12 : CameraGUI :=
  with_mw (set_x_meter (SpinBox.enter 1.2)) panel.

End Camera64.

(** * Facts about the statement monad *)

Section PyFacts.
Import Py.
Context {St : Type}.
Implicit Type I : St -> Prop.

Lemma stable_ret {A} I (a : A) : stable I (ret a).
Proof. intros s H. exact H. Qed.

Lemma stable_raise {A} I (e : exn) : stable I (@raise St A e).
Proof. intros s H. exact H. Qed.

Lemma stable_get I : stable I get.
Proof. intros s H. exact H. Qed.

Lemma stable_gets {A} I (f : St -> A) : stable I (gets f).
Proof. intros s H. exact H. Qed.

Lemma stable_modify I (f : St -> St) :
  (forall s, I s -> I (f s)) -> stable I (modify f).
Proof. intros Hf s H. apply Hf, H. Qed.

(** Whatever [c] leaves behind, a continuation that keeps [I] keeps it. *)
Lemma exec_bind {A B} I (c : M St A) (k : A -> M St B) (s : St) :
  I (exec c s) -> (forall a, stable I (k a)) -> I (exec (bind c k) s).
Proof.
  unfold exec, bind. intros Hc Hk.
  destruct (c s) as [s' [e | a]]; simpl in *.
  - exact Hc.
  - apply (Hk a s' Hc).
Qed.

Lemma stable_bind {A B} I (c : M St A) (k : A -> M St B) :
  stable I c -> (forall a, stable I (k a)) -> stable I (bind c k).
Proof. intros Hc Hk s H. apply exec_bind; auto. Qed.

Lemma stable_for_in {A B} I (l : list A) (acc : B) (body : B -> A -> M St B) :
  (forall acc x, stable I (body acc x)) -> stable I (for_in l acc body).
Proof.
  intros Hbody. revert acc.
  induction l as [| x l IH]; intros acc; simpl.
  - apply stable_ret.
  - apply stable_bind; [apply Hbody | intros acc'; apply IH].
Qed.

Lemma stable_slot I (c : M St unit) : stable I c -> stable I (slot c).
Proof. intros Hc s H. apply (Hc s H). Qed.

Lemma stable_emit I (slots : list (M St unit)) :
  Forall (stable I) slots -> stable I (emit slots).
Proof.
  induction 1 as [| c rest Hc _ IH]; simpl.
  - apply stable_ret.
  - apply stable_bind; [apply stable_slot, Hc | intros _; exact IH].
Qed.

Lemma exec_get_bind {B} (k : St -> M St B) (s : St) :
  exec (bind get k) s = exec (k s) s.
Proof. reflexivity. Qed.

Lemma exec_ret {A} (a : A) (s : St) : exec (ret a) s = s.
Proof. reflexivity. Qed.

Lemma bind_get {B} (k : St -> M St B) (s : St) : bind get k s = k s s.
Proof. reflexivity. Qed.

Lemma bind_ret {A B} (a : A) (k : A -> M St B) (s : St) : bind (ret a) k s = k a s.
Proof. reflexivity. Qed.

Lemma bind_modify {B} (f : St -> St) (k : unit -> M St B) (s : St) :
  bind (modify f) k s = k tt (f s).
Proof. reflexivity. Qed.

Lemma bind_returns {A B} (c : M St A) (k : A -> M St B) (s s' : St) (a : A) :
  c s = (s', inr a) -> bind c k s = k a s'.
Proof. intros H. unfold bind. rewrite H. reflexivity. Qed.

Lemma bind_raises {A B} (c : M St A) (k : A -> M St B) (s s' : St) (e : exn) :
  c s = (s', inl e) -> bind c k s = (s', inl e).
Proof. intros H. unfold bind. rewrite H. reflexivity. Qed.

(** A loop whose body, started with [acc], either raises or returns [acc],
    and leaves the state alone, does the same as a whole. *)
Lemma for_in_inert {A B} (body : B -> A -> M St B) (acc : B) (s : St) :
  (forall x, body acc x s = (s, inr acc) \/ exists e, body acc x s = (s, inl e)) ->
  forall l : list A,
    for_in l acc body s = (s, inr acc) \/ exists e, for_in l acc body s = (s, inl e).
Proof.
  intros Hbody l. induction l as [| x l IH]; [left; reflexivity |].
  cbn [for_in]. destruct (Hbody x) as [Hret | [e Hraise]].
  - rewrite (bind_returns _ _ _ _ _ Hret). exact IH.
  - right. exists e. apply (bind_raises _ _ _ _ _ Hraise).
Qed.

Lemma exec_modify_bind {B} (f : St -> St) (k : unit -> M St B) (s : St) :
  exec (bind (modify f) k) s = exec (k tt) (f s).
Proof. reflexivity. Qed.

(** A slot always returns to its caller. *)
Lemma exec_slot_bind {B} (c : M St unit) (k : unit -> M St B) (s : St) :
  exec (bind (slot c) k) s = exec (k tt) (exec c s).
Proof. reflexivity. Qed.

End PyFacts.

Create HintDb stable discriminated.

#[export] Hint Resolve stable_ret stable_raise stable_get stable_gets : stable.

(** Statements are taken apart along their structure; what is left are the
    state updates, which [side] has to justify. *)
Ltac stable_with side :=
  repeat first
    [ assumption
    | progress cbv zeta
    | match goal with
      | |- Py.stable _ (Py.ret _) => apply stable_ret
      | |- Py.stable _ (Py.raise _) => apply stable_raise
      | |- Py.stable _ Py.get => apply stable_get
      | |- Py.stable _ (Py.gets _) => apply stable_gets
      | |- Py.stable _ (Py.bind _ _) => apply stable_bind; [ | intros ? ]
      | |- Py.stable _ (Py.for_in _ _ _) => apply stable_for_in; intros ? ?
      | |- Py.stable _ (Py.slot _) => apply stable_slot
      | |- Py.stable _ (Py.emit _) =>
          apply stable_emit; repeat match goal with |- Forall _ _ => constructor end
      | |- Py.stable _ (Py.modify _) => apply stable_modify; solve [ side ]
      | |- Py.stable _ (if ?b then _ else _) => destruct b
      | |- Py.stable _ (match ?x with _ => _ end) => destruct x
      end
    | solve [ auto with stable ] ].

Ltac frame_side := intros; cbn in *; auto.

Ltac conj_split := repeat match goal with |- _ /\ _ => split end.

(** * Facts about the joystick logic *)

Section JoystickFacts.
Import Py Joystick.

Lemma stable_log (I : world -> Prop) (e : effect) :
  (forall w, I w ->
     I (mkWorld (self w) (hw_feed w) (hw_reads w) (next_signal w) (trace w ++ [e]))) ->
  stable I (log e).
Proof. intros H. apply stable_modify, H. Qed.

Lemma stable_new_signal (I : world -> Prop) :
  (forall w, I w ->
     I (mkWorld (self w) (hw_feed w) (hw_reads w) (S (next_signal w)) (trace w))) ->
  stable I new_signal.
Proof. intros H w Hw. apply H, Hw. Qed.

Lemma stable_hardware_get_state (I : world -> Prop) :
  (forall w, I w ->
     I (mkWorld (self w) (hw_feed w) (S (hw_reads w)) (next_signal w) (trace w))) ->
  stable I hardware_get_state.
Proof.
  intros H w Hw. unfold hardware_get_state, exec, bind, get.
  destruct (_hardware (self w)) as [[] |]; simpl; auto.
Qed.

Lemma stable_getitem {V} (I : world -> Prop) (d : gmap string V) (k : string) :
  stable I (getitem d k).
Proof. unfold getitem. destruct (d !! k); auto with stable. Qed.

Lemma stable_getitem_opt {V} (I : world -> Prop) (d : option (gmap string V))
      (k : string) :
  stable I (getitem_opt d k).
Proof. destruct d; simpl; [apply stable_getitem | apply stable_raise]. Qed.

End JoystickFacts.

#[export] Hint Resolve stable_getitem stable_getitem_opt : stable.

Section JoystickLoop.
Import Py Joystick.

Lemma stable_emit_event (I : world -> Prop) (control name : string) :
  (forall w s, I w -> I (after_effect (Emit s) w)) ->
  stable I (emit_event control name).
Proof.
  intros HI. unfold emit_event.
  stable_with idtac.
  apply stable_log. intros w' Hw. apply (HI w' _ Hw).
Qed.

(** [loop] changes the state only by reading the device, by emitting and by
    arming the timer. *)
Lemma stable_loop (I : world -> Prop) :
  (forall w, I w -> I (after_read w)) ->
  (forall w s, I w -> I (after_effect (Emit s) w)) ->
  (forall w, I w -> I (after_effect EmitControllerChanged w)) ->
  stable I timer_start ->
  stable I loop.
Proof.
  intros Hread Hemit Hchanged Htimer. unfold loop.
  pose proof (stable_hardware_get_state I Hread) as Hget.
  pose proof (fun c n => stable_emit_event I c n Hemit) as Hev.
  pose proof (stable_log I EmitControllerChanged Hchanged) as Hlog.
  stable_with idtac.
Qed.

Lemma stable_timer_start_frame (I : world -> Prop) :
  (forall w t, I w -> I (with_self (set_timer t) w)) ->
  (forall w e, I w -> I (after_effect e w)) ->
  stable I timer_start.
Proof.
  intros Ht He. unfold timer_start.
  stable_with ltac:(intros; apply Ht; assumption).
  apply stable_log. intros w' Hw'. apply He, Hw'.
Qed.

Lemma loop_keeps_last_state (x : option snapshot) :
  stable (fun w => _last_state (self w) = x) loop.
Proof.
  apply stable_loop; try (intros; assumption).
  apply stable_timer_start_frame; intros; assumption.
Qed.

End JoystickLoop.

Section JoystickClaims.
Import Py Joystick.

(** With [events] bound to a dict, activation does go through: every
    control gets its entry, the first reading is stored and the loop is
    started. *)
Lemma on_activate_with_events_dict :
  outcome on_activate (boot (set_events (Some ∅) fresh) press_after_first) = inr tt /\
  Forall (fun b => entry_names activated b = Some {["pressed"; "value_change"]})
         _button_list /\
  Forall (fun a => entry_names activated a = Some {["value_change"]}) _axis_list /\
  _last_state (self activated) = Some released /\
  enabled (self activated) = true /\
  trace activated = [TimerStart (1000 * 1 / 100)%Q].
Proof.
  conj_split.
  - vm_compute; reflexivity.
  - repeat constructor; vm_compute; reflexivity.
  - repeat constructor; vm_compute; reflexivity.
  - reflexivity.
  - vm_compute; reflexivity.
  - vm_compute; reflexivity.
Qed.

(** Without a dict in [events] the first item assignment fails, whatever
    else the instance holds. *)
Lemma on_activate_needs_events_dict (w : world) :
  events (self w) = None -> outcome on_activate w = inl TypeError.
Proof.
  intros H. unfold outcome, on_activate, _button_list.
  rewrite !bind_modify. cbn [for_in].
  unfold new_signal at 1 2, events_setitem at 1, bind at 1 2 3 4 5 6, get.
  cbn. rewrite H. reflexivity.
Qed.

(** C10: [on_activate] on a new instance does not complete.  The class
    binds [events] to [None], so the first [self.events[button] = ...]
    raises [TypeError]; no entry is made, no reading is stored and the loop
    is not started. *)
Theorem on_activate_raises_TypeError :
  forall feed : nat -> snapshot,
    outcome on_activate (boot fresh feed) = inl TypeError /\
    events (self (exec on_activate (boot fresh feed))) = None /\
    _last_state (self (exec on_activate (boot fresh feed))) = None /\
    enabled (self (exec on_activate (boot fresh feed))) = false /\
    trace (exec on_activate (boot fresh feed)) = [].
Proof. intros feed. conj_split; reflexivity. Qed.

Lemma getitem_cases {V} (d : gmap string V) (k : string) (w : world) :
  (exists v, @getitem world V d k w = (w, inr v)) \/
  (exists e, @getitem world V d k w = (w, inl e)).
Proof. unfold getitem. destruct (d !! k); [left | right]; eexists; reflexivity. Qed.

Lemma getitem_opt_cases {V} (d : option (gmap string V)) (k : string) (w : world) :
  (exists v, @getitem_opt world V d k w = (w, inr v)) \/
  (exists e, @getitem_opt world V d k w = (w, inl e)).
Proof.
  destruct d as [d |]; [apply getitem_cases |].
  right. eexists. reflexivity.
Qed.

Lemma hardware_get_state_cases (w : world) :
  (exists e, hardware_get_state w = (w, inl e)) \/
  hardware_get_state w = (after_read w, inr (hw_feed w (hw_reads w))).
Proof.
  unfold hardware_get_state. rewrite bind_get.
  destruct (_hardware (self w)) as [[] |]; [right | left; eexists]; reflexivity.
Qed.

Lemma emit_event_raises (control name : string) (w : world) :
  _events (self w) = None ->
  emit_event control name w = (w, inl (AttributeError "_events")).
Proof. intros H. unfold emit_event. rewrite bind_get, H. reflexivity. Qed.

(** On an instance without [_events], and the class makes no other, an
    iteration of [loop] emits nothing for any pair of snapshots: all it can
    leave in the trace is one arming of the timer. *)
Lemma loop_without_events_attribute (w : world) :
  _events (self w) = None ->
  trace (exec loop w) = trace w \/
  trace (exec loop w) = trace w ++ [TimerStart (1000 * 1 / _fps (self w))%Q].
Proof.
  intros Hev. unfold exec, loop. rewrite bind_get.
  destruct (hardware_get_state_cases w) as [[e Hw] | Hw];
    [rewrite (bind_raises _ _ _ _ _ Hw); left; reflexivity |].
  rewrite (bind_returns _ _ _ _ _ Hw).
  destruct (enabled (self w)); cbn [negb]; [| left; reflexivity].
  set (state := hw_feed w (hw_reads w)).
  set (old_state := _last_state (self w)).
  match goal with
  | |- context [bind (for_in _button_list false ?body) ?k (after_read w)] =>
      destruct (for_in_inert body false (after_read w)) with (l := _button_list)
        as [Hb | [e Hb]]
  end.
  { intros button.
    destruct (getitem_cases state button (after_read w)) as [[new Hn] | [e Hn]];
      [rewrite (bind_returns _ _ _ _ _ Hn) | right; exists e; apply (bind_raises _ _ _ _ _ Hn)].
    destruct (getitem_opt_cases old_state button (after_read w)) as [[old Ho] | [e Ho]];
      [rewrite (bind_returns _ _ _ _ _ Ho) | right; exists e; apply (bind_raises _ _ _ _ _ Ho)].
    destruct (py_ne new old); [| left; reflexivity].
    right. eexists. apply bind_raises, emit_event_raises, Hev. }
  2: { rewrite (bind_raises _ _ _ _ _ Hb). left. reflexivity. }
  rewrite (bind_returns _ _ _ _ _ Hb).
  match goal with
  | |- context [bind (for_in _axis_list false ?body) ?k (after_read w)] =>
      destruct (for_in_inert body false (after_read w)) with (l := _axis_list)
        as [Ha | [e Ha]]
  end.
  { intros axis.
    destruct (getitem_cases state axis (after_read w)) as [[new Hn] | [e Hn]];
      [rewrite (bind_returns _ _ _ _ _ Hn) | right; exists e; apply (bind_raises _ _ _ _ _ Hn)].
    destruct (getitem_opt_cases old_state axis (after_read w)) as [[old Ho] | [e Ho]];
      [rewrite (bind_returns _ _ _ _ _ Ho) | right; exists e; apply (bind_raises _ _ _ _ _ Ho)].
    destruct (py_ne new old); [| left; reflexivity].
    right. eexists. apply bind_raises, emit_event_raises, Hev. }
  2: { rewrite (bind_raises _ _ _ _ _ Ha). left. reflexivity. }
  rewrite (bind_returns _ _ _ _ _ Ha). rewrite bind_ret.
  unfold timer_start. rewrite bind_get.
  change (timer (self (after_read w))) with (timer (self w)).
  change (_fps (self (after_read w))) with (_fps (self w)).
  destruct (timer (self w)); [| left; reflexivity].
  destruct (Qeq_bool (_fps (self w)) 0); [left; reflexivity |].
  right. reflexivity.
Qed.

(** C1: on the activated instance the stored state has [left_up] released
    and the next reading has it held.  The iteration of [loop] finds the
    difference, reads [self._events], which no code binds, and ends in
    [AttributeError]: neither [value_change] nor [pressed] nor
    [sig_controller_changed] is emitted, and the timer is not armed again. *)
Theorem loop_raises_on_first_change :
  _last_state (self activated) = Some released /\
  hw_feed activated (hw_reads activated) = left_up_pressed /\
  enabled (self activated) = true /\
  (exists new old, left_up_pressed !! "left_up" = Some new /\
                   released !! "left_up" = Some old /\ py_ne new old = true) /\
  outcome loop activated = inl (AttributeError "_events") /\
  trace (exec loop activated) = trace activated /\
  timer (self (exec loop activated)) = timer (self activated).
Proof.
  conj_split.
  - reflexivity.
  - reflexivity.
  - vm_compute; reflexivity.
  - exists (PyBool true), (PyBool false). conj_split; vm_compute; reflexivity.
  - vm_compute; reflexivity.
  - vm_compute; reflexivity.
  - vm_compute; reflexivity.
Qed.

Lemma released_not_pressed : released <> left_up_pressed.
Proof.
  intros H. apply (f_equal (fun m : snapshot => m !! "left_up")) in H.
  vm_compute in H. discriminate H.
Qed.

(** C2: [loop] has no assignment to [_last_state]: whatever the iteration
    does, [get_last_state] returns afterwards what it returned before.  On
    the activated instance the iteration reads [left_up] held and the stored
    state is still the reading taken at activation. *)
Theorem loop_never_stores_reading :
  (forall w, outcome get_last_state (exec loop w) = outcome get_last_state w) /\
  hw_feed activated (hw_reads activated) = left_up_pressed /\
  outcome get_last_state (exec loop activated) = inr (Some released) /\
  released <> left_up_pressed.
Proof.
  conj_split.
  - intros w. unfold outcome, get_last_state, gets. simpl.
    rewrite (loop_keeps_last_state (_last_state (self w)) w eq_refl).
    reflexivity.
  - reflexivity.
  - reflexivity.
  - exact released_not_pressed.
Qed.

End JoystickClaims.

Section JoystickTimer.
Import Py Joystick.

Lemma polls_at_effect F T0 e w :
  arms_with F e -> polls_at F T0 w -> polls_at F T0 (after_effect e w).
Proof.
  intros He [HF (new & Ht & Hnew)]. split; [exact HF |].
  exists (new ++ [e]). split.
  - cbn. rewrite Ht. symmetry. apply app_assoc.
  - apply Forall_app. split; [exact Hnew | repeat constructor; exact He].
Qed.

Lemma polls_at_with_self F T0 (f : JoystickLogic -> JoystickLogic) w :
  (forall o, _fps (f o) = _fps o) ->
  polls_at F T0 w -> polls_at F T0 (with_self f w).
Proof. intros Hf [HF Hnew]. split; [cbn; rewrite Hf; exact HF | exact Hnew]. Qed.

Lemma stable_timer_start F T0 : stable (polls_at F T0) timer_start.
Proof.
  intros w Hw. unfold timer_start, exec, bind, get. simpl.
  destruct (timer (self w)) as [t |]; simpl; [| exact Hw].
  destruct (Qeq_bool (_fps (self w)) 0); simpl; [exact Hw |].
  apply (polls_at_effect F T0 (TimerStart (1000 * 1 / _fps (self w)))
           (with_self (set_timer _) w)).
  - simpl. destruct Hw as [HF _]. rewrite HF. reflexivity.
  - apply polls_at_with_self; [reflexivity | exact Hw].
Qed.

Lemma stable_timer_stop F T0 : stable (polls_at F T0) timer_stop.
Proof.
  unfold timer_stop.
  stable_with ltac:(intros; apply polls_at_with_self; [reflexivity | assumption]).
  apply stable_log. intros w Hw. apply (polls_at_effect F T0 TimerStop w I Hw).
Qed.

Lemma stable_start_loop F T0 : stable (polls_at F T0) start_loop.
Proof.
  unfold start_loop. pose proof (stable_timer_start F T0).
  stable_with ltac:(intros; apply polls_at_with_self; [reflexivity | assumption]).
Qed.

Lemma stable_stop_loop F T0 : stable (polls_at F T0) stop_loop.
Proof.
  unfold stop_loop. pose proof (stable_timer_stop F T0).
  stable_with ltac:(intros; apply polls_at_with_self; [reflexivity | assumption]).
Qed.

Lemma stable_loop_polls F T0 : stable (polls_at F T0) loop.
Proof.
  apply stable_loop.
  - intros w Hw. exact Hw.
  - intros w s Hw. apply (polls_at_effect F T0 (Emit s) w I Hw).
  - intros w Hw. apply (polls_at_effect F T0 EmitControllerChanged w I Hw).
  - apply stable_timer_start.
Qed.

Lemma stable_run_call F T0 (c : call) : stable (polls_at F T0) (run_call c).
Proof.
  destruct c; simpl; apply stable_slot.
  - apply stable_start_loop.
  - apply stable_stop_loop.
  - apply stable_loop_polls.
  - unfold fps. stable_with idtac.
Qed.

Lemma stable_run_calls F T0 (cs : list call) : stable (polls_at F T0) (run_calls cs).
Proof.
  induction cs as [| c cs IH]; simpl.
  - apply stable_ret.
  - apply stable_bind; [apply stable_run_call | intros _; exact IH].
Qed.

(** However [start_loop], [stop_loop], [loop] and reads of the rate
    follow one another, the rate stays what it was and every arming of the
    timer that happens, in [start_loop] or at the end of [loop], uses one
    and the same period, [1000*1/_fps], which is [1000/_fps]. *)
Lemma poll_period_constant :
  forall (w : world) (calls : list call),
    exists (period : Q) (new : list effect),
      (period == 1000 / _fps (self w))%Q /\
      _fps (self (exec (run_calls calls) w)) = _fps (self w) /\
      trace (exec (run_calls calls) w) = trace w ++ new /\
      Forall (fun e => match e with
                       | TimerStart msec => msec = period
                       | _ => True
                       end) new.
Proof.
  intros w calls.
  destruct (stable_run_calls (_fps (self w)) (trace w) calls w)
    as [HF (new & Ht & Hnew)].
  { split; [reflexivity |]. exists []. split; [symmetry; apply app_nil_r | constructor]. }
  exists (1000 * 1 / _fps (self w))%Q, new. conj_split.
  - unfold Qdiv. rewrite Qmult_1_r. reflexivity.
  - exact HF.
  - exact Ht.
  - exact Hnew.
Qed.

(** The timer is indeed armed on such a run: started and polled twice on a
    device that nobody touches, the instance arms it three times. *)
Lemma poll_period_constant_example :
  trace (exec (run_calls [CallStartLoop; CallLoop; CallLoop])
              (exec on_activate (boot (set_events (Some ∅) fresh) (fun _ => released))))
  = [TimerStart (1000 * 1 / 100)%Q; TimerStart (1000 * 1 / 100)%Q;
     TimerStart (1000 * 1 / 100)%Q; TimerStart (1000 * 1 / 100)%Q].
Proof. vm_compute. reflexivity. Qed.

(** C7: with the timer created and a rate other than zero, [start_loop]
    sets [enabled] and arms the timer, and [stop_loop] stops the timer and
    clears [enabled]; and on any instance whose [enabled] is [False] a call
    of [loop] emits nothing, leaves the timer as it was and leaves
    [enabled] cleared. *)
Theorem enabled_flag_gates_loop :
  forall (w w' : world) (t : QTimer),
    timer (self w) = Some t ->
    ~ (_fps (self w) == 0)%Q ->
    enabled (self w') = false ->
    (outcome start_loop w = inr tt /\
     enabled (self (exec start_loop w)) = true /\
     timer (self (exec start_loop w)) =
       Some (mkQTimer (singleShot t) (timeout_to_loop t)
                      (Some (1000 * 1 / _fps (self w))%Q)) /\
     trace (exec start_loop w) = trace w ++ [TimerStart (1000 * 1 / _fps (self w))%Q]) /\
    (outcome stop_loop w = inr tt /\
     enabled (self (exec stop_loop w)) = false /\
     timer (self (exec stop_loop w)) =
       Some (mkQTimer (singleShot t) (timeout_to_loop t) None) /\
     trace (exec stop_loop w) = trace w ++ [TimerStop]) /\
    (trace (exec loop w') = trace w' /\
     timer (self (exec loop w')) = timer (self w') /\
     enabled (self (exec loop w')) = false).
Proof.
  intros w w' t Ht Hfps Hoff.
  assert (Hz : Qeq_bool (_fps (self w)) 0 = false).
  { destruct (Qeq_bool (_fps (self w)) 0) eqn:E; [| reflexivity].
    apply Qeq_bool_iff in E. contradiction. }
  conj_split.
  - unfold outcome, start_loop, timer_start, bind, modify, get. cbn.
    rewrite Ht, Hz. reflexivity.
  - unfold exec, start_loop, timer_start, bind, modify, get. cbn.
    rewrite Ht, Hz. reflexivity.
  - unfold exec, start_loop, timer_start, bind, modify, get. cbn.
    rewrite Ht, Hz. reflexivity.
  - unfold exec, start_loop, timer_start, bind, modify, get. cbn.
    rewrite Ht, Hz. reflexivity.
  - unfold outcome, stop_loop, timer_stop, bind, modify, get. cbn.
    rewrite Ht. reflexivity.
  - unfold exec, stop_loop, timer_stop, bind, modify, get. cbn.
    rewrite Ht. reflexivity.
  - unfold exec, stop_loop, timer_stop, bind, modify, get. cbn.
    rewrite Ht. reflexivity.
  - unfold exec, stop_loop, timer_stop, bind, modify, get. cbn.
    rewrite Ht. reflexivity.
  - unfold exec, loop, hardware_get_state, bind, get. cbn.
    destruct (_hardware (self w')) as [[] |]; cbn; [rewrite Hoff |]; reflexivity.
  - unfold exec, loop, hardware_get_state, bind, get. cbn.
    destruct (_hardware (self w')) as [[] |]; cbn; [rewrite Hoff |]; reflexivity.
  - unfold exec, loop, hardware_get_state, bind, get. cbn.
    destruct (_hardware (self w')) as [[] |]; cbn; [rewrite Hoff; cbn |]; exact Hoff.
Qed.

Lemma enabled_flag_gates_loop_witness :
  (enabled (self (exec start_loop idle)) = true /\
   trace (exec start_loop idle) = trace idle ++ [TimerStart (1000 * 1 / _fps (self idle))%Q]) /\
  (enabled (self (exec stop_loop idle)) = false /\
   trace (exec stop_loop idle) = trace idle ++ [TimerStop]) /\
  trace (exec loop idle) = trace idle.
Proof.
  destruct (enabled_flag_gates_loop idle idle (mkQTimer true true None))
    as ((_ & Hon & _ & Harm) & (_ & Hoff & _ & Hstop) & (Hquiet & _)).
  - reflexivity.
  - vm_compute. discriminate.
  - reflexivity.
  - exact (conj (conj Hon Harm) (conj (conj Hoff Hstop) Hquiet)).
Defined.

End JoystickTimer.

(** * Facts about the camera panel *)

Section CameraFrame.
Import Py Camera.



Lemma same_point_refl (p : Q * Q) : same_point p p = true.
Proof.
  unfold same_point, same_number.
  rewrite !Z.eqb_refl, !Pos.eqb_refl. reflexivity.
Qed.

Lemma stable_np_setitem {St} (I : St -> Prop) (a : image) (v h : Z) (x : Q) :
  stable I (np_setitem a v h x).
Proof. unfold np_setitem. stable_with idtac. Qed.

Lemma stable_py_div {St} (I : St -> Prop) (a b : Q) : stable I (py_div a b).
Proof. unfold py_div. stable_with idtac. Qed.

Lemma stable_create_mask_ROI (I : CameraGUI -> Prop) (img : image) :
  stable I (create_mask_ROI img).
Proof.
  unfold create_mask_ROI.
  pose proof (@stable_np_setitem CameraGUI I) as Hset.
  stable_with idtac.
Qed.

Section Widgets.
Variable I : CameraGUI -> Prop.
Hypothesis Hmw : ignores_widgets I.

Let side : forall f g, I g -> I (with_mw f g) := fun f g H => Hmw g f H.

Lemma stable_update_intensity : stable I update_intensity.
Proof.
  unfold update_intensity. pose proof (stable_create_mask_ROI I) as Hmask.
  stable_with ltac:(apply side).
Qed.

Lemma stable_update_input_x (x : Q) : stable I (update_input_x x).
Proof. unfold update_input_x. stable_with ltac:(apply side). Qed.

Lemma stable_update_input_y (y : Q) : stable I (update_input_y y).
Proof. unfold update_input_y. stable_with ltac:(apply side). Qed.

Lemma stable_update_from_roi_xy : stable I update_from_roi_xy.
Proof.
  unfold update_from_roi_xy.
  pose proof stable_update_intensity. pose proof stable_update_input_x.
  pose proof stable_update_input_y.
  stable_with ltac:(apply side).
Qed.

Lemma stable_regionUpdateInfo : stable I regionUpdateInfo.
Proof.
  unfold regionUpdateInfo. pose proof stable_update_from_roi_xy.
  stable_with ltac:(apply side).
Qed.

Hypothesis Hlines : ignores_lines I.

Lemma stable_adjust_hline : stable I (adjust with_hline hline_xy).
Proof. unfold adjust. stable_with ltac:(intros; apply Hlines; assumption). Qed.

Lemma stable_adjust_vline : stable I (adjust with_vline vline_xy).
Proof. unfold adjust. stable_with ltac:(intros; apply Hlines; assumption). Qed.

Lemma stable_sigRegionChanged : stable I (emit sigRegionChanged).
Proof.
  pose proof stable_regionUpdateInfo. pose proof stable_adjust_hline.
  pose proof stable_adjust_vline.
  stable_with idtac.
Qed.

Hypothesis Hpos : ignores_position I.

Lemma stable_setPos (p : Q * Q) : stable I (setPos p).
Proof.
  unfold setPos. pose proof stable_sigRegionChanged.
  stable_with ltac:(intros; apply Hpos; [exact true | assumption]).
Qed.

Lemma stable_update_roi_xy (h v : option Q) : stable I (update_roi_xy h v).
Proof.
  unfold update_roi_xy. pose proof stable_setPos. pose proof stable_update_intensity.
  stable_with idtac.
Qed.

Lemma stable_roi_xy_bounds_check : stable I roi_xy_bounds_check.
Proof.
  unfold roi_xy_bounds_check. pose proof stable_update_roi_xy.
  stable_with idtac.
Qed.

Lemma stable_sigRegionChangeFinished : stable I (emit sigRegionChangeFinished).
Proof.
  pose proof stable_roi_xy_bounds_check.
  assert (stable I stopUserDrag).
  { unfold stopUserDrag. apply stable_modify. intros g Hg. apply Hpos; [exact (pos (roi_xy g)) | exact Hg]. }
  stable_with idtac.
Qed.

End Widgets.

End CameraFrame.

Section CameraROI.
Import Py Camera.
Local Open Scope Q_scope.

Lemma roi_is_frame (R : CrossROI) :
  ignores_widgets (fun g => roi_xy g = R) /\ ignores_lines (fun g => roi_xy g = R).
Proof. split; [intros g f H | intros g f H; split]; exact H. Qed.

Lemma roi_after_setPos (p : Q * Q) (g : CameraGUI) :
  roi_xy (exec (setPos p) g) = set_pos p (roi_xy g).
Proof.
  unfold setPos. rewrite exec_get_bind, exec_modify_bind.
  destruct (same_point p (pos (roi_xy g))); [reflexivity |].
  destruct (roi_is_frame (set_pos p (roi_xy g))) as [Hw Hl].
  apply (stable_sigRegionChanged _ Hw Hl). reflexivity.
Qed.

Lemma roi_after_update_roi_xy (h v : option Q) (g : CameraGUI) :
  roi_xy (exec (update_roi_xy h v) g) = set_pos (new_origin (roi_xy g) h v) (roi_xy g).
Proof.
  change (exec (update_roi_xy h v) g)
    with (exec (setPos (new_origin (roi_xy g) h v) ;;; update_intensity) g).
  apply (exec_bind (fun s => roi_xy s = set_pos (new_origin (roi_xy g) h v) (roi_xy g))).
  - apply roi_after_setPos.
  - intros _. apply stable_update_intensity. apply roi_is_frame.
Qed.

(** In exact arithmetic [update_roi_xy(h, v)] keeps the size of the ROI;
    on an axis whose argument is given the centre of the ROI (origin plus
    half the size) becomes that argument, and on an axis whose argument is
    [None] the origin coordinate stays what it was. *)
Lemma update_roi_xy_centres_exactly :
  forall (g : CameraGUI) (h v : option Q),
    let r := roi_xy g in
    let r' := roi_xy (exec (update_roi_xy h v) g) in
    size r' = size r /\
    match h with
    | Some c => fst (centre r') == c
    | None => fst (pos r') = fst (pos r)
    end /\
    match v with
    | Some c => snd (centre r') == c
    | None => snd (pos r') = snd (pos r)
    end.
Proof.
  intros g h v r r'. subst r r'. rewrite roi_after_update_roi_xy.
  conj_split.
  - reflexivity.
  - destruct h as [c |]; cbn; [field | reflexivity].
  - destruct v as [c |]; cbn; [field | reflexivity].
Qed.

Lemma clamp_proper (lo hi x y : Q) : x == y -> clamp lo hi x == clamp lo hi y.
Proof.
  intros E. unfold clamp.
  destruct (Qlt_le_dec x lo), (Qlt_le_dec y lo); try reflexivity; try lra.
  destruct (Qlt_le_dec hi x), (Qlt_le_dec hi y); try reflexivity; lra.
Qed.



Lemma Qlt_bool_true (a b : Q) : Qlt_bool a b = true <-> a < b.
Proof.
  unfold Qlt_bool. rewrite negb_true_iff. split.
  - intros H. apply Qnot_le_lt. intros Hle. apply Qle_bool_iff in Hle. congruence.
  - intros H. destruct (Qle_bool b a) eqn:E; [| reflexivity].
    apply Qle_bool_iff in E. lra.
Qed.

Lemma Qlt_bool_false (a b : Q) : Qlt_bool a b = false <-> b <= a.
Proof.
  unfold Qlt_bool. rewrite negb_false_iff. apply Qle_bool_iff.
Qed.

(** The two tests of [roi_xy_bounds_check] on one axis amount to clamping. *)
Lemma bounds_check_axis (c top : Q) :
  (if Qlt_bool c 0 then 0 else if Qgt_bool c top then top else c) = clamp 0 top c.
Proof.
  unfold clamp, Qgt_bool. fold (Qlt_bool top c).
  destruct (Qlt_bool c 0) eqn:E0.
  - apply Qlt_bool_true in E0. destruct (Qlt_le_dec c 0); [reflexivity | lra].
  - apply Qlt_bool_false in E0. destruct (Qlt_le_dec c 0); [lra |].
    destruct (Qlt_bool top c) eqn:E1.
    + apply Qlt_bool_true in E1. destruct (Qlt_le_dec top c); [reflexivity | lra].
    + apply Qlt_bool_false in E1. destruct (Qlt_le_dec top c); [lra | reflexivity].
Qed.

Lemma roi_after_bounds_check (g : CameraGUI) :
  let r := roi_xy g in
  roi_xy (exec roi_xy_bounds_check g) =
  set_pos (clamp 0 (image_width g) (fst (pos r) + (1#2) * fst (size r))
             - fst (size r) * (1#2),
           clamp 0 (image_height g) (snd (pos r) + (1#2) * snd (size r))
             - snd (size r) * (1#2)) r.
Proof.
  intros r. subst r.
  unfold roi_xy_bounds_check. rewrite exec_get_bind. cbv zeta.
  rewrite roi_after_update_roi_xy, !bounds_check_axis. reflexivity.
Qed.

Lemma bounds_check_centre (g : CameraGUI) :
  let r := roi_xy g in
  let r' := roi_xy (exec roi_xy_bounds_check g) in
  size r' = size r /\
  fst (centre r') == clamp 0 (image_width g) (fst (centre r)) /\
  snd (centre r') == clamp 0 (image_height g) (snd (centre r)).
Proof.
  intros r r'. subst r r'. rewrite roi_after_bounds_check. cbv zeta.
  conj_split.
  - reflexivity.
  - cbn [centre set_pos pos size fst snd].
    rewrite (clamp_proper 0 (image_width g) _
               (fst (pos (roi_xy g)) + fst (size (roi_xy g)) / 2)) by field.
    field.
  - cbn [centre set_pos pos size fst snd].
    rewrite (clamp_proper 0 (image_height g) _
               (snd (pos (roi_xy g)) + snd (size (roi_xy g)) / 2)) by field.
    field.
Qed.


(** When a drag finishes, [stopUserDrag] runs first and then
    [roi_xy_bounds_check]: the ROI ends up where the check puts it. *)
Lemma drag_finish_clamps_centre (g : CameraGUI) :
  let r' := roi_xy (exec (handle DragFinish) g) in
  size r' = size (roi_xy g) /\
  fst (centre r') == clamp 0 (image_width g) (fst (centre (roi_xy g))) /\
  snd (centre r') == clamp 0 (image_height g) (snd (centre (roi_xy g))).
Proof.
  intros r'. subst r'.
  unfold handle, sigRegionChangeFinished. cbn [emit].
  rewrite !exec_slot_bind, exec_ret.
  change (exec stopUserDrag g) with (with_roi (set_userDrag false) g).
  exact (bounds_check_centre (with_roi (set_userDrag false) g)).
Qed.

End CameraROI.

Section CameraCrosshair.
Import Py Camera.
Local Open Scope Q_scope.














End CameraCrosshair.

(** * Statements that return *)

Section PyReturns.
Import Py.
Context {St : Type}.

Lemma run_pair {A} (c : M St A) (s : St) : c s = (exec c s, outcome c s).
Proof. unfold exec, outcome. destruct (c s); reflexivity. Qed.

Lemma outcome_emit (slots : list (M St unit)) (s : St) :
  outcome (emit slots) s = inr tt.
Proof.
  revert s. induction slots as [| c rest IH]; intros s; [reflexivity |].
  cbn [emit]. unfold outcome, bind, slot. cbn. apply IH.
Qed.

(** A loop returns, without touching the state, if its body does so on
    every element; [P] is what is known of the loop variables. *)
Lemma for_in_returns {A B} (P : B -> Prop) (Q : A -> Prop)
      (body : B -> A -> M St B) (s : St) :
  (forall acc x, P acc -> Q x -> exists acc', body acc x s = (s, inr acc') /\ P acc') ->
  forall (l : list A) (acc : B),
    Forall Q l -> P acc ->
    exists acc', for_in l acc body s = (s, inr acc') /\ P acc'.
Proof.
  intros Hbody l. induction l as [| x l IH]; intros acc Hl Hacc.
  - exists acc. split; [reflexivity | exact Hacc].
  - inversion Hl as [| ? ? Hx Hl']; subst.
    destruct (Hbody acc x Hacc Hx) as (acc1 & Hrun & Hacc1).
    destruct (IH acc1 Hl' Hacc1) as (acc2 & Hrest & Hacc2).
    exists acc2. split; [| exact Hacc2].
    cbn [for_in]. rewrite (bind_returns _ _ _ _ _ Hrun). exact Hrest.
Qed.

Lemma exec_slot (c : M St unit) (s : St) : exec (slot c) s = exec c s.
Proof. reflexivity. Qed.

Lemma exec_bind_returns {A B} (c : M St A) (k : A -> M St B) (s : St) (a : A) :
  outcome c s = inr a -> exec (bind c k) s = exec (k a) (exec c s).
Proof.
  intros H. unfold exec, bind. rewrite (run_pair c s), H. reflexivity.
Qed.

Lemma outcome_bind_returns {A B} (c : M St A) (k : A -> M St B) (s : St) (a : A) :
  outcome c s = inr a -> outcome (bind c k) s = outcome (k a) (exec c s).
Proof.
  intros H. unfold outcome, bind. rewrite (run_pair c s), H. reflexivity.
Qed.

(** A sequence returns only if its first statement does. *)
Lemma outcome_bind_inr {A B} (c : M St A) (k : A -> M St B) (s : St) (b : B) :
  outcome (bind c k) s = inr b ->
  exists a, c s = (exec c s, inr a) /\ outcome (k a) (exec c s) = inr b.
Proof.
  unfold outcome, exec, bind. destruct (c s) as [s' [e | a]]; cbn.
  - discriminate.
  - intros H. exists a. split; [reflexivity | exact H].
Qed.

Lemma returns_run {A} (c : M St A) (s : St) (a : A) :
  outcome c s = inr a -> c s = (exec c s, inr a).
Proof. intros H. rewrite (run_pair c s), H. reflexivity. Qed.

End PyReturns.

Section CameraMask.
Import Py Camera.
Local Open Scope Q_scope.

Lemma py_range_bounds (a b : Z) :
  Forall (fun i => (a <= i < b)%Z) (py_range a b).
Proof.
  unfold py_range. apply Forall_map. apply Forall_forall.
  intros k Hk. apply list_elem_of_In, in_seq in Hk. cbn. lia.
Qed.

Lemma np_index_inside (n : nat) (i : Z) :
  (0 <= i < Z.of_nat n)%Z -> np_index n i = Some (Z.to_nat i).
Proof.
  intros [Hlo Hhi]. unfold np_index.
  apply Z.leb_le in Hlo. apply Z.ltb_lt in Hhi. rewrite Hlo, Hhi. reflexivity.
Qed.

Lemma np_setitem_returns {St} (rows cols : nat) (a : image) (v h : Z) (x : Q) (s : St) :
  has_shape rows cols a ->
  (0 <= v < Z.of_nat rows)%Z -> (0 <= h < Z.of_nat cols)%Z ->
  exists a', np_setitem a v h x s = (s, inr a') /\ has_shape rows cols a'.
Proof.
  intros [Hrows Hcols] Hv Hh. unfold np_setitem.
  rewrite Hrows, (np_index_inside rows v Hv).
  destruct (a !! Z.to_nat v) as [row |] eqn:Erow.
  - assert (Hrow : length row = cols).
    { rewrite Forall_forall in Hcols. apply Hcols.
      apply list_elem_of_lookup. exists (Z.to_nat v). exact Erow. }
    rewrite Hrow, (np_index_inside cols h Hh).
    eexists. split; [reflexivity |]. split.
    + rewrite length_insert. exact Hrows.
    + apply Forall_insert; [exact Hcols |]. rewrite length_insert. exact Hrow.
  - apply lookup_ge_None in Erow. lia.
Qed.

Lemma py_int_nonneg (x : Q) : 0 <= x -> (0 <= py_int x)%Z.
Proof.
  unfold Qle, py_int. cbn. intros H. apply Z.quot_pos; lia.
Qed.

Lemma py_int_nonpos (x : Q) : x <= 0 -> (py_int x <= 0)%Z.
Proof.
  unfold Qle, py_int. cbn. intros H.
  assert (E : Qnum x = (- (- Qnum x))%Z) by lia.
  rewrite E, Z.quot_opp_l by lia.
  assert (0 <= (- Qnum x) ÷ Z.pos (Qden x))%Z by (apply Z.quot_pos; lia).
  lia.
Qed.

Lemma py_int_below (x : Q) (n : Z) : 0 <= x -> x < inject_Z n -> (py_int x < n)%Z.
Proof.
  unfold Qle, Qlt, py_int. cbn. intros H0 Hn.
  apply Z.quot_lt_upper_bound; lia.
Qed.

Lemma Qle_bool_false (a b : Q) : Qle_bool a b = false -> b < a.
Proof.
  intros H. apply Qnot_le_lt. intros Hle. apply Qle_bool_iff in Hle. congruence.
Qed.

(** With a size that is not negative and at least one pixel, the index
    range of an axis stays inside the axis. *)
Lemma mask_bounds_inside (p s : Q) (n : N) :
  0 <= s -> (1 <= n)%N ->
  (0 <= fst (mask_bounds p s n))%Z /\ (snd (mask_bounds p s n) <= Z.of_N n)%Z.
Proof.
  intros Hs Hn. unfold mask_bounds, Qge_bool. cbn [fst snd]. split.
  - destruct (Qle_bool (p - s) 0) eqn:E; [lia |].
    apply Qle_bool_false in E. apply py_int_nonneg.
    assert (s / 2 <= s) by (apply Qle_shift_div_r; lra). lra.
  - destruct (Qle_bool (inject_Z (Z.of_N n)) (p + s)) eqn:E; [lia |].
    apply Qle_bool_false in E.
    assert (H2 : s / 2 <= s) by (apply Qle_shift_div_r; lra).
    destruct (Qlt_le_dec (p + s / 2) 0) as [Hneg | Hpos].
    + assert (py_int (p + s / 2) <= 0)%Z by (apply py_int_nonpos; lra). lia.
    + assert (py_int (p + s / 2) < Z.of_N n)%Z by (apply py_int_below; lra). lia.
Qed.

(** The bounds that [create_mask_ROI] arrives at are [mask_bounds] on each
    axis. *)
Lemma create_mask_ROI_loops (img : image) (g : CameraGUI) :
  create_mask_ROI img g =
  let r := roi_xy g in
  let hb := mask_bounds (fst (pos r)) (fst (size r)) (fst (_image_size g)) in
  let vb := mask_bounds (snd (pos r)) (snd (size r)) (snd (_image_size g)) in
  for_in (py_range (fst hb) (snd hb)) (map (map (fun x => x * 0)) img)
    (fun mask h =>
       for_in (py_range (fst vb) (snd vb)) mask
         (fun mask v => np_setitem mask v h 1)) g.
Proof.
  unfold create_mask_ROI, mask_bounds, bind, get. cbv zeta.
  destruct (Qge_bool (fst (pos (roi_xy g)) + fst (size (roi_xy g))) _),
           (Qge_bool (snd (pos (roi_xy g)) + snd (size (roi_xy g))) _),
           (Qle_bool (fst (pos (roi_xy g)) - fst (size (roi_xy g))) 0),
           (Qle_bool (snd (pos (roi_xy g)) - snd (size (roi_xy g))) 0);
    reflexivity.
Qed.

Lemma mask_safe_spec (g : CameraGUI) :
  mask_safe g = true ->
  0 <= fst (size (roi_xy g)) /\ 0 <= snd (size (roi_xy g)) /\
  (1 <= fst (_image_size g))%N /\ (1 <= snd (_image_size g))%N /\
  has_shape (N.to_nat (snd (_image_size g))) (N.to_nat (fst (_image_size g)))
            (_raw_data_image g).
Proof.
  unfold mask_safe. rewrite !andb_true_iff.
  intros (((((Hsx & Hsy) & Hw) & Hh) & Hrows) & Hcols).
  apply Qle_bool_iff in Hsx, Hsy. apply N.leb_le in Hw, Hh.
  apply N.eqb_eq in Hrows. unfold has_shape. conj_split; try assumption.
  - lia.
  - apply Forall_forall. intros row Hrow.
    rewrite forallb_forall in Hcols.
    specialize (Hcols row (proj1 (list_elem_of_In _ _) Hrow)).
    apply N.eqb_eq in Hcols. lia.
Qed.

(** On a safe panel [create_mask_ROI] returns a mask of the shape of the
    image: no index leaves the image. *)
Lemma create_mask_ROI_returns (g : CameraGUI) :
  mask_safe g = true ->
  exists mask,
    create_mask_ROI (_raw_data_image g) g = (g, inr mask) /\
    has_shape (N.to_nat (snd (_image_size g))) (N.to_nat (fst (_image_size g))) mask.
Proof.
  intros Hsafe.
  destruct (mask_safe_spec g Hsafe) as (Hsx & Hsy & Hw & Hh & Hlen & Hrow).
  rewrite create_mask_ROI_loops. cbv zeta.
  destruct (mask_bounds_inside (fst (pos (roi_xy g))) _ _ Hsx Hw) as [Hh0 Hh1].
  destruct (mask_bounds_inside (snd (pos (roi_xy g))) _ _ Hsy Hh) as [Hv0 Hv1].
  set (hb := mask_bounds (fst (pos (roi_xy g))) _ _) in *.
  set (vb := mask_bounds (snd (pos (roi_xy g))) _ _) in *.
  set (rows := N.to_nat (snd (_image_size g))).
  set (cols := N.to_nat (fst (_image_size g))).
  apply (for_in_returns (has_shape rows cols)
           (fun h => (0 <= h < Z.of_nat cols)%Z)).
  - intros mask h Hmask Hcol.
    apply (for_in_returns (has_shape rows cols)
             (fun v => (0 <= v < Z.of_nat rows)%Z)).
    + intros mask' v Hmask' Hrow'. apply np_setitem_returns; assumption.
    + eapply Forall_impl; [apply py_range_bounds |].
      intros v [Hlo Hhi]. unfold rows. rewrite N_nat_Z. lia.
    + exact Hmask.
  - eapply Forall_impl; [apply py_range_bounds |].
    intros h [Hlo Hhi]. unfold cols. rewrite N_nat_Z. lia.
  - split.
    + rewrite length_map. exact Hlen.
    + apply Forall_map. eapply Forall_impl; [exact Hrow |].
      cbn. intros row E. rewrite length_map. exact E.
Qed.

End CameraMask.

Section CameraConversion.
Import Py Camera.
Local Open Scope Q_scope.

Lemma mask_safe_frame :
  ignores_widgets (fun g => mask_safe g = true) /\
  ignores_lines (fun g => mask_safe g = true) /\
  ignores_position (fun g => mask_safe g = true).
Proof.
  conj_split.
  - intros g f H. exact H.
  - intros g f H. split; exact H.
  - intros g p b H. split; exact H.
Qed.

Lemma config_frame (a b : Q) :
  let I := fun g => _pixel_size_x g = a /\ _pixel_size_y g = b in
  ignores_widgets I /\ ignores_lines I /\ ignores_position I.
Proof.
  cbv zeta. conj_split.
  - intros g f H. exact H.
  - intros g f H. split; exact H.
  - intros g p c H. split; exact H.
Qed.

Lemma update_intensity_returns (g : CameraGUI) :
  mask_safe g = true -> outcome update_intensity g = inr tt.
Proof.
  intros Hsafe. destruct (create_mask_ROI_returns g Hsafe) as (mask & Hrun & _).
  unfold outcome, update_intensity. rewrite bind_get.
  rewrite (bind_returns _ _ _ _ _ Hrun). reflexivity.
Qed.

Lemma setPos_returns (p : Q * Q) (g : CameraGUI) : outcome (setPos p) g = inr tt.
Proof.
  unfold outcome, setPos. rewrite bind_get, bind_modify.
  destruct (same_point p (pos (roi_xy g))); [reflexivity | apply outcome_emit].
Qed.

(** On a safe panel [update_roi_xy] returns, and the panel stays safe. *)
Lemma update_roi_xy_returns (h v : option Q) (g : CameraGUI) :
  mask_safe g = true ->
  outcome (update_roi_xy h v) g = inr tt /\
  mask_safe (exec (update_roi_xy h v) g) = true /\
  _pixel_size_x (exec (update_roi_xy h v) g) = _pixel_size_x g /\
  _pixel_size_y (exec (update_roi_xy h v) g) = _pixel_size_y g.
Proof.
  intros Hsafe.
  destruct mask_safe_frame as (Hw & Hl & Hp).
  destruct (config_frame (_pixel_size_x g) (_pixel_size_y g)) as (Cw & Cl & Cp).
  conj_split.
  - unfold outcome, update_roi_xy. rewrite bind_get. cbv zeta.
    rewrite (bind_returns _ _ _ _ _ (returns_run _ _ _ (setPos_returns _ g))).
    apply update_intensity_returns.
    apply (stable_setPos _ Hw Hl Hp). exact Hsafe.
  - apply (stable_update_roi_xy _ Hw Hl Hp). exact Hsafe.
  - apply (stable_update_roi_xy _ Cw Cl Cp h v g). split; reflexivity.
  - apply (stable_update_roi_xy _ Cw Cl Cp h v g). split; reflexivity.
Qed.

Lemma py_div_returns (a b : Q) (g : CameraGUI) :
  ~ b == 0 -> @py_div CameraGUI a b g = (g, inr (a / b)).
Proof.
  intros Hb. unfold py_div.
  destruct (Qeq_bool b 0) eqn:E; [| reflexivity].
  apply Qeq_bool_iff in E. contradiction.
Qed.

Lemma bound_within (b : SpinBox.t) (v : Q) :
  SpinBox.within b v = true -> SpinBox.bound b v = v.
Proof.
  unfold SpinBox.within, SpinBox.bound. rewrite andb_true_iff. intros [Hlo Hhi].
  cbv zeta. unfold Qlt_bool, Qgt_bool. rewrite Hlo. cbn [negb]. rewrite Hhi.
  reflexivity.
Qed.

Lemma within_proper (b b' : SpinBox.t) (v v' : Q) :
  range b = range b' -> v == v' ->
  SpinBox.within b v = true -> SpinBox.within b' v' = true.
Proof.
  unfold range, SpinBox.within. intros Hr Hv. injection Hr as Hmin Hmax.
  rewrite <- Hmin, <- Hmax, !andb_true_iff, !Qle_bool_iff, Hv. tauto.
Qed.

Lemma ranges_boxes (g g' : CameraGUI) :
  ranges g = ranges g' ->
  range (x_current_InputWidget_pixels (_mw g)) = range (x_current_InputWidget_pixels (_mw g')) /\
  range (y_current_InputWidget_pixels (_mw g)) = range (y_current_InputWidget_pixels (_mw g')) /\
  range (x_current_InputWidget_meter (_mw g)) = range (x_current_InputWidget_meter (_mw g')) /\
  range (y_current_InputWidget_meter (_mw g)) = range (y_current_InputWidget_meter (_mw g')).
Proof.
  unfold ranges. intros H.
  apply (f_equal (fun t => (fst (fst t), snd (fst t), (fst (snd t), snd (snd t))))) in H.
  cbn [fst snd] in H. conj_split; congruence.
Qed.

(** The handlers leave the ranges of the position boxes as
    [createCrosshair] has set them. *)
Lemma stable_ranges_update_roi_xy (R : Q * Q * (Q * Q) * (Q * Q * (Q * Q)))
      (h v : option Q) :
  stable (fun s => ranges s = R) (update_roi_xy h v).
Proof.
  pose proof (stable_create_mask_ROI (fun s => ranges s = R)) as Hmask.
  unfold update_roi_xy, setPos, sigRegionChanged, regionUpdateInfo,
    sigUserRegionUpdate, sigMachineRegionUpdate, update_from_roi_xy,
    update_input_x, update_input_y, update_intensity, adjust.
  stable_with ltac:(intros ? H; exact H).
Qed.

Lemma ranges_after_update_roi_xy (h v : option Q) (g : CameraGUI) :
  ranges (exec (update_roi_xy h v) g) = ranges g.
Proof. apply (stable_ranges_update_roi_xy (ranges g)). reflexivity. Qed.

Lemma settled_update_roi_xy (h v : option Q) (g : CameraGUI) :
  mask_safe g = true ->
  outcome (update_roi_xy h v) g = inr tt /\
  settled g (exec (update_roi_xy h v) g).
Proof.
  intros Hsafe. destruct (update_roi_xy_returns h v g Hsafe) as (Hret & Hs & Hx & Hy).
  split; [exact Hret |]. unfold settled. conj_split; try assumption.
  apply ranges_after_update_roi_xy.
Qed.

Lemma update_from_input_x_effect (g : CameraGUI) :
  mask_safe g = true ->
  let g' := exec update_from_input_x g in
  outcome update_from_input_x g = inr tt /\
  settled g g' /\
  SpinBox.value (x_current_InputWidget_meter (_mw g')) =
    SpinBox.bound (x_current_InputWidget_meter (_mw g))
      (SpinBox.value (x_current_InputWidget_pixels (_mw g)) * _pixel_size_x g).
Proof.
  intros Hsafe.
  destruct (settled_update_roi_xy
              (Some (SpinBox.value (x_current_InputWidget_pixels (_mw g)))) None g Hsafe)
    as (Hret & Hs & Hx & Hy & Hr).
  remember (exec (update_roi_xy
                    (Some (SpinBox.value (x_current_InputWidget_pixels (_mw g)))) None) g)
    as s0 eqn:Es0 in *.
  assert (Hrun : update_from_input_x g =
            (with_mw (set_x_meter
                        (SpinBox.setValue
                           (SpinBox.value (x_current_InputWidget_pixels (_mw g))
                            * _pixel_size_x g))) s0, inr tt)).
  { unfold update_from_input_x. rewrite bind_get. cbv zeta.
    rewrite (bind_returns _ _ _ _ _ (returns_run _ _ _ Hret)), <- Es0. reflexivity. }
  cbv zeta. unfold outcome, exec. rewrite Hrun. cbn [fst snd].
  destruct (ranges_boxes _ _ Hr) as (_ & _ & Hxm & _).
  unfold range in Hxm. injection Hxm as Hmin Hmax.
  split; [reflexivity |].
  split; [unfold settled; conj_split; [exact Hs | exact Hx | exact Hy | exact Hr] |].
  cbn [_mw with_mw set_x_meter x_current_InputWidget_meter SpinBox.setValue SpinBox.value].
  unfold SpinBox.bound. rewrite Hmin, Hmax. reflexivity.
Qed.

Lemma update_from_input_y_effect (g : CameraGUI) :
  mask_safe g = true ->
  let g' := exec update_from_input_y g in
  outcome update_from_input_y g = inr tt /\
  settled g g' /\
  SpinBox.value (y_current_InputWidget_meter (_mw g')) =
    SpinBox.bound (y_current_InputWidget_meter (_mw g))
      (SpinBox.value (y_current_InputWidget_pixels (_mw g)) * _pixel_size_y g).
Proof.
  intros Hsafe.
  destruct (settled_update_roi_xy None
              (Some (SpinBox.value (y_current_InputWidget_pixels (_mw g)))) g Hsafe)
    as (Hret & Hs & Hx & Hy & Hr).
  remember (exec (update_roi_xy None
                    (Some (SpinBox.value (y_current_InputWidget_pixels (_mw g))))) g)
    as s0 eqn:Es0 in *.
  assert (Hrun : update_from_input_y g =
            (with_mw (set_y_meter
                        (SpinBox.setValue
                           (SpinBox.value (y_current_InputWidget_pixels (_mw g))
                            * _pixel_size_y g))) s0, inr tt)).
  { unfold update_from_input_y. rewrite bind_get. cbv zeta.
    rewrite (bind_returns _ _ _ _ _ (returns_run _ _ _ Hret)), <- Es0. reflexivity. }
  cbv zeta. unfold outcome, exec. rewrite Hrun. cbn [fst snd].
  destruct (ranges_boxes _ _ Hr) as (_ & _ & _ & Hym).
  unfold range in Hym. injection Hym as Hmin Hmax.
  split; [reflexivity |].
  split; [unfold settled; conj_split; [exact Hs | exact Hx | exact Hy | exact Hr] |].
  cbn [_mw with_mw set_y_meter y_current_InputWidget_meter SpinBox.setValue SpinBox.value].
  unfold SpinBox.bound. rewrite Hmin, Hmax. reflexivity.
Qed.

Lemma update_from_input_x_meter_effect (g : CameraGUI) :
  mask_safe g = true -> ~ _pixel_size_x g == 0 ->
  let g' := exec update_from_input_x_meter g in
  outcome update_from_input_x_meter g = inr tt /\
  settled g g' /\
  SpinBox.value (x_current_InputWidget_pixels (_mw g')) =
    SpinBox.bound (x_current_InputWidget_pixels (_mw g))
      (SpinBox.value (x_current_InputWidget_meter (_mw g)) / _pixel_size_x g).
Proof.
  intros Hsafe Hsx.
  set (x_pos := SpinBox.value (x_current_InputWidget_meter (_mw g)) / _pixel_size_x g).
  destruct (settled_update_roi_xy (Some x_pos) None g Hsafe)
    as (Hret & Hs & Hx & Hy & Hr).
  remember (exec (update_roi_xy (Some x_pos) None) g) as s0 eqn:Es0 in *.
  assert (Hrun : update_from_input_x_meter g =
            (with_mw (set_x_pixels (SpinBox.setValue x_pos)) s0, inr tt)).
  { unfold update_from_input_x_meter. rewrite bind_get.
    rewrite (bind_returns _ _ _ _ _ (py_div_returns _ _ g Hsx)).
    fold x_pos.
    rewrite (bind_returns _ _ _ _ _ (returns_run _ _ _ Hret)), <- Es0. reflexivity. }
  cbv zeta. unfold outcome, exec. rewrite Hrun. cbn [fst snd].
  destruct (ranges_boxes _ _ Hr) as (Hxp & _).
  unfold range in Hxp. injection Hxp as Hmin Hmax.
  split; [reflexivity |].
  split; [unfold settled; conj_split; [exact Hs | exact Hx | exact Hy | exact Hr] |].
  cbn [_mw with_mw set_x_pixels x_current_InputWidget_pixels SpinBox.setValue SpinBox.value].
  unfold SpinBox.bound. rewrite Hmin, Hmax. reflexivity.
Qed.

Lemma update_from_input_y_meter_effect (g : CameraGUI) :
  mask_safe g = true -> ~ _pixel_size_y g == 0 ->
  let g' := exec update_from_input_y_meter g in
  outcome update_from_input_y_meter g = inr tt /\
  settled g g' /\
  SpinBox.value (y_current_InputWidget_pixels (_mw g')) =
    SpinBox.bound (y_current_InputWidget_pixels (_mw g))
      (SpinBox.value (y_current_InputWidget_meter (_mw g)) / _pixel_size_y g).
Proof.
  intros Hsafe Hsy.
  set (y_pos := SpinBox.value (y_current_InputWidget_meter (_mw g)) / _pixel_size_y g).
  destruct (settled_update_roi_xy None (Some y_pos) g Hsafe)
    as (Hret & Hs & Hx & Hy & Hr).
  remember (exec (update_roi_xy None (Some y_pos)) g) as s0 eqn:Es0 in *.
  assert (Hsy' : ~ _pixel_size_y s0 == 0) by (rewrite Hy; exact Hsy).
  assert (Hrun : update_from_input_y_meter g =
            (with_mw (set_y_pixels (SpinBox.setValue y_pos)) s0, inr tt)).
  { unfold update_from_input_y_meter. rewrite bind_get. cbv zeta.
    rewrite (bind_returns _ _ _ _ _ (py_div_returns _ _ g Hsy)).
    fold y_pos.
    rewrite (bind_returns _ _ _ _ _ (returns_run _ _ _ Hret)), <- Es0.
    rewrite bind_get.
    rewrite (bind_returns _ _ _ _ _ (py_div_returns _ _ _ Hsy')).
    rewrite Hy. reflexivity. }
  cbv zeta. unfold outcome, exec. rewrite Hrun. cbn [fst snd].
  destruct (ranges_boxes _ _ Hr) as (_ & Hyp & _).
  unfold range in Hyp. injection Hyp as Hmin Hmax.
  split; [reflexivity |].
  split; [unfold settled; conj_split; [exact Hs | exact Hx | exact Hy | exact Hr] |].
  cbn [_mw with_mw set_y_pixels y_current_InputWidget_pixels SpinBox.setValue SpinBox.value].
  unfold SpinBox.bound. rewrite Hmin, Hmax. reflexivity.
Qed.

End CameraConversion.

Section CameraMaskClaims.
Import Py Camera.
Local Open Scope Q_scope.

(** C9: with the ROI rectangle from (10, 10) to (14, 14) on a 20 x 20
    image, [create_mask_ROI] returns a mask that is 1 from index 8 to index
    12 on both axes: it takes [pos] for the centre of the ROI, while [pos]
    is its lower left corner.  Pixel (8, 8), which lies outside the
    rectangle, is marked and pixel (13, 13), which lies inside, is not; so
    the mask is not the ROI rectangle intersected with the image. *)
Theorem create_mask_ROI_misses_roi_rectangle :
  mask_entry panel_roi_10_4 8 8 = inr (Some 1) /\
  in_roi_rectangle panel_roi_10_4 8 8 = false /\
  mask_entry panel_roi_10_4 13 13 = inr (Some 0) /\
  in_roi_rectangle panel_roi_10_4 13 13 = true /\
  ~ (forall v h : nat,
       mask_entry panel_roi_10_4 v h = inr (Some 1) <->
       in_roi_rectangle panel_roi_10_4 h v = true).
Proof.
  assert (H8 : mask_entry panel_roi_10_4 8 8 = inr (Some 1))
    by (vm_compute; reflexivity).
  assert (R8 : in_roi_rectangle panel_roi_10_4 8 8 = false)
    by (vm_compute; reflexivity).
  conj_split.
  - exact H8.
  - exact R8.
  - vm_compute; reflexivity.
  - vm_compute; reflexivity.
  - intros H. apply H in H8. rewrite R8 in H8. discriminate H8.
Qed.

(** The index range of the mask leaves the image when the size is
    negative: origin 20.3 and size -0.4 on 20 pixels write column 20. *)
Lemma create_mask_ROI_negative_size :
  outcome (create_mask_ROI (_raw_data_image panel))
          (with_roi (fun _ => mkCrossROI (203#10, 10) (-4#10, 4) false) panel)
  = inl IndexError.
Proof. vm_compute. reflexivity. Qed.

End CameraMaskClaims.

(** * Further properties of the joystick logic *)

Section JoystickIteration.
Import Py Joystick.

Lemma trace_after_effects (es : list effect) (w : world) :
  trace (after_effects es w) = trace w ++ es.
Proof.
  revert w. induction es as [| e es IH]; intros w; cbn.
  - symmetry. apply app_nil_r.
  - unfold after_effects in IH. rewrite IH. cbn. rewrite <- app_assoc. reflexivity.
Qed.

Lemma self_after_effects (es : list effect) (w : world) :
  self (after_effects es w) = self w.
Proof.
  revert w. induction es as [| e es IH]; intros w; cbn; [reflexivity |].
  unfold after_effects in IH. rewrite IH. reflexivity.
Qed.

Lemma after_effects_app (es1 es2 : list effect) (w : world) :
  after_effects (es1 ++ es2) w = after_effects es2 (after_effects es1 w).
Proof. unfold after_effects. apply fold_left_app. Qed.

(** A loop whose body on [x] logs [out x] and adds [ch x] to the flag. *)
Lemma for_in_effects {A} (body : bool -> A -> M world bool)
      (out : A -> list effect) (ch : A -> bool) (P : JoystickLogic -> Prop) (l : list A) :
  (forall acc x s, In x l -> P (self s) ->
     body acc x s = (after_effects (out x) s, inr (acc || ch x))) ->
  forall acc s, P (self s) ->
    for_in l acc body s =
    (after_effects (flat_map out l) s, inr (acc || existsb ch l)).
Proof.
  induction l as [| x l IH]; intros Hbody acc s Hs.
  - cbn. rewrite orb_false_r. reflexivity.
  - cbn [for_in flat_map existsb].
    rewrite (bind_returns _ _ _ _ _ (Hbody acc x s (or_introl eq_refl) Hs)).
    rewrite IH.
    + rewrite after_effects_app, orb_assoc. reflexivity.
    + intros acc' y s' Hy Hs'. apply Hbody; [right; exact Hy | exact Hs'].
    + rewrite self_after_effects. exact Hs.
Qed.

Lemma loop_enabled_run (w : world) :
  _hardware (self w) = Some JoystickHardware ->
  enabled (self w) = true ->
  loop w =
  (changed <- for_in _button_list false
                (button_step (hw_feed w (hw_reads w)) (_last_state (self w))) ;;
   changed <- for_in _axis_list changed
                (axis_step (hw_feed w (hw_reads w)) (_last_state (self w))) ;;
   (if changed : bool then log EmitControllerChanged else ret tt) ;;;
   timer_start) (after_read w).
Proof.
  intros Hhw Hen.
  change (loop w) with
    ((w0 <- get ;;
      state <- hardware_get_state ;;
      if negb (enabled (self w0)) then ret tt
      else
        changed <- for_in _button_list false (button_step state (_last_state (self w0))) ;;
        changed <- for_in _axis_list changed (axis_step state (_last_state (self w0))) ;;
        (if changed : bool then log EmitControllerChanged else ret tt) ;;;
        timer_start) w).
  rewrite bind_get.
  assert (Hread : hardware_get_state w = (after_read w, inr (hw_feed w (hw_reads w)))).
  { unfold hardware_get_state. rewrite bind_get, Hhw. reflexivity. }
  rewrite (bind_returns _ _ _ _ _ Hread), Hen. reflexivity.
Qed.

Lemma emit_event_run (ev : events_dict) (control name : string) (sg : signal)
      (s : world) :
  _events (self s) = Some ev ->
  emission ev control name = [Emit sg] ->
  emit_event control name s = (after_effect (Emit sg) s, inr tt).
Proof.
  intros Hev Hsg. unfold emit_event. rewrite bind_get, Hev.
  unfold emission in Hsg. unfold getitem.
  destruct (ev !! control) as [d |]; cbn in Hsg; [| discriminate].
  rewrite bind_ret. destruct (d !! name) as [[i | i] |]; try discriminate.
  rewrite bind_ret. injection Hsg as <-. reflexivity.
Qed.

Lemma bind_log {B} (e : effect) (k : unit -> M world B) (s : world) :
  bind (log e) k s = k tt (after_effect e s).
Proof. reflexivity. Qed.

Lemma timer_start_run (s : world) (t : QTimer) :
  timer (self s) = Some t ->
  ~ (_fps (self s) == 0)%Q ->
  trace (exec timer_start s) = trace s ++ [TimerStart (1000 * 1 / _fps (self s))%Q] /\
  outcome timer_start s = inr tt.
Proof.
  intros Ht Hf. unfold exec, outcome, timer_start. rewrite bind_get, Ht.
  destruct (Qeq_bool (_fps (self s)) 0) eqn:E.
  - apply Qeq_bool_iff in E. contradiction.
  - split; reflexivity.
Qed.

End JoystickIteration.

Section JoystickDiff.
Import Py Joystick.

Lemma complete_lookup (s : snapshot) (c : string) :
  complete s = true -> In c (_button_list ++ _axis_list) -> exists v, s !! c = Some v.
Proof.
  unfold complete. rewrite forallb_forall. intros H Hc. specialize (H c Hc).
  destruct (s !! c) as [v |]; [exists v; reflexivity | discriminate].
Qed.

Lemma wired_button (ev : events_dict) (b : string) :
  wired ev = true -> In b _button_list ->
  (exists sg, emission ev b "value_change" = [Emit sg]) /\
  (exists sg, emission ev b "pressed" = [Emit sg]).
Proof.
  unfold wired. rewrite andb_true_iff, !forallb_forall. intros [H _] Hb.
  specialize (H b Hb). unfold emission in *.
  destruct (ev !! b ≫= (fun d => d !! "value_change")) as [[i | i] |],
           (ev !! b ≫= (fun d => d !! "pressed")) as [[j | j] |];
    try discriminate.
  split; eexists; reflexivity.
Qed.

Lemma wired_axis (ev : events_dict) (a : string) :
  wired ev = true -> In a _axis_list ->
  exists sg, emission ev a "value_change" = [Emit sg].
Proof.
  unfold wired. rewrite andb_true_iff, !forallb_forall. intros [_ H] Ha.
  specialize (H a Ha). unfold emission in *.
  destruct (ev !! a ≫= (fun d => d !! "value_change")) as [[i | i] |];
    try discriminate.
  eexists; reflexivity.
Qed.

Lemma button_step_run (ev : events_dict) (state old : snapshot) (acc : bool)
      (b : string) (s : world) :
  _events (self s) = Some ev ->
  (exists v, state !! b = Some v) -> (exists v, old !! b = Some v) ->
  (exists sg, emission ev b "value_change" = [Emit sg]) ->
  (exists sg, emission ev b "pressed" = [Emit sg]) ->
  button_step state (Some old) acc b s =
  (after_effects (button_emissions ev state old b) s, inr (acc || differs state old b)).
Proof.
  intros Hev [new Hn] [o Ho] [s1 H1] [s2 H2].
  unfold button_step, getitem_opt, getitem, button_emissions, differs, truthy_at.
  rewrite Hn, Ho, !bind_ret.
  destruct (py_ne new o).
  - rewrite (bind_returns _ _ _ _ _ (emit_event_run ev b _ s1 s Hev H1)).
    rewrite H1, H2, orb_true_r.
    destruct (truthy new).
    + rewrite (bind_returns _ _ _ _ _
                 (emit_event_run ev b _ s2 (after_effect (Emit s1) s) Hev H2)).
      reflexivity.
    + reflexivity.
  - rewrite orb_false_r. reflexivity.
Qed.

Lemma axis_step_run (ev : events_dict) (state old : snapshot) (acc : bool)
      (a : string) (s : world) :
  _events (self s) = Some ev ->
  (exists v, state !! a = Some v) -> (exists v, old !! a = Some v) ->
  (exists sg, emission ev a "value_change" = [Emit sg]) ->
  axis_step state (Some old) acc a s =
  (after_effects (axis_emissions ev state old a) s, inr (acc || differs state old a)).
Proof.
  intros Hev [new Hn] [o Ho] [s1 H1].
  unfold axis_step, getitem_opt, getitem, axis_emissions, differs.
  rewrite Hn, Ho, !bind_ret.
  destruct (py_ne new o).
  - rewrite (bind_returns _ _ _ _ _ (emit_event_run ev a _ s1 s Hev H1)).
    rewrite H1, orb_true_r. reflexivity.
  - rewrite orb_false_r. reflexivity.
Qed.

(** X1: the comparison that [loop] makes.  Let the instance be enabled
    with its timer created and a rate other than zero, let the stored and
    the new reading hold every control, and let [_events] be bound (from
    outside the class) to a dict that holds, for every control, signals
    that can be emitted (bound ones: the signals that [on_activate] creates
    cannot).  Then
    [loop] returns, and what it does is, in this order: for each button
    whose value differs its [value_change] and, if the new value is truthy,
    its [pressed]; for each axis whose value differs its [value_change];
    [sig_controller_changed] if any control differs; and one arming of the
    timer. *)
Theorem loop_emits_differences :
  forall (w : world) (ev : events_dict) (old : snapshot) (t : QTimer),
    _hardware (self w) = Some JoystickHardware ->
    enabled (self w) = true ->
    _last_state (self w) = Some old ->
    _events (self w) = Some ev ->
    timer (self w) = Some t ->
    ~ (_fps (self w) == 0)%Q ->
    complete (hw_feed w (hw_reads w)) = true ->
    complete old = true ->
    wired ev = true ->
    let state := hw_feed w (hw_reads w) in
    outcome loop w = inr tt /\
    trace (exec loop w) =
      trace w
      ++ flat_map (button_emissions ev state old) _button_list
      ++ flat_map (axis_emissions ev state old) _axis_list
      ++ (if existsb (differs state old) (_button_list ++ _axis_list)
          then [EmitControllerChanged] else [])
      ++ [TimerStart (1000 * 1 / _fps (self w))%Q].
Proof.
  intros w ev old t Hhw Hen Hold Hev Ht Hf Hstate Hcold Hwired state.
  assert (Hb : forall acc s, _events (self s) = Some ev ->
            for_in _button_list acc (button_step state (Some old)) s =
            (after_effects (flat_map (button_emissions ev state old) _button_list) s,
             inr (acc || existsb (differs state old) _button_list))).
  { intros acc s Hs.
    apply (for_in_effects _ _ _ (fun o => _events o = Some ev)); [| exact Hs].
    intros acc' b s' Hin Hs'.
    destruct (wired_button ev b Hwired Hin) as [Hvc Hpr].
    apply button_step_run; try assumption.
    - apply (complete_lookup state b Hstate). apply in_or_app. left. exact Hin.
    - apply (complete_lookup old b Hcold). apply in_or_app. left. exact Hin. }
  assert (Ha : forall acc s, _events (self s) = Some ev ->
            for_in _axis_list acc (axis_step state (Some old)) s =
            (after_effects (flat_map (axis_emissions ev state old) _axis_list) s,
             inr (acc || existsb (differs state old) _axis_list))).
  { intros acc s Hs.
    apply (for_in_effects _ _ _ (fun o => _events o = Some ev)); [| exact Hs].
    intros acc' a s' Hin Hs'.
    apply axis_step_run; try assumption.
    - apply (complete_lookup state a Hstate). apply in_or_app. right. exact Hin.
    - apply (complete_lookup old a Hcold). apply in_or_app. right. exact Hin.
    - apply (wired_axis ev a Hwired Hin). }
  unfold outcome, exec. rewrite (loop_enabled_run w Hhw Hen), Hold.
  fold state.
  rewrite (bind_returns _ _ _ _ _ (Hb false (after_read w) Hev)).
  set (s1 := after_effects _ (after_read w)).
  assert (Hs1 : _events (self s1) = Some ev)
    by (unfold s1; rewrite self_after_effects; exact Hev).
  rewrite (bind_returns _ _ _ _ _ (Ha _ s1 Hs1)).
  set (s2 := after_effects _ s1).
  rewrite existsb_app. cbn [orb].
  set (changed := existsb (differs state old) _button_list
                  || existsb (differs state old) _axis_list).
  assert (Hself2 : self s2 = self w)
    by (unfold s2, s1; rewrite !self_after_effects; reflexivity).
  assert (Htr2 : trace s2 = trace w
                   ++ flat_map (button_emissions ev state old) _button_list
                   ++ flat_map (axis_emissions ev state old) _axis_list).
  { unfold s2, s1. rewrite !trace_after_effects. cbn [after_read trace].
    rewrite <- app_assoc. reflexivity. }
  clearbody s2 changed.
  destruct changed.
  - rewrite bind_log.
    destruct (timer_start_run (after_effect EmitControllerChanged s2) t) as [Htr Hout].
    + cbn. rewrite Hself2. exact Ht.
    + cbn. rewrite Hself2. exact Hf.
    + unfold exec, outcome in Htr, Hout. rewrite Hout, Htr. split; [reflexivity |].
      cbn [after_effect trace self]. rewrite Htr2, Hself2, <- !app_assoc. reflexivity.
  - rewrite bind_ret.
    destruct (timer_start_run s2 t) as [Htr Hout].
    + rewrite Hself2. exact Ht.
    + rewrite Hself2. exact Hf.
    + unfold exec, outcome in Htr, Hout. rewrite Hout, Htr. split; [reflexivity |].
      rewrite Htr2, Hself2, <- !app_assoc. reflexivity.
Qed.

End JoystickDiff.

Section JoystickEdges.
Import Py Joystick.

Lemma loop_emits_differences_witness :
  outcome loop rewired = inr tt /\
  trace (exec loop rewired) =
    trace rewired ++ [Emit (Bound 1); Emit (Bound 0); EmitControllerChanged;
                      TimerStart (1000 * 1 / 100)%Q].
Proof.
  destruct (loop_emits_differences rewired bound_wiring released
              (mkQTimer true true (Some (1000 * 1 / 100)%Q)))
    as [Hout Htr].
  - reflexivity.
  - reflexivity.
  - reflexivity.
  - reflexivity.
  - reflexivity.
  - vm_compute. discriminate.
  - vm_compute. reflexivity.
  - vm_compute. reflexivity.
  - vm_compute. reflexivity.
  - split; [exact Hout |]. rewrite Htr. vm_compute. reflexivity.
Defined.

Lemma quiet_button_step (state old : snapshot) (acc : bool) (b : string) (s : world) :
  (exists v, state !! b = Some v) -> (exists v, old !! b = Some v) ->
  differs state old b = false ->
  button_step state (Some old) acc b s = (s, inr acc).
Proof.
  intros [new Hn] [o Ho] Hd. unfold differs in Hd. rewrite Hn, Ho in Hd.
  unfold button_step, getitem_opt, getitem. rewrite Hn, Ho, !bind_ret, Hd. reflexivity.
Qed.

Lemma quiet_axis_step (state old : snapshot) (acc : bool) (a : string) (s : world) :
  (exists v, state !! a = Some v) -> (exists v, old !! a = Some v) ->
  differs state old a = false ->
  axis_step state (Some old) acc a s = (s, inr acc).
Proof.
  intros [new Hn] [o Ho] Hd. unfold differs in Hd. rewrite Hn, Ho in Hd.
  unfold axis_step, getitem_opt, getitem. rewrite Hn, Ho, !bind_ret, Hd. reflexivity.
Qed.

Lemma for_in_skips {A} (body : bool -> A -> M world bool) (l : list A) (s : world) :
  (forall acc x, In x l -> body acc x s = (s, inr acc)) ->
  forall acc, for_in l acc body s = (s, inr acc).
Proof.
  induction l as [| x l IH]; intros Hbody acc; [reflexivity |].
  cbn [for_in]. rewrite (bind_returns _ _ _ _ _ (Hbody acc x (or_introl eq_refl))).
  apply IH. intros acc' y Hy. apply Hbody. right. exact Hy.
Qed.

(** X2: an iteration in which no control differs.  On an enabled instance
    with its timer and a rate other than zero, if the stored and the new
    reading hold every control and agree on each, [loop] returns, emits
    nothing and arms the timer once; [_events] is not looked at. *)
Theorem loop_quiet_iteration :
  forall (w : world) (old : snapshot) (t : QTimer),
    _hardware (self w) = Some JoystickHardware ->
    enabled (self w) = true ->
    _last_state (self w) = Some old ->
    timer (self w) = Some t ->
    ~ (_fps (self w) == 0)%Q ->
    complete (hw_feed w (hw_reads w)) = true ->
    complete old = true ->
    existsb (differs (hw_feed w (hw_reads w)) old) (_button_list ++ _axis_list) = false ->
    outcome loop w = inr tt /\
    trace (exec loop w) = trace w ++ [TimerStart (1000 * 1 / _fps (self w))%Q].
Proof.
  intros w old t Hhw Hen Hold Ht Hf Hstate Hcold Hsame.
  assert (Hd : forall c, In c (_button_list ++ _axis_list) ->
                 differs (hw_feed w (hw_reads w)) old c = false).
  { intros c Hc. destruct (differs (hw_feed w (hw_reads w)) old c) eqn:E; [| reflexivity].
    assert (Hex : existsb (differs (hw_feed w (hw_reads w)) old)
                          (_button_list ++ _axis_list) = true)
      by (apply existsb_exists; exists c; split; assumption).
    rewrite Hsame in Hex. discriminate Hex. }
  assert (Hb : for_in _button_list false
                 (button_step (hw_feed w (hw_reads w)) (Some old)) (after_read w)
               = (after_read w, inr false)).
  { apply for_in_skips. intros acc b Hb. apply quiet_button_step.
    - apply (complete_lookup _ b Hstate), in_or_app. left. exact Hb.
    - apply (complete_lookup _ b Hcold), in_or_app. left. exact Hb.
    - apply Hd, in_or_app. left. exact Hb. }
  assert (Ha : for_in _axis_list false
                 (axis_step (hw_feed w (hw_reads w)) (Some old)) (after_read w)
               = (after_read w, inr false)).
  { apply for_in_skips. intros acc a Ha. apply quiet_axis_step.
    - apply (complete_lookup _ a Hstate), in_or_app. right. exact Ha.
    - apply (complete_lookup _ a Hcold), in_or_app. right. exact Ha.
    - apply Hd, in_or_app. right. exact Ha. }
  unfold outcome, exec. rewrite (loop_enabled_run w Hhw Hen), Hold.
  rewrite (bind_returns _ _ _ _ _ Hb), (bind_returns _ _ _ _ _ Ha).
  cbv beta iota. rewrite bind_ret.
  destruct (timer_start_run (after_read w) t Ht Hf) as [Htr Hout].
  unfold exec, outcome in Htr, Hout. rewrite Hout, Htr. split; reflexivity.
Qed.

Lemma loop_quiet_iteration_witness :
  outcome loop polling_untouched = inr tt /\
  trace (exec loop polling_untouched) =
    [TimerStart (1000 * 1 / 100)%Q; TimerStart (1000 * 1 / 100)%Q].
Proof.
  destruct (loop_quiet_iteration polling_untouched released
              (mkQTimer true true (Some (1000 * 1 / 100)%Q)))
    as [Hout Htr].
  - reflexivity.
  - reflexivity.
  - reflexivity.
  - reflexivity.
  - vm_compute. discriminate.
  - vm_compute. reflexivity.
  - vm_compute. reflexivity.
  - vm_compute. reflexivity.
  - split; [exact Hout |]. rewrite Htr. vm_compute. reflexivity.
Defined.

(** X3: an iteration without a stored reading.  [_last_state] is [None]
    until [on_activate] has stored a reading; on an enabled instance in
    that state [loop] raises at the first button, [KeyError] if the new
    reading lacks it and [TypeError] from subscripting [None] otherwise,
    and neither emits nor arms the timer. *)
Theorem loop_without_stored_reading :
  forall w : world,
    _hardware (self w) = Some JoystickHardware ->
    enabled (self w) = true ->
    _last_state (self w) = None ->
    outcome loop w =
      inl (match hw_feed w (hw_reads w) !! "left_up" with
           | Some _ => TypeError
           | None => KeyError "left_up"
           end) /\
    trace (exec loop w) = trace w /\
    timer (self (exec loop w)) = timer (self w).
Proof.
  intros w Hhw Hen Hold.
  assert (Hstep : button_step (hw_feed w (hw_reads w)) None false "left_up" (after_read w)
                  = (after_read w,
                     inl (match hw_feed w (hw_reads w) !! "left_up" with
                          | Some _ => TypeError
                          | None => KeyError "left_up"
                          end))).
  { unfold button_step, getitem_opt, getitem.
    destruct (hw_feed w (hw_reads w) !! "left_up"); reflexivity. }
  unfold outcome, exec. rewrite (loop_enabled_run w Hhw Hen), Hold.
  unfold _button_list. cbn [for_in].
  rewrite (bind_raises _ _ _ _ _ (bind_raises _ _ _ _ _ Hstep)).
  conj_split; reflexivity.
Qed.

Lemma loop_without_stored_reading_witness :
  outcome loop (started (fun _ => released)) = inl TypeError /\
  trace (exec loop (started (fun _ => released))) = trace (started (fun _ => released)).
Proof.
  destruct (loop_without_stored_reading (started (fun _ => released)))
    as (Hout & Htr & _).
  - reflexivity.
  - reflexivity.
  - reflexivity.
  - exact (conj Hout Htr).
Defined.

End JoystickEdges.

Section JoystickAbort.
Import Py Joystick.

(** A loop whose body passes over the elements that [d] does not mark and
    raises [e] at those it marks, without touching the state, raises [e]
    as soon as the list holds a marked element. *)
Lemma for_in_raises_at {A} (body : bool -> A -> M world bool) (d : A -> bool)
      (e : exn) (s : world) (l : list A) :
  (forall acc x, In x l -> d x = false -> body acc x s = (s, inr acc)) ->
  (forall acc x, In x l -> d x = true -> body acc x s = (s, inl e)) ->
  existsb d l = true ->
  forall acc, for_in l acc body s = (s, inl e).
Proof.
  induction l as [| x l IH]; intros Hskip Hraise Hex acc; [discriminate Hex |].
  cbn [for_in existsb] in *.
  destruct (d x) eqn:Ex.
  - apply bind_raises, Hraise; [left; reflexivity | exact Ex].
  - rewrite (bind_returns _ _ _ _ _ (Hskip acc x (or_introl eq_refl) Ex)).
    apply IH.
    + intros acc' y Hy. apply Hskip. right. exact Hy.
    + intros acc' y Hy. apply Hraise. right. exact Hy.
    + exact Hex.
Qed.

Lemma differs_lookup (state old : snapshot) (c : string) :
  differs state old c = true ->
  exists new o, state !! c = Some new /\ old !! c = Some o /\ py_ne new o = true.
Proof.
  unfold differs. destruct (state !! c) as [new |], (old !! c) as [o |];
    try discriminate.
  intros H. exists new, o. auto.
Qed.

(** If emitting [value_change] fails with [e] for every control, an
    iteration that sees a difference ends with [e] at the first control
    that differs: the device has been read, nothing else has happened. *)
Lemma loop_aborts_at_change (w : world) (old : snapshot) (e : exn) :
  _hardware (self w) = Some JoystickHardware ->
  enabled (self w) = true ->
  _last_state (self w) = Some old ->
  complete (hw_feed w (hw_reads w)) = true ->
  complete old = true ->
  existsb (differs (hw_feed w (hw_reads w)) old) (_button_list ++ _axis_list) = true ->
  (forall c, In c (_button_list ++ _axis_list) ->
     emit_event c "value_change" (after_read w) = (after_read w, inl e)) ->
  loop w = (after_read w, inl e).
Proof.
  intros Hhw Hen Hold Hstate Hcold Hex Hemit.
  rewrite (loop_enabled_run w Hhw Hen), Hold.
  set (state := hw_feed w (hw_reads w)) in *.
  assert (Hbr : forall acc b, In b _button_list -> differs state old b = true ->
                  button_step state (Some old) acc b (after_read w)
                  = (after_read w, inl e)).
  { intros acc b Hb Hd.
    destruct (differs_lookup _ _ _ Hd) as (new & o & Hn & Ho & Hne).
    unfold button_step, getitem_opt, getitem. rewrite Hn, Ho, !bind_ret, Hne.
    rewrite (bind_raises _ _ _ _ _ (Hemit b (in_or_app _ _ _ (or_introl Hb)))).
    reflexivity. }
  assert (Har : forall acc a, In a _axis_list -> differs state old a = true ->
                  axis_step state (Some old) acc a (after_read w)
                  = (after_read w, inl e)).
  { intros acc a Ha Hd.
    destruct (differs_lookup _ _ _ Hd) as (new & o & Hn & Ho & Hne).
    unfold axis_step, getitem_opt, getitem. rewrite Hn, Ho, !bind_ret, Hne.
    rewrite (bind_raises _ _ _ _ _ (Hemit a (in_or_app _ _ _ (or_intror Ha)))).
    reflexivity. }
  rewrite existsb_app in Hex.
  destruct (existsb (differs state old) _button_list) eqn:Eb.
  - apply bind_raises.
    apply (for_in_raises_at _ (differs state old)); [| | exact Eb].
    + intros acc b Hb Hd. apply quiet_button_step; [| | exact Hd].
      * apply (complete_lookup _ b Hstate), in_or_app. left. exact Hb.
      * apply (complete_lookup _ b Hcold), in_or_app. left. exact Hb.
    + intros acc b Hb Hd. apply Hbr; assumption.
  - cbn [orb] in Hex.
    assert (Hb : for_in _button_list false (button_step state (Some old)) (after_read w)
                 = (after_read w, inr false)).
    { apply for_in_skips. intros acc b Hb. apply quiet_button_step.
      - apply (complete_lookup _ b Hstate), in_or_app. left. exact Hb.
      - apply (complete_lookup _ b Hcold), in_or_app. left. exact Hb.
      - destruct (differs state old b) eqn:E; [| reflexivity].
        assert (Ht : existsb (differs state old) _button_list = true)
          by (apply existsb_exists; exists b; split; assumption).
        rewrite Eb in Ht. discriminate Ht. }
    rewrite (bind_returns _ _ _ _ _ Hb).
    apply bind_raises.
    apply (for_in_raises_at _ (differs state old)); [| | exact Hex].
    + intros acc a Ha Hd. apply quiet_axis_step; [| | exact Hd].
      * apply (complete_lookup _ a Hstate), in_or_app. right. exact Ha.
      * apply (complete_lookup _ a Hcold), in_or_app. right. exact Ha.
    + intros acc a Ha Hd. apply Har; assumption.
Qed.


(** C6: the timer is armed with [1000*1/_fps] wherever it is armed, but an
    iteration in which a control has changed does not reach the arming at
    its end.  On an instance as the class makes it ([_events] unbound),
    enabled and with a stored reading, an iteration that reads a state
    which differs from the stored one in some control raises
    [AttributeError] at [self._events]; the single-shot timer is not armed
    again, so that no further poll is scheduled. *)
Theorem changed_iteration_does_not_rearm :
  forall (w : world) (old : snapshot),
    _hardware (self w) = Some JoystickHardware ->
    enabled (self w) = true ->
    _last_state (self w) = Some old ->
    _events (self w) = None ->
    complete (hw_feed w (hw_reads w)) = true ->
    complete old = true ->
    existsb (differs (hw_feed w (hw_reads w)) old) (_button_list ++ _axis_list) = true ->
    outcome loop w = inl (AttributeError "_events") /\
    trace (exec loop w) = trace w /\
    timer (self (exec loop w)) = timer (self w).
Proof.
  intros w old Hhw Hen Hold Hev Hstate Hcold Hex.
  assert (Hrun : loop w = (after_read w, inl (AttributeError "_events"))).
  { apply (loop_aborts_at_change w old); try assumption.
    intros c _. apply emit_event_raises. exact Hev. }
  unfold outcome, exec. rewrite Hrun. conj_split; reflexivity.
Qed.

(** On the activated instance: [start_loop] has armed the timer once with
    the period of the rate; the iteration that this arming triggers reads
    [left_up] held and leaves the trace as it is. *)
Lemma changed_iteration_does_not_rearm_witness :
  trace activated = [TimerStart (1000 * 1 / _fps (self activated))%Q] /\
  outcome loop activated = inl (AttributeError "_events") /\
  trace (exec loop activated) = trace activated.
Proof.
  destruct (changed_iteration_does_not_rearm activated released) as (Hout & Htr & _).
  - reflexivity.
  - vm_compute. reflexivity.
  - reflexivity.
  - reflexivity.
  - vm_compute. reflexivity.
  - vm_compute. reflexivity.
  - vm_compute. reflexivity.
  - split; [vm_compute; reflexivity | exact (conj Hout Htr)].
Defined.



End JoystickAbort.

Section JoystickActivation.
Import Py Joystick.

Lemma register_button_run (b : string) (ev : events_dict) (s : world) :
  events (self s) = Some ev ->
  (pressed <- new_signal ;;
   value_change <- new_signal ;;
   events_setitem b
     (<["pressed" := pressed]> (<["value_change" := value_change]> ∅))) s
  = (registered (<[b := button_entry (next_signal s)]> ev) (S (S (next_signal s))) s,
     inr tt).
Proof.
  intros H. unfold bind at 1, new_signal at 1. unfold bind at 1, new_signal at 1.
  unfold events_setitem. rewrite bind_get. cbn [self]. rewrite H. reflexivity.
Qed.

Lemma register_axis_run (a : string) (ev : events_dict) (s : world) :
  events (self s) = Some ev ->
  (value_change <- new_signal ;;
   events_setitem a (<["value_change" := value_change]> ∅)) s
  = (registered (<[a := axis_entry (next_signal s)]> ev) (S (next_signal s)) s, inr tt).
Proof.
  intros H. unfold bind at 1, new_signal at 1.
  unfold events_setitem. rewrite bind_get. cbn [self]. rewrite H. reflexivity.
Qed.

Lemma registered_registered (e1 e2 : events_dict) (k1 k2 : nat) (s : world) :
  registered e2 k2 (registered e1 k1 s) = registered e2 k2 s.
Proof. reflexivity. Qed.

Lemma register_buttons_run (l : list string) :
  forall (s : world) (ev : events_dict),
    events (self s) = Some ev ->
    for_in l tt (fun _ button =>
      pressed <- new_signal ;;
      value_change <- new_signal ;;
      events_setitem button
        (<["pressed" := pressed]> (<["value_change" := value_change]> ∅))) s
    = (registered (register_buttons l (next_signal s) ev)
                  (next_signal s + 2 * length l) s, inr tt).
Proof.
  induction l as [| b l IH]; intros s ev H.
  - cbn. unfold registered, ret. destruct s as [o f r k tr]. cbn in *.
    rewrite Nat.add_0_r. do 2 f_equal. destruct o; cbn in *. rewrite H. reflexivity.
  - cbn [for_in register_buttons length].
    rewrite (bind_returns _ _ _ _ _ (register_button_run b ev s H)).
    rewrite (IH (registered (<[b := button_entry (next_signal s)]> ev)
                            (S (S (next_signal s))) s)
                (<[b := button_entry (next_signal s)]> ev) eq_refl).
    rewrite registered_registered. cbn [next_signal registered].
    replace (S (S (next_signal s)) + 2 * length l) with (next_signal s + 2 * S (length l))
      by lia.
    reflexivity.
Qed.

Lemma register_axes_run (l : list string) :
  forall (s : world) (ev : events_dict),
    events (self s) = Some ev ->
    for_in l tt (fun _ axis =>
      value_change <- new_signal ;;
      events_setitem axis (<["value_change" := value_change]> ∅)) s
    = (registered (register_axes l (next_signal s) ev)
                  (next_signal s + length l) s, inr tt).
Proof.
  induction l as [| a l IH]; intros s ev H.
  - cbn. unfold registered, ret. destruct s as [o f r k tr]. cbn in *.
    rewrite Nat.add_0_r. do 2 f_equal. destruct o; cbn in *. rewrite H. reflexivity.
  - cbn [for_in register_axes length].
    rewrite (bind_returns _ _ _ _ _ (register_axis_run a ev s H)).
    rewrite (IH (registered (<[a := axis_entry (next_signal s)]> ev)
                            (S (next_signal s)) s)
                (<[a := axis_entry (next_signal s)]> ev) eq_refl).
    rewrite registered_registered. cbn [next_signal registered].
    replace (S (next_signal s) + length l) with (next_signal s + S (length l)) by lia.
    reflexivity.
Qed.

Lemma register_buttons_other (l : list string) (k : string) :
  forall (n : nat) (ev : events_dict),
    ~ In k l -> register_buttons l n ev !! k = ev !! k.
Proof.
  induction l as [| b l IH]; intros n ev Hk; [reflexivity |].
  cbn [register_buttons]. rewrite IH by (intros H; apply Hk; right; exact H).
  apply lookup_insert_ne. intros ->. apply Hk. left. reflexivity.
Qed.

Lemma register_buttons_lookup (l : list string) :
  forall (n i : nat) (b : string) (ev : events_dict),
    List.NoDup l -> l !! i = Some b ->
    register_buttons l n ev !! b = Some (button_entry (n + 2 * i)).
Proof.
  induction l as [| b0 l IH]; intros n i b ev Hnd Hi; [discriminate |].
  inversion Hnd as [| ? ? Hnotin Hnd']; subst.
  destruct i as [| i]; cbn in Hi.
  - injection Hi as ->. cbn [register_buttons].
    rewrite register_buttons_other by exact Hnotin.
    rewrite lookup_insert_eq, Nat.add_0_r. reflexivity.
  - cbn [register_buttons]. rewrite (IH _ i b _ Hnd' Hi). do 2 f_equal. lia.
Qed.

Lemma register_axes_other (l : list string) (k : string) :
  forall (n : nat) (ev : events_dict),
    ~ In k l -> register_axes l n ev !! k = ev !! k.
Proof.
  induction l as [| a l IH]; intros n ev Hk; [reflexivity |].
  cbn [register_axes]. rewrite IH by (intros H; apply Hk; right; exact H).
  apply lookup_insert_ne. intros ->. apply Hk. left. reflexivity.
Qed.

Lemma register_axes_lookup (l : list string) :
  forall (n j : nat) (a : string) (ev : events_dict),
    List.NoDup l -> l !! j = Some a ->
    register_axes l n ev !! a = Some (axis_entry (n + j)).
Proof.
  induction l as [| a0 l IH]; intros n j a ev Hnd Hj; [discriminate |].
  inversion Hnd as [| ? ? Hnotin Hnd']; subst.
  destruct j as [| j]; cbn in Hj.
  - injection Hj as ->. cbn [register_axes].
    rewrite register_axes_other by exact Hnotin.
    rewrite lookup_insert_eq, Nat.add_0_r. reflexivity.
  - cbn [register_axes]. rewrite (IH _ j a _ Hnd' Hj). do 2 f_equal. lia.
Qed.

Lemma control_names_distinct : List.NoDup (_button_list ++ _axis_list).
Proof.
  unfold _button_list, _axis_list. cbn [app].
  repeat (constructor;
          [ intros H; repeat (destruct H as [H | H]; [discriminate H |]); exact H | ]).
  constructor.
Qed.

Lemma buttons_are_not_axes (c : string) : In c _button_list -> ~ In c _axis_list.
Proof.
  unfold _button_list, _axis_list. intros Hb Ha.
  repeat (destruct Hb as [<- | Hb];
          [ repeat (destruct Ha as [Ha | Ha]; [discriminate Ha |]); exact Ha | ]).
  exact Hb.
Qed.

Lemma timer_start_eq (s : world) (t : QTimer) :
  timer (self s) = Some t ->
  ~ (_fps (self s) == 0)%Q ->
  timer_start s =
  (after_effect (TimerStart (1000 * 1 / _fps (self s))%Q)
     (with_self (set_timer (Some (mkQTimer (singleShot t) (timeout_to_loop t)
                                           (Some (1000 * 1 / _fps (self s))%Q)))) s),
   inr tt).
Proof.
  intros Ht Hf. unfold timer_start. rewrite bind_get, Ht.
  destruct (Qeq_bool (_fps (self s)) 0) eqn:E.
  - apply Qeq_bool_iff in E. contradiction.
  - reflexivity.
Qed.

(** X8: activation on an instance whose [events] is a dict.  With a rate
    other than zero [on_activate] returns.  Every button then has an entry
    with a [pressed] and a [value_change] signal and every axis one with a
    [value_change] signal, all of them newly created and pairwise distinct
    (they are numbered in the order of creation); entries under other keys
    are kept; the first reading of the device is stored; and the loop is
    started: [enabled] is set and the timer armed. *)
Theorem on_activate_registers_controls :
  forall (w : world) (ev : events_dict),
    events (self w) = Some ev ->
    ~ (_fps (self w) == 0)%Q ->
    let w' := exec on_activate w in
    outcome on_activate w = inr tt /\
    (exists ev',
       events (self w') = Some ev' /\
       (forall i b, _button_list !! i = Some b ->
          ev' !! b = Some (button_entry (next_signal w + 2 * i))) /\
       (forall j a, _axis_list !! j = Some a ->
          ev' !! a = Some (axis_entry (next_signal w + 28 + j))) /\
       (forall k, ~ In k (_button_list ++ _axis_list) -> ev' !! k = ev !! k)) /\
    _last_state (self w') = Some (hw_feed w (hw_reads w)) /\
    hw_reads w' = S (hw_reads w) /\
    enabled (self w') = true /\
    timer (self w') = Some (mkQTimer true true (Some (1000 * 1 / _fps (self w))%Q)) /\
    trace w' = trace w ++ [TimerStart (1000 * 1 / _fps (self w))%Q].
Proof.
  intros w ev Hev Hf w'.
  assert (Hrun : exists s,
            on_activate w = (s, inr tt) /\
            events (self s) =
              Some (register_axes _axis_list (next_signal w + 28)
                      (register_buttons _button_list (next_signal w) ev)) /\
            _last_state (self s) = Some (hw_feed w (hw_reads w)) /\
            hw_reads s = S (hw_reads w) /\
            enabled (self s) = true /\
            timer (self s) = Some (mkQTimer true true (Some (1000 * 1 / _fps (self w))%Q)) /\
            trace s = trace w ++ [TimerStart (1000 * 1 / _fps (self w))%Q]).
  { unfold on_activate. rewrite !bind_modify.
    match goal with
    | |- context [bind (for_in _button_list tt ?body) ?k ?s4] =>
        pose proof (register_buttons_run _button_list s4 ev Hev) as Hb;
        set (w4 := s4) in *
    end.
    rewrite (bind_returns _ _ _ _ _ Hb). clear Hb.
    match goal with
    | |- context [bind (for_in _axis_list tt ?body) ?k ?s5] =>
        pose proof (register_axes_run _axis_list s5 _ eq_refl) as Ha;
        set (w5 := s5) in *
    end.
    rewrite (bind_returns _ _ _ _ _ Ha). clear Ha.
    match goal with
    | |- context [bind hardware_get_state ?k ?s6] => set (w6 := s6) in *
    end.
    assert (Hread : hardware_get_state w6 = (after_read w6, inr (hw_feed w (hw_reads w)))).
    { unfold hardware_get_state. rewrite bind_get. reflexivity. }
    rewrite (bind_returns _ _ _ _ _ Hread). clear Hread.
    rewrite bind_modify. unfold start_loop. rewrite bind_modify.
    match goal with
    | |- context [timer_start ?s8] =>
        rewrite (timer_start_eq s8 (mkQTimer true true None) eq_refl Hf)
    end.
    eexists. split; [reflexivity |].
    conj_split; reflexivity. }
  destruct Hrun as (s & Hs & Hevs & Hlast & Hreads & Hen & Htimer & Htrace).
  assert (Hw' : w' = s) by (unfold w', exec; rewrite Hs; reflexivity).
  rewrite Hw'. conj_split.
  - unfold outcome. rewrite Hs. reflexivity.
  - eexists. split; [exact Hevs |]. conj_split.
    + intros i b Hi.
      assert (Hin : In b _button_list)
        by (apply list_elem_of_In; eapply list_elem_of_lookup_2; exact Hi).
      rewrite register_axes_other by (apply buttons_are_not_axes; exact Hin).
      apply register_buttons_lookup; [| exact Hi].
      exact (NoDup_app_remove_r _ _ control_names_distinct).
    + intros j a Hj.
      apply register_axes_lookup; [| exact Hj].
      exact (NoDup_app_remove_l _ _ control_names_distinct).
    + intros k Hk.
      rewrite register_axes_other by (intros H; apply Hk, in_or_app; right; exact H).
      apply register_buttons_other. intros H. apply Hk, in_or_app. left. exact H.
  - exact Hlast.
  - exact Hreads.
  - exact Hen.
  - exact Htimer.
  - exact Htrace.
Qed.

End JoystickActivation.

Section JoystickControl.
Import Py Joystick.

Lemma on_activate_registers_controls_witness :
  outcome on_activate (boot (set_events (Some ∅) fresh) press_after_first) = inr tt /\
  enabled (self (exec on_activate (boot (set_events (Some ∅) fresh) press_after_first)))
  = true.
Proof.
  destruct (on_activate_registers_controls
              (boot (set_events (Some ∅) fresh) press_after_first) ∅)
    as (Hout & _ & _ & _ & Hen & _).
  - reflexivity.
  - vm_compute. discriminate.
  - exact (conj Hout Hen).
Defined.

Lemma start_loop_without_timer (w : world) :
  timer (self w) = None ->
  start_loop w = (with_self (set_enabled true) w, inl (AttributeError "start")).
Proof.
  intros H. unfold start_loop. rewrite bind_modify. unfold timer_start.
  rewrite bind_get.
  change (timer (self (with_self (set_enabled true) w))) with (timer (self w)).
  rewrite H. reflexivity.
Qed.

(** X4: a start that cannot arm the timer.  If the timer was never created
    or the rate is zero, [start_loop] raises ([AttributeError], or
    [ZeroDivisionError] from [1000*1/self._fps]); nothing is scheduled and
    the timer is as before, but [enabled] has already been set. *)
Theorem start_loop_failure_leaves_enabled :
  forall w : world,
    timer (self w) = None \/ (_fps (self w) == 0)%Q ->
    (outcome start_loop w = inl (AttributeError "start") \/
     outcome start_loop w = inl ZeroDivisionError) /\
    enabled (self (exec start_loop w)) = true /\
    timer (self (exec start_loop w)) = timer (self w) /\
    trace (exec start_loop w) = trace w.
Proof.
  intros w H. unfold outcome, exec, start_loop. rewrite bind_modify.
  unfold timer_start. rewrite bind_get.
  change (timer (self (with_self (set_enabled true) w))) with (timer (self w)).
  change (_fps (self (with_self (set_enabled true) w))) with (_fps (self w)).
  destruct (timer (self w)) as [t |] eqn:Et.
  - destruct H as [H | H]; [discriminate H |].
    apply Qeq_bool_iff in H. rewrite H.
    conj_split; [right; reflexivity | reflexivity | cbn; exact Et | reflexivity].
  - conj_split; [left; reflexivity | reflexivity | cbn; exact Et | reflexivity].
Qed.

Lemma start_loop_failure_leaves_enabled_witness :
  outcome start_loop (boot fresh (fun _ => released)) = inl (AttributeError "start") /\
  enabled (self (exec start_loop (boot fresh (fun _ => released)))) = true.
Proof.
  destruct (start_loop_failure_leaves_enabled (boot fresh (fun _ => released)))
    as ([Hout | Hout] & Hen & _).
  - left. reflexivity.
  - exact (conj Hout Hen).
  - vm_compute in Hout. discriminate Hout.
Defined.

Lemma stop_loop_without_timer (w : world) :
  timer (self w) = None -> stop_loop w = (w, inl (AttributeError "stop")).
Proof.
  intros H. unfold stop_loop. apply bind_raises. unfold timer_stop.
  rewrite bind_get, H. reflexivity.
Qed.

(** X5: an instance that was never activated gets stuck enabled.  Without
    a timer, a call of [start_loop] followed by a call of [stop_loop] (or
    of [on_deactivate]) leaves [enabled] set: the first sets it before it
    fails, the second fails at [self.timer.stop()] before it clears it.
    Nothing is scheduled by either. *)
Theorem never_activated_stays_enabled :
  forall w : world,
    timer (self w) = None ->
    enabled (self (exec (run_calls [CallStartLoop; CallStopLoop]) w)) = true /\
    enabled (self (exec (slot start_loop ;;; slot on_deactivate) w)) = true /\
    trace (exec (run_calls [CallStartLoop; CallStopLoop]) w) = trace w.
Proof.
  intros w H.
  pose proof (start_loop_without_timer w H) as Hstart.
  assert (Hs : exec start_loop w = with_self (set_enabled true) w)
    by (unfold exec; rewrite Hstart; reflexivity).
  assert (Hstop : stop_loop (with_self (set_enabled true) w)
                  = (with_self (set_enabled true) w, inl (AttributeError "stop")))
    by (apply stop_loop_without_timer; exact H).
  assert (Hrun : exec (run_calls [CallStartLoop; CallStopLoop]) w
                 = with_self (set_enabled true) w).
  { cbn [run_calls run_call]. rewrite !exec_slot_bind, exec_ret, Hs.
    unfold exec. rewrite Hstop. reflexivity. }
  assert (Hrun' : exec (slot start_loop ;;; slot on_deactivate) w
                  = with_self (set_enabled true) w).
  { rewrite exec_slot_bind, Hs. unfold exec, slot, on_deactivate.
    rewrite Hstop. reflexivity. }
  rewrite Hrun, Hrun'. conj_split; reflexivity.
Qed.

Lemma never_activated_stays_enabled_witness :
  enabled (self (exec (run_calls [CallStartLoop; CallStopLoop])
                      (boot fresh (fun _ => released)))) = true.
Proof.
  exact (proj1 (never_activated_stays_enabled (boot fresh (fun _ => released)) eq_refl)).
Defined.

(** X6: setting the rate.  [fps(v)] returns [v], a later [fps()] returns
    [v], and with the timer created and [v] other than zero the next
    [start_loop] arms the timer with [1000*1/v]. *)
Theorem fps_sets_rate_of_next_arming :
  forall (w : world) (v : Q) (t : QTimer),
    timer (self w) = Some t ->
    ~ (v == 0)%Q ->
    outcome (fps (Some v)) w = inr v /\
    outcome (fps (Some v) ;;; fps None) w = inr v /\
    outcome (fps (Some v) ;;; start_loop) w = inr tt /\
    trace (exec (fps (Some v) ;;; start_loop) w) = trace w ++ [TimerStart (1000 * 1 / v)%Q].
Proof.
  intros w v t Ht Hv.
  assert (Hfps : fps (Some v) w = (with_self (set_fps v) w, inr v)) by reflexivity.
  conj_split.
  - reflexivity.
  - reflexivity.
  - unfold outcome. rewrite (bind_returns _ _ _ _ _ Hfps).
    unfold start_loop. rewrite bind_modify.
    rewrite (timer_start_eq (with_self (set_enabled true) (with_self (set_fps v) w))
               t Ht Hv).
    reflexivity.
  - unfold exec. rewrite (bind_returns _ _ _ _ _ Hfps).
    unfold start_loop. rewrite bind_modify.
    rewrite (timer_start_eq (with_self (set_enabled true) (with_self (set_fps v) w))
               t Ht Hv).
    reflexivity.
Qed.

Lemma fps_sets_rate_of_next_arming_witness :
  outcome (fps (Some 25%Q) ;;; fps None) idle = inr 25%Q /\
  trace (exec (fps (Some 25%Q) ;;; start_loop) idle) = [TimerStart (1000 * 1 / 25)%Q].
Proof.
  destruct (fps_sets_rate_of_next_arming idle 25%Q (mkQTimer true true None))
    as (_ & Hget & _ & Htr).
  - reflexivity.
  - vm_compute. discriminate.
  - exact (conj Hget Htr).
Defined.

(** X7: what [loop] leaves alone.  Whatever an iteration does, of the
    attributes of the instance it changes at most the timer: [enabled],
    the rate, [events], [_events], the hardware and the stored reading are
    afterwards what they were, and so are the readings that the device
    will deliver. *)
Theorem loop_changes_only_timer :
  forall w : world,
    set_timer (timer (self w)) (self (exec loop w)) = self w /\
    hw_feed (exec loop w) = hw_feed w.
Proof.
  intros w.
  apply (stable_loop
           (fun s => set_timer (timer (self w)) (self s) = self w /\
                     hw_feed s = hw_feed w)).
  - intros s H. exact H.
  - intros s sg H. exact H.
  - intros s H. exact H.
  - apply stable_timer_start_frame.
    + intros s t H. exact H.
    + intros s e H. exact H.
  - split; [| reflexivity]. destruct (self w); reflexivity.
Qed.

End JoystickControl.

(** * Further properties of the camera panel *)

Section CameraMaskContents.
Import Py Camera.
Local Open Scope Q_scope.

Lemma np_setitem_entry {St} (rows cols : nat) (a : image) (v h : Z) (x : Q) (s : St) :
  has_shape rows cols a ->
  (0 <= v < Z.of_nat rows)%Z -> (0 <= h < Z.of_nat cols)%Z ->
  exists a',
    np_setitem a v h x s = (s, inr a') /\ has_shape rows cols a' /\
    forall r c, entry a' r c =
                if ((Z.of_nat r =? v) && (Z.of_nat c =? h))%Z then Some x else entry a r c.
Proof.
  intros [Hrows Hcols] Hv Hh. unfold np_setitem.
  rewrite Hrows, (np_index_inside rows v Hv).
  destruct (a !! Z.to_nat v) as [row |] eqn:Erow;
    [| apply lookup_ge_None in Erow; lia].
  assert (Hrow : length row = cols).
  { rewrite Forall_forall in Hcols. apply Hcols.
    apply list_elem_of_lookup. exists (Z.to_nat v). exact Erow. }
  rewrite Hrow, (np_index_inside cols h Hh).
  eexists. split; [reflexivity |]. split.
  - split.
    + rewrite length_insert. exact Hrows.
    + apply Forall_insert; [exact Hcols |]. rewrite length_insert. exact Hrow.
  - intros r c. unfold entry.
    destruct (Z.eqb_spec (Z.of_nat r) v) as [Er | Er]; cbn [andb].
    + assert (r = Z.to_nat v) by lia. subst r.
      rewrite list_lookup_insert_eq by lia. cbn.
      destruct (Z.eqb_spec (Z.of_nat c) h) as [Ec | Ec].
      * assert (c = Z.to_nat h) by lia. subst c.
        rewrite list_lookup_insert_eq by lia. reflexivity.
      * rewrite list_lookup_insert_ne by lia. rewrite Erow. reflexivity.
    + rewrite list_lookup_insert_ne by lia. reflexivity.
Qed.

(** The inner loop of [create_mask_ROI]: one column. *)
Lemma paint_column {St} (rows cols : nat) (h : Z) (s : St) (vs : list Z) :
  forall m : image,
    has_shape rows cols m ->
    Forall (fun v => (0 <= v < Z.of_nat rows)%Z) vs ->
    (0 <= h < Z.of_nat cols)%Z ->
    exists m',
      for_in vs m (fun mask v => np_setitem mask v h 1) s = (s, inr m') /\
      has_shape rows cols m' /\
      forall r c, entry m' r c =
                  if (Z.of_nat c =? h)%Z && existsb (Z.eqb (Z.of_nat r)) vs
                  then Some 1 else entry m r c.
Proof.
  induction vs as [| v vs IH]; intros m Hm Hvs Hh.
  - exists m. split; [reflexivity |]. split; [exact Hm |].
    intros r c. rewrite andb_false_r. reflexivity.
  - inversion Hvs as [| ? ? Hv Hvs']; subst.
    destruct (np_setitem_entry rows cols m v h 1 s Hm Hv Hh) as (m1 & Hrun & Hm1 & He1).
    destruct (IH m1 Hm1 Hvs' Hh) as (m' & Hrest & Hm' & He').
    exists m'. split; [| split; [exact Hm' |]].
    + cbn [for_in]. rewrite (bind_returns _ _ _ _ _ Hrun). exact Hrest.
    + intros r c. rewrite He', He1. cbn [existsb].
      destruct (Z.of_nat c =? h)%Z, (Z.of_nat r =? v)%Z,
               (existsb (Z.eqb (Z.of_nat r)) vs); reflexivity.
Qed.

(** Both loops: the columns [hs], each over the rows [vs]. *)
Lemma paint_rectangle {St} (rows cols : nat) (s : St) (vs hs : list Z) :
  Forall (fun v => (0 <= v < Z.of_nat rows)%Z) vs ->
  Forall (fun h => (0 <= h < Z.of_nat cols)%Z) hs ->
  forall m : image,
    has_shape rows cols m ->
    exists m',
      for_in hs m (fun mask h => for_in vs mask (fun mask v => np_setitem mask v h 1)) s
      = (s, inr m') /\
      has_shape rows cols m' /\
      forall r c, entry m' r c =
                  if existsb (Z.eqb (Z.of_nat c)) hs && existsb (Z.eqb (Z.of_nat r)) vs
                  then Some 1 else entry m r c.
Proof.
  intros Hvs. induction hs as [| h hs IH]; intros Hhs m Hm.
  - exists m. split; [reflexivity |]. split; [exact Hm | reflexivity].
  - inversion Hhs as [| ? ? Hh Hhs']; subst.
    destruct (paint_column rows cols h s vs m Hm Hvs Hh) as (m1 & Hrun & Hm1 & He1).
    destruct (IH Hhs' m1 Hm1) as (m' & Hrest & Hm' & He').
    exists m'. split; [| split; [exact Hm' |]].
    + cbn [for_in]. rewrite (bind_returns _ _ _ _ _ Hrun). exact Hrest.
    + intros r c. rewrite He', He1. cbn [existsb].
      destruct (Z.of_nat c =? h)%Z, (existsb (Z.eqb (Z.of_nat c)) hs),
               (existsb (Z.eqb (Z.of_nat r)) vs); reflexivity.
Qed.

Lemma existsb_py_range (a b : Z) (i : nat) :
  existsb (Z.eqb (Z.of_nat i)) (py_range a b) = in_range (a, b) i.
Proof.
  unfold in_range. cbn [fst snd]. apply eq_true_iff_eq.
  rewrite existsb_exists, andb_true_iff, Z.leb_le, Z.ltb_lt. split.
  - intros (x & Hx & E). apply Z.eqb_eq in E. subst x.
    pose proof (py_range_bounds a b) as Hb. rewrite Forall_forall in Hb.
    apply Hb, list_elem_of_In, Hx.
  - intros [Hlo Hhi]. exists (Z.of_nat i). split; [| apply Z.eqb_refl].
    unfold py_range. apply in_map_iff. exists (Z.to_nat (Z.of_nat i - a)).
    split; [lia |]. apply in_seq. lia.
Qed.

Lemma lookup_map {A B} (f : A -> B) (l : list A) (i : nat) :
  map f l !! i = option_map f (l !! i).
Proof.
  revert i. induction l as [| x l IH]; intros [| i]; cbn; try reflexivity. apply IH.
Qed.

Lemma entry_of_shape (rows cols : nat) (a : image) (v h : nat) :
  has_shape rows cols a -> (v < rows)%nat -> (h < cols)%nat ->
  exists y, entry a v h = Some y.
Proof.
  intros [Hrows Hcols] Hv Hh. unfold entry.
  destruct (a !! v) as [row |] eqn:Erow; [| apply lookup_ge_None in Erow; lia].
  assert (Hrow : length row = cols).
  { rewrite Forall_forall in Hcols. apply Hcols.
    apply list_elem_of_lookup. exists v. exact Erow. }
  cbn. destruct (row !! h) as [y |] eqn:Ey; [exists y; reflexivity |].
  apply lookup_ge_None in Ey. lia.
Qed.

(** X9: what [create_mask_ROI] returns on a panel that is safe for the
    mask (image of the recorded shape, ROI size not negative).  It returns
    without touching the panel, the mask has the shape of the image, and
    its entry at row [v], column [h] is 1 where both indices lie in the
    index ranges of their axes and 0 everywhere else.  The range of an
    axis runs from [int(pos - size/2)] to [int(pos + size/2)], widened to
    the image border where the ROI reaches it. *)
Theorem create_mask_ROI_paints_index_rectangle :
  forall g : CameraGUI,
    mask_safe g = true ->
    let rows := N.to_nat (snd (_image_size g)) in
    let cols := N.to_nat (fst (_image_size g)) in
    exists mask,
      create_mask_ROI (_raw_data_image g) g = (g, inr mask) /\
      has_shape rows cols mask /\
      forall v h, (v < rows)%nat -> (h < cols)%nat ->
        exists x, entry mask v h = Some x /\ x == (if painted g v h then 1 else 0).
Proof.
  intros g Hsafe rows cols.
  destruct (mask_safe_spec g Hsafe) as (Hsx & Hsy & Hw & Hh & Himg).
  destruct (mask_bounds_inside (fst (pos (roi_xy g))) _ _ Hsx Hw) as [Hh0 Hh1].
  destruct (mask_bounds_inside (snd (pos (roi_xy g))) _ _ Hsy Hh) as [Hv0 Hv1].
  assert (Hzero : has_shape rows cols (map (map (fun x => x * 0)) (_raw_data_image g))).
  { destruct Himg as [Hlen Hrow]. split.
    - rewrite length_map. exact Hlen.
    - apply Forall_map. eapply Forall_impl; [exact Hrow |].
      cbn. intros row E. rewrite length_map. exact E. }
  rewrite create_mask_ROI_loops. cbv zeta.
  set (hb := mask_bounds (fst (pos (roi_xy g))) _ _) in *.
  set (vb := mask_bounds (snd (pos (roi_xy g))) _ _) in *.
  destruct (paint_rectangle rows cols g (py_range (fst vb) (snd vb))
              (py_range (fst hb) (snd hb))) with (m := map (map (fun x => x * 0))
                                                           (_raw_data_image g))
    as (mask & Hrun & Hshape & Hentry).
  - eapply Forall_impl; [apply py_range_bounds |].
    intros v [Hlo Hhi]. unfold rows. rewrite N_nat_Z. lia.
  - eapply Forall_impl; [apply py_range_bounds |].
    intros h [Hlo Hhi]. unfold cols. rewrite N_nat_Z. lia.
  - exact Hzero.
  - exists mask. split; [exact Hrun |]. split; [exact Hshape |].
    intros v h Hv Hc. rewrite Hentry, !existsb_py_range.
    change (in_range (fst hb, snd hb) h && in_range (fst vb, snd vb) v)
      with (painted g v h).
    destruct (painted g v h).
    + exists 1. split; reflexivity.
    + destruct (entry_of_shape rows cols (_raw_data_image g) v h Himg Hv Hc) as [y Hy].
      exists (y * 0). split; [| apply Qmult_0_r].
      unfold entry in *. rewrite lookup_map.
      destruct (_raw_data_image g !! v) as [row |]; [| discriminate Hy].
      cbn in *. rewrite lookup_map, Hy. reflexivity.
Qed.

Lemma create_mask_ROI_paints_index_rectangle_witness :
  exists mask,
    create_mask_ROI (_raw_data_image panel_roi_10_4) panel_roi_10_4
    = (panel_roi_10_4, inr mask) /\
    has_shape 20 20 mask.
Proof.
  destruct (create_mask_ROI_paints_index_rectangle panel_roi_10_4) as (mask & Hrun & Hs & _).
  - vm_compute. reflexivity.
  - exists mask. exact (conj Hrun Hs).
Defined.

End CameraMaskContents.

Section CameraGeometry.
Import Py Camera.
Local Open Scope Q_scope.








End CameraGeometry.

Section CameraHandlers.
Import Py Camera.
Local Open Scope Q_scope.

Lemma update_roi_xy_run (h v : option Q) (g : CameraGUI) :
  mask_safe g = true ->
  exists s,
    update_roi_xy h v g = (s, inr tt) /\
    roi_xy s = set_pos (new_origin (roi_xy g) h v) (roi_xy g) /\
    mask_safe s = true.
Proof.
  intros Hsafe. destruct (update_roi_xy_returns h v g Hsafe) as (Hret & Hs & _).
  exists (exec (update_roi_xy h v) g). conj_split.
  - apply returns_run, Hret.
  - apply roi_after_update_roi_xy.
  - exact Hs.
Qed.

(** X12: moving the cursor by key.  On a panel that is safe for the mask
    [update_from_key(x, y)] returns and leaves the ROI where a single
    [update_roi_xy(x, y)] would put it: centred on the given coordinates,
    with the origin kept on an axis that is omitted; the panel stays
    safe. *)
Theorem key_move_places_roi :
  forall (g : CameraGUI) (x y : option Q),
    mask_safe g = true ->
    outcome (update_from_key x y) g = inr tt /\
    roi_xy (exec (update_from_key x y) g) =
      set_pos (new_origin (roi_xy g) x y) (roi_xy g) /\
    roi_xy (exec (update_from_key x y) g) = roi_xy (exec (update_roi_xy x y) g) /\
    mask_safe (exec (update_from_key x y) g) = true.
Proof.
  intros g x y Hsafe.
  destruct mask_safe_frame as (Hw & _).
  assert (Hx : exists s1,
            match x with
            | Some x => update_roi_xy (Some x) None ;;; update_input_x x
            | None => ret tt
            end g = (s1, inr tt) /\
            roi_xy s1 = set_pos (new_origin (roi_xy g) x None) (roi_xy g) /\
            mask_safe s1 = true).
  { destruct x as [x |].
    - destruct (update_roi_xy_run (Some x) None g Hsafe) as (s & Hrun & Hroi & Hs).
      eexists. split; [rewrite (bind_returns _ _ _ _ _ Hrun); reflexivity |].
      split; [exact Hroi | exact Hs].
    - exists g. conj_split; [reflexivity | destruct (roi_xy g) as [[? ?] ? ?]; reflexivity
                            | exact Hsafe]. }
  destruct Hx as (s1 & Hrun1 & Hroi1 & Hs1).
  assert (Hy : exists s2,
            match y with
            | Some y => update_roi_xy None (Some y) ;;; update_input_y y
            | None => ret tt
            end s1 = (s2, inr tt) /\
            roi_xy s2 = set_pos (new_origin (roi_xy s1) None y) (roi_xy s1) /\
            mask_safe s2 = true).
  { destruct y as [y |].
    - destruct (update_roi_xy_run None (Some y) s1 Hs1) as (s & Hrun & Hroi & Hs).
      eexists. split; [rewrite (bind_returns _ _ _ _ _ Hrun); reflexivity |].
      split; [exact Hroi | exact Hs].
    - exists s1. conj_split; [reflexivity | destruct (roi_xy s1) as [[? ?] ? ?]; reflexivity
                             | exact Hs1]. }
  destruct Hy as (s2 & Hrun2 & Hroi2 & Hs2).
  assert (Hroi : roi_xy s2 = set_pos (new_origin (roi_xy g) x y) (roi_xy g)).
  { rewrite Hroi2, Hroi1. destruct x, y; reflexivity. }
  assert (Hrun : update_from_key x y g = update_intensity s2).
  { unfold update_from_key.
    rewrite (bind_returns _ _ _ _ _ Hrun1), (bind_returns _ _ _ _ _ Hrun2). reflexivity. }
  assert (Hfinal : roi_xy (exec (update_from_key x y) g)
                   = set_pos (new_origin (roi_xy g) x y) (roi_xy g)).
  { unfold exec. rewrite Hrun.
    apply (stable_update_intensity
             (fun s => roi_xy s = set_pos (new_origin (roi_xy g) x y) (roi_xy g))).
    - apply roi_is_frame.
    - exact Hroi. }
  conj_split.
  - unfold outcome. rewrite Hrun. apply update_intensity_returns, Hs2.
  - exact Hfinal.
  - rewrite Hfinal. symmetry. apply roi_after_update_roi_xy.
  - unfold exec. rewrite Hrun. apply (stable_update_intensity _ Hw). exact Hs2.
Qed.

Lemma key_move_places_roi_witness :
  outcome (update_from_key (Some 7) (Some (5#2))) panel = inr tt /\
  roi_xy (exec (update_from_key (Some 7) (Some (5#2))) panel) =
    set_pos (7 - 1 * (1#2), (5#2) - 1 * (1#2)) (roi_xy panel).
Proof.
  destruct (key_move_places_roi panel (Some 7) (Some (5#2))) as (Hout & Hroi & _).
  - vm_compute. reflexivity.
  - exact (conj Hout Hroi).
Defined.

Lemma rectangular_safe (img : image) (g : CameraGUI) :
  rectangular img = true ->
  Qle_bool 0 (fst (size (roi_xy g))) && Qle_bool 0 (snd (size (roi_xy g))) = true ->
  mask_safe (set_image img (shape1 img, shape0 img) g) = true.
Proof.
  intros Hrect Hsize. unfold mask_safe.
  cbn [set_image roi_xy _image_size _raw_data_image fst snd].
  rewrite Hsize. cbn [andb].
  destruct img as [| row rest]; [discriminate Hrect |].
  cbn [rectangular] in Hrect. apply andb_true_iff in Hrect as [Hrow Hrest].
  apply Nat.leb_le in Hrow.
  unfold shape0, shape1. cbn [length forallb].
  rewrite !andb_true_iff. conj_split.
  - apply N.leb_le. lia.
  - apply N.leb_le. lia.
  - apply N.eqb_refl.
  - apply N.eqb_refl.
  - rewrite forallb_forall in *. intros r Hr. specialize (Hrest r Hr).
    apply Nat.eqb_eq in Hrest. rewrite Hrest. apply N.eqb_refl.
Qed.

(** X13: a new image.  When [update_data] takes over a rectangular image
    (at least one pixel, rows of one length) on a panel whose ROI has no
    negative extent, it records the image together with its width and
    height, the panel is safe for the mask afterwards, and the intensity
    update in it returns. *)
Theorem update_data_keeps_shape_in_step :
  forall (g : CameraGUI) (img : image),
    rectangular img = true ->
    Qle_bool 0 (fst (size (roi_xy g))) && Qle_bool 0 (snd (size (roi_xy g))) = true ->
    outcome (update_data img) g = inr tt /\
    _raw_data_image (exec (update_data img) g) = img /\
    _image_size (exec (update_data img) g) = (shape1 img, shape0 img) /\
    mask_safe (exec (update_data img) g) = true.
Proof.
  intros g img Hrect Hsize.
  pose proof (rectangular_safe img g Hrect Hsize) as Hsafe.
  destruct mask_safe_frame as (Hw & _).
  unfold outcome, exec, update_data. rewrite bind_modify.
  conj_split.
  - apply update_intensity_returns, Hsafe.
  - apply (stable_update_intensity (fun s => _raw_data_image s = img));
      [intros s f H; exact H | reflexivity].
  - apply (stable_update_intensity (fun s => _image_size s = (shape1 img, shape0 img)));
      [intros s f H; exact H | reflexivity].
  - apply (stable_update_intensity _ Hw). exact Hsafe.
Qed.

Lemma update_data_keeps_shape_in_step_witness :
  outcome (update_data (zeros 3 5)) panel = inr tt /\
  _image_size (exec (update_data (zeros 3 5)) panel) = (5%N, 3%N).
Proof.
  destruct (update_data_keeps_shape_in_step panel (zeros 3 5)) as (Hout & _ & Hsz & _).
  - reflexivity.
  - reflexivity.
  - exact (conj Hout Hsz).
Defined.

End CameraHandlers.

Section CameraEvents.
Import Py Camera.
Local Open Scope Q_scope.

Lemma boxes_ignore_lines (x : Q * Q * (Q * Q)) :
  ignores_lines (fun s => position_boxes s = x).
Proof. intros g f H. split; exact H. Qed.

Lemma stable_boxes_update_intensity (x : Q * Q * (Q * Q)) :
  stable (fun s => position_boxes s = x) update_intensity.
Proof.
  unfold update_intensity.
  pose proof (stable_create_mask_ROI (fun s => position_boxes s = x)) as Hmask.
  stable_with ltac:(intros ? H; exact H).
Qed.

(** What the slots of [sigRegionChanged] do to the position boxes. *)
Lemma boxes_after_region_changed (g : CameraGUI) :
  position_boxes (exec (emit sigRegionChanged) g) =
  if userDrag (roi_xy g)
  then let cx := fst (pos (roi_xy g)) + (1#2) * fst (size (roi_xy g)) in
       let cy := snd (pos (roi_xy g)) + (1#2) * snd (size (roi_xy g)) in
       (SpinBox.bound (x_current_InputWidget_pixels (_mw g)) cx,
        SpinBox.bound (y_current_InputWidget_pixels (_mw g)) cy,
        (SpinBox.bound (x_current_InputWidget_meter (_mw g)) (cx * _pixel_size_x g),
         SpinBox.bound (y_current_InputWidget_meter (_mw g)) (cy * _pixel_size_y g)))
  else position_boxes g.
Proof.
  unfold sigRegionChanged. cbn [emit]. rewrite !exec_slot_bind, exec_ret.
  apply (stable_adjust_vline _ (boxes_ignore_lines _)).
  apply (stable_adjust_hline _ (boxes_ignore_lines _)).
  unfold regionUpdateInfo. rewrite exec_get_bind.
  destruct (userDrag (roi_xy g)).
  - unfold sigUserRegionUpdate. cbn [emit]. rewrite exec_slot_bind, exec_ret.
    unfold update_from_roi_xy. rewrite exec_get_bind. cbv zeta.
    rewrite (exec_bind_returns _ _ _ tt) by reflexivity.
    apply exec_bind; [reflexivity |].
    intros _. apply stable_boxes_update_intensity.
  - reflexivity.
Qed.

Lemma boxes_after_machine_setPos (g : CameraGUI) (p : Q * Q) :
  userDrag (roi_xy g) = false ->
  position_boxes (exec (setPos p) g) = position_boxes g.
Proof.
  intros Hdrag. unfold setPos. rewrite exec_get_bind, exec_modify_bind.
  destruct (same_point p (pos (roi_xy g))); [reflexivity |].
  rewrite boxes_after_region_changed.
  cbn [userDrag roi_xy with_roi set_pos]. rewrite Hdrag. reflexivity.
Qed.

(** X14: who moves the position boxes.  When [sigRegionChanged] is
    emitted, its slots reach the pixel and meter boxes only while the user
    drags: then each box is handed the centre of the ROI, in pixels and,
    times the pixel size, in meters, and shows it held in its range.
    Outside a drag the four boxes keep what they show; so they do when the
    program moves the ROI with [setPos] or [update_roi_xy]. *)
Theorem region_change_reaches_boxes_only_in_drag :
  forall g : CameraGUI,
    position_boxes (exec (emit sigRegionChanged) g) =
      (if userDrag (roi_xy g)
       then let cx := fst (pos (roi_xy g)) + (1#2) * fst (size (roi_xy g)) in
            let cy := snd (pos (roi_xy g)) + (1#2) * snd (size (roi_xy g)) in
            (SpinBox.bound (x_current_InputWidget_pixels (_mw g)) cx,
             SpinBox.bound (y_current_InputWidget_pixels (_mw g)) cy,
             (SpinBox.bound (x_current_InputWidget_meter (_mw g)) (cx * _pixel_size_x g),
              SpinBox.bound (y_current_InputWidget_meter (_mw g)) (cy * _pixel_size_y g)))
       else position_boxes g) /\
    (userDrag (roi_xy g) = false ->
     (forall p, position_boxes (exec (setPos p) g) = position_boxes g) /\
     (forall h v, position_boxes (exec (update_roi_xy h v) g) = position_boxes g)).
Proof.
  intros g. split; [apply boxes_after_region_changed |].
  intros Hdrag. split.
  - intros p. apply boxes_after_machine_setPos, Hdrag.
  - intros h v. unfold update_roi_xy. rewrite exec_get_bind. cbv zeta.
    apply (exec_bind (fun s => position_boxes s = position_boxes g)).
    + apply boxes_after_machine_setPos, Hdrag.
    + intros _. apply stable_boxes_update_intensity.
Qed.

(** On the panel that [createCrosshair] leaves (20 pixels wide, pixels of
    1/2 unit): a move by the program to the centre (30, 7) leaves the boxes
    at the initial position; with the ROI at (29.5, 6.5) in a drag, the
    boxes are handed the centre (30, 7) and show 20 pixels and 10 units
    horizontally, the upper ends of their ranges. *)
Lemma region_change_reaches_boxes_only_in_drag_witness :
  position_boxes (exec (update_roi_xy (Some 30) (Some 7)) panel) = position_boxes panel /\
  position_boxes (exec (emit sigRegionChanged)
                       (with_roi (fun _ => mkCrossROI (59#2, 13#2) (1, 1) true) panel))
  = (inject_Z 20, (13#2) + (1#2) * 1,
     (inject_Z 20 * (1#2), ((13#2) + (1#2) * 1) * 3)).
Proof.
  destruct (region_change_reaches_boxes_only_in_drag panel) as [_ Hmachine].
  destruct (region_change_reaches_boxes_only_in_drag
              (with_roi (fun _ => mkCrossROI (59#2, 13#2) (1, 1) true) panel))
    as [Hdrag _].
  split.
  - apply Hmachine. reflexivity.
  - rewrite Hdrag. reflexivity.
Defined.

Lemma safe_with_size (g : CameraGUI) (sx sy : Q) :
  mask_safe g = true ->
  Qle_bool 0 sx && Qle_bool 0 sy = true ->
  mask_safe (with_roi (set_size (sx, sy)) g) = true.
Proof.
  unfold mask_safe. cbn [with_roi roi_xy set_size size _image_size _raw_data_image fst snd].
  intros Hg Hs. rewrite Hs.
  rewrite !andb_true_iff in Hg. rewrite !andb_true_iff. tauto.
Qed.

Lemma safe_size (g : CameraGUI) :
  mask_safe g = true ->
  Qle_bool 0 (fst (size (roi_xy g))) && Qle_bool 0 (snd (size (roi_xy g))) = true.
Proof.
  unfold mask_safe. rewrite !andb_true_iff. tauto.
Qed.

Lemma stable_safe_handle (e : gui_event) :
  benign e = true -> stable (fun g => mask_safe g = true) (handle e).
Proof.
  intros Hben.
  destruct mask_safe_frame as (Hw & Hl & Hp).
  pose proof (stable_setPos _ Hw Hl Hp) as HsetPos.
  pose proof (stable_update_roi_xy _ Hw Hl Hp) as Hroi.
  pose proof (stable_sigRegionChanged _ Hw Hl) as Hchanged.
  pose proof (stable_sigRegionChangeFinished _ Hw Hl Hp) as Hfinished.
  pose proof (stable_update_intensity _ Hw) as Hint.
  pose proof (stable_update_input_x _ Hw) as Hix.
  pose proof (stable_update_input_y _ Hw) as Hiy.
  pose proof (@stable_py_div CameraGUI (fun g => mask_safe g = true)) as Hdiv.
  destruct e; cbn [handle benign] in *.
  - unfold sigRegionChangeStarted, startUserDrag.
    stable_with ltac:(intros s H; apply (Hp s (pos (roi_xy s)) true H)).
  - apply HsetPos.
  - exact Hfinished.
  - unfold update_from_input_x. stable_with ltac:(intros s H; apply Hw; exact H).
  - unfold update_from_input_y. stable_with ltac:(intros s H; apply Hw; exact H).
  - unfold update_from_input_x_meter. stable_with ltac:(intros s H; apply Hw; exact H).
  - unfold update_from_input_y_meter. stable_with ltac:(intros s H; apply Hw; exact H).
  - intros g Hg. rewrite exec_modify_bind, exec_slot.
    unfold update_from_input_xy_size. rewrite exec_get_bind. cbv zeta.
    cbn [cursor_x_size_input cursor_y_size_input _mw with_mw set_cursor_size].
    apply exec_bind; [| intros _; exact Hint].
    unfold setSize. rewrite exec_get_bind, exec_modify_bind.
    apply exec_bind; [| intros _; exact Hfinished].
    assert (Hsized : mask_safe (with_roi (set_size (sx, sy))
                                  (with_mw (set_cursor_size sx sy) g)) = true)
      by (apply safe_with_size; [apply Hw; exact Hg | exact Hben]).
    match goal with |- context [if ?b then _ else _] => destruct b end;
      [exact Hsized | apply Hchanged, Hsized].
  - unfold update_from_key. stable_with ltac:(intros s H; apply Hw; exact H).
  - intros g Hg. rewrite exec_slot. unfold update_data. rewrite exec_modify_bind.
    apply Hint. apply rectangular_safe; [exact Hben | apply safe_size, Hg].
Qed.

(** X15: a safe panel stays safe.  Starting from a panel that is safe for
    the mask, after any sequence of drags, edits of the position boxes, key
    moves, edits of the cursor size to sizes that are not negative and
    arrivals of rectangular images, the panel is still safe, so that the
    next [update_intensity] returns instead of raising [IndexError]. *)
Theorem benign_events_keep_panel_safe :
  forall (g : CameraGUI) (es : list gui_event),
    mask_safe g = true ->
    forallb benign es = true ->
    mask_safe (exec (handle_all es) g) = true /\
    outcome update_intensity (exec (handle_all es) g) = inr tt.
Proof.
  intros g es Hsafe Hben.
  assert (H : mask_safe (exec (handle_all es) g) = true).
  { revert g Hsafe. induction es as [| e es IH]; intros g Hsafe; [exact Hsafe |].
    cbn [forallb] in Hben. apply andb_true_iff in Hben as [He Hes].
    cbn [handle_all].
    apply (exec_bind (fun s => mask_safe s = true)).
    - apply (stable_safe_handle e He). exact Hsafe.
    - intros _ s Hs. apply (IH Hes s Hs). }
  split; [exact H | apply update_intensity_returns, H].
Qed.

Lemma benign_events_keep_panel_safe_witness :
  outcome update_intensity
    (exec (handle_all [DragStart; DragMove (30, -4); DragFinish;
                       EditCursorSize 3 (7#2); KeyMove (Some 2) None;
                       NewImage (zeros 4 6)]) panel) = inr tt.
Proof.
  destruct (benign_events_keep_panel_safe panel
              [DragStart; DragMove (30, -4); DragFinish;
               EditCursorSize 3 (7#2); KeyMove (Some 2) None;
               NewImage (zeros 4 6)]) as [_ H].
  - vm_compute. reflexivity.
  - vm_compute. reflexivity.
  - exact H.
Defined.

End CameraEvents.

Section CameraMeterEdge.
Import Py Camera.
Local Open Scope Q_scope.

Lemma py_div_by_zero (a b : Q) (g : CameraGUI) :
  b == 0 -> py_div a b g = (g, inl ZeroDivisionError).
Proof.
  intros Hb. unfold py_div. apply Qeq_bool_iff in Hb. rewrite Hb. reflexivity.
Qed.

(** X16: an edit in meters with pixel size zero.  When the pixel size of
    an axis is configured as zero, the handler of the meter box of that
    axis raises [ZeroDivisionError] at its division, before anything is
    changed: the ROI, the lines and all boxes are as before the call. *)
Theorem meter_edit_with_zero_pixel_size :
  forall g : CameraGUI,
    (_pixel_size_x g == 0 ->
     update_from_input_x_meter g = (g, inl ZeroDivisionError)) /\
    (_pixel_size_y g == 0 ->
     update_from_input_y_meter g = (g, inl ZeroDivisionError)).
Proof.
  intros g. split; intros Hz.
  - unfold update_from_input_x_meter. rewrite bind_get.
    apply bind_raises, py_div_by_zero, Hz.
  - unfold update_from_input_y_meter. rewrite bind_get. cbv zeta.
    apply bind_raises, py_div_by_zero, Hz.
Qed.

Lemma meter_edit_with_zero_pixel_size_witness :
  update_from_input_x_meter (with_pixel_size 0 0 panel)
  = (with_pixel_size 0 0 panel, inl ZeroDivisionError) /\
  update_from_input_y_meter (with_pixel_size 0 0 panel)
  = (with_pixel_size 0 0 panel, inl ZeroDivisionError).
Proof.
  destruct (meter_edit_with_zero_pixel_size (with_pixel_size 0 0 panel)) as [Hx Hy].
  split; [apply Hx | apply Hy]; reflexivity.
Defined.

End CameraMeterEdge.


(** * The handlers in binary64 *)

Section Binary64Frame.
Import Py.
Local Open Scope float_scope.

Ltac unfold_handlers :=
  unfold Camera64.update_roi_xy, Camera64.setPos, Camera64.sigRegionChanged,
    Camera64.regionUpdateInfo, Camera64.sigUserRegionUpdate,
    Camera64.sigMachineRegionUpdate, Camera64.update_from_roi_xy,
    Camera64.update_input_x, Camera64.update_input_y, Camera64.update_intensity,
    Camera64.create_mask_ROI, Camera64.adjust, Camera64.py_int.

Lemma stable64_roi_region_changed (R : Camera64.CrossROI) :
  stable (fun s => Camera64.roi_xy s = R) (emit Camera64.sigRegionChanged).
Proof.
  pose proof (@stable_np_setitem Camera64.CameraGUI
                (fun s => Camera64.roi_xy s = R)) as Hset.
  unfold_handlers. stable_with ltac:(intros ? H; exact H).
Qed.

Lemma stable64_roi_update_intensity (R : Camera64.CrossROI) :
  stable (fun s => Camera64.roi_xy s = R) Camera64.update_intensity.
Proof.
  pose proof (@stable_np_setitem Camera64.CameraGUI
                (fun s => Camera64.roi_xy s = R)) as Hset.
  unfold_handlers. stable_with ltac:(intros ? H; exact H).
Qed.

Lemma roi64_after_setPos (p : float * float) (g : Camera64.CameraGUI) :
  Camera64.roi_xy (exec (Camera64.setPos p) g) = Camera64.set_pos p (Camera64.roi_xy g).
Proof.
  unfold Camera64.setPos. rewrite exec_get_bind, exec_modify_bind.
  destruct (Camera64.same_point p (Camera64.pos (Camera64.roi_xy g)));
    [reflexivity |].
  apply stable64_roi_region_changed. reflexivity.
Qed.

Lemma roi64_after_update_roi_xy (h v : option float) (g : Camera64.CameraGUI) :
  Camera64.roi_xy (exec (Camera64.update_roi_xy h v) g) =
  Camera64.set_pos (Camera64.new_origin (Camera64.roi_xy g) h v) (Camera64.roi_xy g).
Proof.
  change (exec (Camera64.update_roi_xy h v) g)
    with (exec (Camera64.setPos (Camera64.new_origin (Camera64.roi_xy g) h v) ;;;
                Camera64.update_intensity) g).
  apply (exec_bind (fun s => Camera64.roi_xy s =
                             Camera64.set_pos
                               (Camera64.new_origin (Camera64.roi_xy g) h v)
                               (Camera64.roi_xy g))).
  - apply roi64_after_setPos.
  - intros _. apply stable64_roi_update_intensity.
Qed.

(** The handlers change neither the ranges of the boxes nor the pixel
    sizes. *)
Lemma stable64_setup_update_roi_xy R (h v : option float) :
  stable (fun s => Camera64.setup s = R) (Camera64.update_roi_xy h v).
Proof.
  pose proof (@stable_np_setitem Camera64.CameraGUI
                (fun s => Camera64.setup s = R)) as Hset.
  unfold_handlers. stable_with ltac:(intros ? H; exact H).
Qed.

Lemma setup_after_update_roi_xy (h v : option float) (g : Camera64.CameraGUI) :
  Camera64.setup (exec (Camera64.update_roi_xy h v) g) = Camera64.setup g.
Proof. apply (stable64_setup_update_roi_xy (Camera64.setup g)). reflexivity. Qed.

Lemma setup_boxes (g g' : Camera64.CameraGUI) :
  Camera64.setup g = Camera64.setup g' ->
  Camera64.range (Camera64.x_current_InputWidget_pixels (Camera64._mw g))
  = Camera64.range (Camera64.x_current_InputWidget_pixels (Camera64._mw g')) /\
  Camera64.range (Camera64.y_current_InputWidget_pixels (Camera64._mw g))
  = Camera64.range (Camera64.y_current_InputWidget_pixels (Camera64._mw g')) /\
  Camera64.range (Camera64.x_current_InputWidget_meter (Camera64._mw g))
  = Camera64.range (Camera64.x_current_InputWidget_meter (Camera64._mw g')) /\
  Camera64.range (Camera64.y_current_InputWidget_meter (Camera64._mw g))
  = Camera64.range (Camera64.y_current_InputWidget_meter (Camera64._mw g')) /\
  Camera64._pixel_size_x g = Camera64._pixel_size_x g' /\
  Camera64._pixel_size_y g = Camera64._pixel_size_y g'.
Proof.
  unfold Camera64.setup. intros H.
  apply (f_equal (fun t => (fst (fst (fst t)), snd (fst (fst t)),
                            (fst (snd (fst t)), snd (snd (fst t))),
                            (fst (snd t), snd (snd t))))) in H.
  cbn [fst snd] in H. conj_split; congruence.
Qed.

Lemma bound64_range (b b' : Camera64.SpinBox.t) (v : float) :
  Camera64.range b = Camera64.range b' ->
  Camera64.SpinBox.bound b v = Camera64.SpinBox.bound b' v.
Proof.
  unfold Camera64.range, Camera64.SpinBox.bound. intros H.
  injection H as Hmin Hmax. rewrite Hmin, Hmax. reflexivity.
Qed.

Lemma py_div64_returns {St} (a b : float) (s : St) :
  (b =? 0) = false -> Camera64.py_div a b s = (s, inr (a / b)).
Proof. intros H. unfold Camera64.py_div. rewrite H. reflexivity. Qed.

(** A handler that has returned has gone through [update_roi_xy] and has
    then handed the converted value to the box of the other unit. *)
Lemma update_from_input_x64 (g : Camera64.CameraGUI) :
  outcome Camera64.update_from_input_x g = inr tt ->
  let g' := exec Camera64.update_from_input_x g in
  Camera64.setup g' = Camera64.setup g /\
  Camera64.SpinBox.value (Camera64.x_current_InputWidget_meter (Camera64._mw g')) =
    Camera64.SpinBox.bound (Camera64.x_current_InputWidget_meter (Camera64._mw g))
      (Camera64.SpinBox.value (Camera64.x_current_InputWidget_pixels (Camera64._mw g))
       * Camera64._pixel_size_x g).
Proof.
  intros Hout.
  set (x_pos := Camera64.SpinBox.value
                  (Camera64.x_current_InputWidget_pixels (Camera64._mw g))) in *.
  assert (Hstep : Camera64.update_from_input_x g =
            (Camera64.update_roi_xy (Some x_pos) None ;;;
             modify (Camera64.with_mw
                       (Camera64.set_x_meter
                          (Camera64.SpinBox.setValue
                             (x_pos * Camera64._pixel_size_x g))))) g)
    by reflexivity.
  unfold outcome in Hout. rewrite Hstep in Hout. fold (outcome
    (Camera64.update_roi_xy (Some x_pos) None ;;;
     modify (Camera64.with_mw
               (Camera64.set_x_meter
                  (Camera64.SpinBox.setValue (x_pos * Camera64._pixel_size_x g))))) g)
    in Hout.
  destruct (outcome_bind_inr _ _ _ _ Hout) as ([] & Hrun & _).
  pose proof (setup_after_update_roi_xy (Some x_pos) None g) as Hsetup.
  remember (exec (Camera64.update_roi_xy (Some x_pos) None) g) as s0 eqn:Es0.
  cbv zeta. unfold exec. rewrite Hstep, (bind_returns _ _ _ _ _ Hrun).
  destruct (setup_boxes _ _ Hsetup) as (_ & _ & Hxm & _).
  split; [exact Hsetup |].
  cbn [fst modify Camera64._mw Camera64.with_mw Camera64.set_x_meter
       Camera64.x_current_InputWidget_meter Camera64.SpinBox.setValue
       Camera64.SpinBox.value].
  apply bound64_range, Hxm.
Qed.

Lemma update_from_input_y64 (g : Camera64.CameraGUI) :
  outcome Camera64.update_from_input_y g = inr tt ->
  let g' := exec Camera64.update_from_input_y g in
  Camera64.setup g' = Camera64.setup g /\
  Camera64.SpinBox.value (Camera64.y_current_InputWidget_meter (Camera64._mw g')) =
    Camera64.SpinBox.bound (Camera64.y_current_InputWidget_meter (Camera64._mw g))
      (Camera64.SpinBox.value (Camera64.y_current_InputWidget_pixels (Camera64._mw g))
       * Camera64._pixel_size_y g).
Proof.
  intros Hout.
  set (y_pos := Camera64.SpinBox.value
                  (Camera64.y_current_InputWidget_pixels (Camera64._mw g))) in *.
  assert (Hstep : Camera64.update_from_input_y g =
            (Camera64.update_roi_xy None (Some y_pos) ;;;
             modify (Camera64.with_mw
                       (Camera64.set_y_meter
                          (Camera64.SpinBox.setValue
                             (y_pos * Camera64._pixel_size_y g))))) g)
    by reflexivity.
  unfold outcome in Hout. rewrite Hstep in Hout. fold (outcome
    (Camera64.update_roi_xy None (Some y_pos) ;;;
     modify (Camera64.with_mw
               (Camera64.set_y_meter
                  (Camera64.SpinBox.setValue (y_pos * Camera64._pixel_size_y g))))) g)
    in Hout.
  destruct (outcome_bind_inr _ _ _ _ Hout) as ([] & Hrun & _).
  pose proof (setup_after_update_roi_xy None (Some y_pos) g) as Hsetup.
  remember (exec (Camera64.update_roi_xy None (Some y_pos)) g) as s0 eqn:Es0.
  cbv zeta. unfold exec. rewrite Hstep, (bind_returns _ _ _ _ _ Hrun).
  destruct (setup_boxes _ _ Hsetup) as (_ & _ & _ & Hym & _).
  split; [exact Hsetup |].
  cbn [fst modify Camera64._mw Camera64.with_mw Camera64.set_y_meter
       Camera64.y_current_InputWidget_meter Camera64.SpinBox.setValue
       Camera64.SpinBox.value].
  apply bound64_range, Hym.
Qed.

Lemma update_from_input_x_meter64 (g : Camera64.CameraGUI) :
  (Camera64._pixel_size_x g =? 0) = false ->
  let x_pos := Camera64.SpinBox.value
                 (Camera64.x_current_InputWidget_meter (Camera64._mw g))
               / Camera64._pixel_size_x g in
  let g' := exec Camera64.update_from_input_x_meter g in
  Camera64.roi_xy g' =
    Camera64.set_pos (Camera64.new_origin (Camera64.roi_xy g) (Some x_pos) None)
                     (Camera64.roi_xy g) /\
  (outcome Camera64.update_from_input_x_meter g = inr tt ->
   Camera64.setup g' = Camera64.setup g /\
   Camera64.SpinBox.value (Camera64.x_current_InputWidget_pixels (Camera64._mw g')) =
     Camera64.SpinBox.bound (Camera64.x_current_InputWidget_pixels (Camera64._mw g))
                            x_pos).
Proof.
  intros Hz x_pos.
  assert (Hstep : Camera64.update_from_input_x_meter g =
            (Camera64.update_roi_xy (Some x_pos) None ;;;
             modify (Camera64.with_mw
                       (Camera64.set_x_pixels (Camera64.SpinBox.setValue x_pos)))) g).
  { unfold Camera64.update_from_input_x_meter. rewrite bind_get.
    rewrite (bind_returns _ _ _ _ _ (py_div64_returns _ _ g Hz)). reflexivity. }
  cbv zeta. unfold outcome, exec. rewrite Hstep.
  match goal with
  | |- context [fst (bind ?c ?k g)] =>
      change (fst (bind c k g)) with (exec (bind c k) g);
      change (snd (bind c k g)) with (outcome (bind c k) g)
  end.
  split.
  - apply (exec_bind (fun s => Camera64.roi_xy s =
                               Camera64.set_pos
                                 (Camera64.new_origin (Camera64.roi_xy g) (Some x_pos) None)
                                 (Camera64.roi_xy g))).
    + apply roi64_after_update_roi_xy.
    + intros _. apply stable_modify. intros ? H. exact H.
  - intros Hout. destruct (outcome_bind_inr _ _ _ _ Hout) as ([] & Hrun & _).
    pose proof (setup_after_update_roi_xy (Some x_pos) None g) as Hsetup.
    remember (exec (Camera64.update_roi_xy (Some x_pos) None) g) as s0 eqn:Es0.
    unfold exec. rewrite (bind_returns _ _ _ _ _ Hrun).
    destruct (setup_boxes _ _ Hsetup) as (Hxp & _).
    split; [exact Hsetup |].
    cbn [fst modify Camera64._mw Camera64.with_mw Camera64.set_x_pixels
         Camera64.x_current_InputWidget_pixels Camera64.SpinBox.setValue
         Camera64.SpinBox.value].
    apply bound64_range, Hxp.
Qed.

Lemma update_from_input_y_meter64 (g : Camera64.CameraGUI) :
  (Camera64._pixel_size_y g =? 0) = false ->
  let y_pos := Camera64.SpinBox.value
                 (Camera64.y_current_InputWidget_meter (Camera64._mw g))
               / Camera64._pixel_size_y g in
  let g' := exec Camera64.update_from_input_y_meter g in
  Camera64.roi_xy g' =
    Camera64.set_pos (Camera64.new_origin (Camera64.roi_xy g) None (Some y_pos))
                     (Camera64.roi_xy g) /\
  (outcome Camera64.update_from_input_y_meter g = inr tt ->
   Camera64.setup g' = Camera64.setup g /\
   Camera64.SpinBox.value (Camera64.y_current_InputWidget_pixels (Camera64._mw g')) =
     Camera64.SpinBox.bound (Camera64.y_current_InputWidget_pixels (Camera64._mw g))
                            y_pos).
Proof.
  intros Hz y_pos.
  set (y_pos_meter := Camera64.SpinBox.value
                        (Camera64.y_current_InputWidget_meter (Camera64._mw g))) in *.
  assert (Hstep : Camera64.update_from_input_y_meter g =
            (Camera64.update_roi_xy None (Some y_pos) ;;;
             g' <- get ;;
             y_pos' <- Camera64.py_div y_pos_meter (Camera64._pixel_size_y g') ;;
             modify (Camera64.with_mw
                       (Camera64.set_y_pixels (Camera64.SpinBox.setValue y_pos')))) g).
  { unfold Camera64.update_from_input_y_meter. rewrite bind_get. cbv zeta.
    fold y_pos_meter.
    rewrite (bind_returns _ _ _ _ _ (py_div64_returns _ _ g Hz)). reflexivity. }
  cbv zeta. unfold outcome, exec. rewrite Hstep.
  match goal with
  | |- context [fst (bind ?c ?k g)] =>
      change (fst (bind c k g)) with (exec (bind c k) g);
      change (snd (bind c k g)) with (outcome (bind c k) g)
  end.
  split.
  - apply (exec_bind (fun s => Camera64.roi_xy s =
                               Camera64.set_pos
                                 (Camera64.new_origin (Camera64.roi_xy g) None (Some y_pos))
                                 (Camera64.roi_xy g))).
    + apply roi64_after_update_roi_xy.
    + intros _. unfold Camera64.py_div. stable_with ltac:(intros ? H; exact H).
  - intros Hout. destruct (outcome_bind_inr _ _ _ _ Hout) as ([] & Hrun & _).
    pose proof (setup_after_update_roi_xy None (Some y_pos) g) as Hsetup.
    remember (exec (Camera64.update_roi_xy None (Some y_pos)) g) as s0 eqn:Es0.
    destruct (setup_boxes _ _ Hsetup) as (_ & Hyp & _ & _ & _ & Hpy).
    assert (Hz' : (Camera64._pixel_size_y s0 =? 0) = false) by (rewrite Hpy; exact Hz).
    unfold exec. rewrite (bind_returns _ _ _ _ _ Hrun), bind_get.
    rewrite (bind_returns _ _ _ _ _ (py_div64_returns _ _ s0 Hz')).
    split; [exact Hsetup |].
    cbn [fst modify Camera64._mw Camera64.with_mw Camera64.set_y_pixels
         Camera64.y_current_InputWidget_pixels Camera64.SpinBox.setValue
         Camera64.SpinBox.value].
    rewrite Hpy. apply bound64_range, Hyp.
Qed.

End Binary64Frame.

Section Binary64RoundTrip.
Import Py.
Local Open Scope float_scope.

(** Pixels to meters and back, as the two handlers of a pair of boxes
    compute it one after the other. *)
Lemma x_round_trip_from_pixels64 (g : Camera64.CameraGUI) :
  (Camera64._pixel_size_x g =? 0) = false ->
  outcome (Camera64.update_from_input_x ;;; Camera64.update_from_input_x_meter) g = inr tt ->
  Camera64.SpinBox.value
    (Camera64.x_current_InputWidget_pixels
       (Camera64._mw (exec (Camera64.update_from_input_x ;;;
                            Camera64.update_from_input_x_meter) g)))
  = Camera64.SpinBox.bound (Camera64.x_current_InputWidget_pixels (Camera64._mw g))
      (Camera64.SpinBox.bound (Camera64.x_current_InputWidget_meter (Camera64._mw g))
         (Camera64.SpinBox.value (Camera64.x_current_InputWidget_pixels (Camera64._mw g))
          * Camera64._pixel_size_x g)
       / Camera64._pixel_size_x g).
Proof.
  intros Hz Hout.
  destruct (outcome_bind_inr _ _ _ _ Hout) as ([] & Hrun & Hout2).
  assert (Hout1 : outcome Camera64.update_from_input_x g = inr tt)
    by (unfold outcome; rewrite Hrun; reflexivity).
  destruct (update_from_input_x64 g Hout1) as (Hsetup & Hv1). cbv zeta in Hsetup, Hv1.
  rewrite (exec_bind_returns _ _ _ tt Hout1).
  remember (exec Camera64.update_from_input_x g) as g1 eqn:Eg1.
  destruct (setup_boxes _ _ Hsetup) as (Hxp & _ & _ & _ & Hpx & _).
  assert (Hz1 : (Camera64._pixel_size_x g1 =? 0) = false) by (rewrite Hpx; exact Hz).
  destruct (update_from_input_x_meter64 g1 Hz1) as (_ & Hbox).
  destruct (Hbox Hout2) as (_ & Hv2). cbv zeta in Hv2.
  rewrite Hv2, Hv1, Hpx. apply bound64_range, Hxp.
Qed.

Lemma y_round_trip_from_pixels64 (g : Camera64.CameraGUI) :
  (Camera64._pixel_size_y g =? 0) = false ->
  outcome (Camera64.update_from_input_y ;;; Camera64.update_from_input_y_meter) g = inr tt ->
  Camera64.SpinBox.value
    (Camera64.y_current_InputWidget_pixels
       (Camera64._mw (exec (Camera64.update_from_input_y ;;;
                            Camera64.update_from_input_y_meter) g)))
  = Camera64.SpinBox.bound (Camera64.y_current_InputWidget_pixels (Camera64._mw g))
      (Camera64.SpinBox.bound (Camera64.y_current_InputWidget_meter (Camera64._mw g))
         (Camera64.SpinBox.value (Camera64.y_current_InputWidget_pixels (Camera64._mw g))
          * Camera64._pixel_size_y g)
       / Camera64._pixel_size_y g).
Proof.
  intros Hz Hout.
  destruct (outcome_bind_inr _ _ _ _ Hout) as ([] & Hrun & Hout2).
  assert (Hout1 : outcome Camera64.update_from_input_y g = inr tt)
    by (unfold outcome; rewrite Hrun; reflexivity).
  destruct (update_from_input_y64 g Hout1) as (Hsetup & Hv1). cbv zeta in Hsetup, Hv1.
  rewrite (exec_bind_returns _ _ _ tt Hout1).
  remember (exec Camera64.update_from_input_y g) as g1 eqn:Eg1.
  destruct (setup_boxes _ _ Hsetup) as (_ & Hyp & _ & _ & _ & Hpy).
  assert (Hz1 : (Camera64._pixel_size_y g1 =? 0) = false) by (rewrite Hpy; exact Hz).
  destruct (update_from_input_y_meter64 g1 Hz1) as (_ & Hbox).
  destruct (Hbox Hout2) as (_ & Hv2). cbv zeta in Hv2.
  rewrite Hv2, Hv1, Hpy. apply bound64_range, Hyp.
Qed.

(** Meters to pixels and back. *)
Lemma x_round_trip_from_meters64 (g : Camera64.CameraGUI) :
  (Camera64._pixel_size_x g =? 0) = false ->
  outcome (Camera64.update_from_input_x_meter ;;; Camera64.update_from_input_x) g = inr tt ->
  Camera64.SpinBox.value
    (Camera64.x_current_InputWidget_meter
       (Camera64._mw (exec (Camera64.update_from_input_x_meter ;;;
                            Camera64.update_from_input_x) g)))
  = Camera64.SpinBox.bound (Camera64.x_current_InputWidget_meter (Camera64._mw g))
      (Camera64.SpinBox.bound (Camera64.x_current_InputWidget_pixels (Camera64._mw g))
         (Camera64.SpinBox.value (Camera64.x_current_InputWidget_meter (Camera64._mw g))
          / Camera64._pixel_size_x g)
       * Camera64._pixel_size_x g).
Proof.
  intros Hz Hout.
  destruct (outcome_bind_inr _ _ _ _ Hout) as ([] & Hrun & Hout2).
  assert (Hout1 : outcome Camera64.update_from_input_x_meter g = inr tt)
    by (unfold outcome; rewrite Hrun; reflexivity).
  destruct (update_from_input_x_meter64 g Hz) as (_ & Hbox).
  destruct (Hbox Hout1) as (Hsetup & Hv1). cbv zeta in Hsetup, Hv1.
  rewrite (exec_bind_returns _ _ _ tt Hout1).
  remember (exec Camera64.update_from_input_x_meter g) as g1 eqn:Eg1.
  destruct (setup_boxes _ _ Hsetup) as (_ & _ & Hxm & _ & Hpx & _).
  destruct (update_from_input_x64 g1 Hout2) as (_ & Hv2). cbv zeta in Hv2.
  rewrite Hv2, Hv1, Hpx. apply bound64_range, Hxm.
Qed.

Lemma y_round_trip_from_meters64 (g : Camera64.CameraGUI) :
  (Camera64._pixel_size_y g =? 0) = false ->
  outcome (Camera64.update_from_input_y_meter ;;; Camera64.update_from_input_y) g = inr tt ->
  Camera64.SpinBox.value
    (Camera64.y_current_InputWidget_meter
       (Camera64._mw (exec (Camera64.update_from_input_y_meter ;;;
                            Camera64.update_from_input_y) g)))
  = Camera64.SpinBox.bound (Camera64.y_current_InputWidget_meter (Camera64._mw g))
      (Camera64.SpinBox.bound (Camera64.y_current_InputWidget_pixels (Camera64._mw g))
         (Camera64.SpinBox.value (Camera64.y_current_InputWidget_meter (Camera64._mw g))
          / Camera64._pixel_size_y g)
       * Camera64._pixel_size_y g).
Proof.
  intros Hz Hout.
  destruct (outcome_bind_inr _ _ _ _ Hout) as ([] & Hrun & Hout2).
  assert (Hout1 : outcome Camera64.update_from_input_y_meter g = inr tt)
    by (unfold outcome; rewrite Hrun; reflexivity).
  destruct (update_from_input_y_meter64 g Hz) as (_ & Hbox).
  destruct (Hbox Hout1) as (Hsetup & Hv1). cbv zeta in Hsetup, Hv1.
  rewrite (exec_bind_returns _ _ _ tt Hout1).
  remember (exec Camera64.update_from_input_y_meter g) as g1 eqn:Eg1.
  destruct (setup_boxes _ _ Hsetup) as (_ & _ & _ & Hym & _ & Hpy).
  destruct (update_from_input_y64 g1 Hout2) as (_ & Hv2). cbv zeta in Hv2.
  rewrite Hv2, Hv1, Hpy. apply bound64_range, Hym.
Qed.

End Binary64RoundTrip.

Section ExactRoundTrip.
Import Py Camera.
Local Open Scope Q_scope.

(** In exact arithmetic, and with the values inside the ranges of the
    boxes, pixels to meters and back is the identity. *)
Lemma x_round_trip_from_pixels (g : CameraGUI) (p : Q) :
  mask_safe g = true -> ~ _pixel_size_x g == 0 ->
  SpinBox.within (x_current_InputWidget_pixels (_mw g)) p = true ->
  SpinBox.within (x_current_InputWidget_meter (_mw g)) (p * _pixel_size_x g) = true ->
  SpinBox.value
    (x_current_InputWidget_pixels
       (_mw (exec (update_from_input_x ;;; update_from_input_x_meter)
                  (with_mw (set_x_pixels (SpinBox.enter p)) g)))) == p.
Proof.
  intros Hsafe Hsx Hp Hm.
  remember (with_mw (set_x_pixels (SpinBox.enter p)) g) as g0 eqn:Eg0.
  assert (Hs0 : mask_safe g0 = true) by (rewrite Eg0; exact Hsafe).
  destruct (update_from_input_x_effect g0 Hs0) as (Hout1 & (Hs1 & Hx1 & _ & Hr1) & Hv1).
  cbv zeta in Hout1, Hs1, Hx1, Hr1, Hv1.
  rewrite (exec_bind_returns _ _ _ tt Hout1).
  remember (exec update_from_input_x g0) as g1 eqn:Eg1.
  assert (Hx0 : _pixel_size_x g0 = _pixel_size_x g) by (rewrite Eg0; reflexivity).
  assert (Hsx1 : ~ _pixel_size_x g1 == 0) by (rewrite Hx1, Hx0; exact Hsx).
  destruct (update_from_input_x_meter_effect g1 Hs1 Hsx1) as (_ & _ & Hv2).
  cbv zeta in Hv2. rewrite Hv2, Hv1, Hx1, Hx0.
  destruct (ranges_boxes _ _ Hr1) as (Hxp & _).
  assert (E : SpinBox.value (x_current_InputWidget_pixels (_mw g0)) = p /\
              x_current_InputWidget_meter (_mw g0) = x_current_InputWidget_meter (_mw g) /\
              range (x_current_InputWidget_pixels (_mw g0))
              = range (x_current_InputWidget_pixels (_mw g)))
    by (rewrite Eg0; conj_split; reflexivity).
  destruct E as (Ev & Em & Er). rewrite Ev, Em, (bound_within _ _ Hm).
  assert (Hin : SpinBox.within (x_current_InputWidget_pixels (_mw g1))
                  (p * _pixel_size_x g / _pixel_size_x g) = true).
  { apply (within_proper (x_current_InputWidget_pixels (_mw g)) _ p); [| | exact Hp].
    - rewrite Hxp, Er. reflexivity.
    - field. exact Hsx. }
  rewrite (bound_within _ _ Hin). field. exact Hsx.
Qed.

Lemma y_round_trip_from_pixels (g : CameraGUI) (p : Q) :
  mask_safe g = true -> ~ _pixel_size_y g == 0 ->
  SpinBox.within (y_current_InputWidget_pixels (_mw g)) p = true ->
  SpinBox.within (y_current_InputWidget_meter (_mw g)) (p * _pixel_size_y g) = true ->
  SpinBox.value
    (y_current_InputWidget_pixels
       (_mw (exec (update_from_input_y ;;; update_from_input_y_meter)
                  (with_mw (set_y_pixels (SpinBox.enter p)) g)))) == p.
Proof.
  intros Hsafe Hsy Hp Hm.
  remember (with_mw (set_y_pixels (SpinBox.enter p)) g) as g0 eqn:Eg0.
  assert (Hs0 : mask_safe g0 = true) by (rewrite Eg0; exact Hsafe).
  destruct (update_from_input_y_effect g0 Hs0) as (Hout1 & (Hs1 & _ & Hy1 & Hr1) & Hv1).
  cbv zeta in Hout1, Hs1, Hy1, Hr1, Hv1.
  rewrite (exec_bind_returns _ _ _ tt Hout1).
  remember (exec update_from_input_y g0) as g1 eqn:Eg1.
  assert (Hy0 : _pixel_size_y g0 = _pixel_size_y g) by (rewrite Eg0; reflexivity).
  assert (Hsy1 : ~ _pixel_size_y g1 == 0) by (rewrite Hy1, Hy0; exact Hsy).
  destruct (update_from_input_y_meter_effect g1 Hs1 Hsy1) as (_ & _ & Hv2).
  cbv zeta in Hv2. rewrite Hv2, Hv1, Hy1, Hy0.
  destruct (ranges_boxes _ _ Hr1) as (_ & Hyp & _).
  assert (E : SpinBox.value (y_current_InputWidget_pixels (_mw g0)) = p /\
              y_current_InputWidget_meter (_mw g0) = y_current_InputWidget_meter (_mw g) /\
              range (y_current_InputWidget_pixels (_mw g0))
              = range (y_current_InputWidget_pixels (_mw g)))
    by (rewrite Eg0; conj_split; reflexivity).
  destruct E as (Ev & Em & Er). rewrite Ev, Em, (bound_within _ _ Hm).
  assert (Hin : SpinBox.within (y_current_InputWidget_pixels (_mw g1))
                  (p * _pixel_size_y g / _pixel_size_y g) = true).
  { apply (within_proper (y_current_InputWidget_pixels (_mw g)) _ p); [| | exact Hp].
    - rewrite Hyp, Er. reflexivity.
    - field. exact Hsy. }
  rewrite (bound_within _ _ Hin). field. exact Hsy.
Qed.

(** Likewise meters to pixels and back. *)
Lemma x_round_trip_from_meters (g : CameraGUI) (m : Q) :
  mask_safe g = true -> ~ _pixel_size_x g == 0 ->
  SpinBox.within (x_current_InputWidget_meter (_mw g)) m = true ->
  SpinBox.within (x_current_InputWidget_pixels (_mw g)) (m / _pixel_size_x g) = true ->
  SpinBox.value
    (x_current_InputWidget_meter
       (_mw (exec (update_from_input_x_meter ;;; update_from_input_x)
                  (with_mw (set_x_meter (SpinBox.enter m)) g)))) == m.
Proof.
  intros Hsafe Hsx Hm Hp.
  remember (with_mw (set_x_meter (SpinBox.enter m)) g) as g0 eqn:Eg0.
  assert (Hs0 : mask_safe g0 = true) by (rewrite Eg0; exact Hsafe).
  assert (Hx0 : _pixel_size_x g0 = _pixel_size_x g) by (rewrite Eg0; reflexivity).
  assert (Hsx0 : ~ _pixel_size_x g0 == 0) by (rewrite Hx0; exact Hsx).
  destruct (update_from_input_x_meter_effect g0 Hs0 Hsx0)
    as (Hout1 & (Hs1 & Hx1 & _ & Hr1) & Hv1).
  cbv zeta in Hout1, Hs1, Hx1, Hr1, Hv1.
  rewrite (exec_bind_returns _ _ _ tt Hout1).
  remember (exec update_from_input_x_meter g0) as g1 eqn:Eg1.
  destruct (update_from_input_x_effect g1 Hs1) as (_ & _ & Hv2).
  cbv zeta in Hv2. rewrite Hv2, Hv1, Hx1, Hx0.
  destruct (ranges_boxes _ _ Hr1) as (_ & _ & Hxm & _).
  assert (E : SpinBox.value (x_current_InputWidget_meter (_mw g0)) = m /\
              x_current_InputWidget_pixels (_mw g0) = x_current_InputWidget_pixels (_mw g) /\
              range (x_current_InputWidget_meter (_mw g0))
              = range (x_current_InputWidget_meter (_mw g)))
    by (rewrite Eg0; conj_split; reflexivity).
  destruct E as (Ev & Ep & Er). rewrite Ev, Ep, (bound_within _ _ Hp).
  assert (Hin : SpinBox.within (x_current_InputWidget_meter (_mw g1))
                  (m / _pixel_size_x g * _pixel_size_x g) = true).
  { apply (within_proper (x_current_InputWidget_meter (_mw g)) _ m); [| | exact Hm].
    - rewrite Hxm, Er. reflexivity.
    - field. exact Hsx. }
  rewrite (bound_within _ _ Hin). field. exact Hsx.
Qed.

Lemma y_round_trip_from_meters (g : CameraGUI) (m : Q) :
  mask_safe g = true -> ~ _pixel_size_y g == 0 ->
  SpinBox.within (y_current_InputWidget_meter (_mw g)) m = true ->
  SpinBox.within (y_current_InputWidget_pixels (_mw g)) (m / _pixel_size_y g) = true ->
  SpinBox.value
    (y_current_InputWidget_meter
       (_mw (exec (update_from_input_y_meter ;;; update_from_input_y)
                  (with_mw (set_y_meter (SpinBox.enter m)) g)))) == m.
Proof.
  intros Hsafe Hsy Hm Hp.
  remember (with_mw (set_y_meter (SpinBox.enter m)) g) as g0 eqn:Eg0.
  assert (Hs0 : mask_safe g0 = true) by (rewrite Eg0; exact Hsafe).
  assert (Hy0 : _pixel_size_y g0 = _pixel_size_y g) by (rewrite Eg0; reflexivity).
  assert (Hsy0 : ~ _pixel_size_y g0 == 0) by (rewrite Hy0; exact Hsy).
  destruct (update_from_input_y_meter_effect g0 Hs0 Hsy0)
    as (Hout1 & (Hs1 & _ & Hy1 & Hr1) & Hv1).
  cbv zeta in Hout1, Hs1, Hy1, Hr1, Hv1.
  rewrite (exec_bind_returns _ _ _ tt Hout1).
  remember (exec update_from_input_y_meter g0) as g1 eqn:Eg1.
  destruct (update_from_input_y_effect g1 Hs1) as (_ & _ & Hv2).
  cbv zeta in Hv2. rewrite Hv2, Hv1, Hy1, Hy0.
  destruct (ranges_boxes _ _ Hr1) as (_ & _ & _ & Hym).
  assert (E : SpinBox.value (y_current_InputWidget_meter (_mw g0)) = m /\
              y_current_InputWidget_pixels (_mw g0) = y_current_InputWidget_pixels (_mw g) /\
              range (y_current_InputWidget_meter (_mw g0))
              = range (y_current_InputWidget_meter (_mw g)))
    by (rewrite Eg0; conj_split; reflexivity).
  destruct E as (Ev & Ep & Er). rewrite Ev, Ep, (bound_within _ _ Hp).
  assert (Hin : SpinBox.within (y_current_InputWidget_meter (_mw g1))
                  (m / _pixel_size_y g * _pixel_size_y g) = true).
  { apply (within_proper (y_current_InputWidget_meter (_mw g)) _ m); [| | exact Hm].
    - rewrite Hym, Er. reflexivity.
    - field. exact Hsy. }
  rewrite (bound_within _ _ Hin). field. exact Hsy.
Qed.

End ExactRoundTrip.


(** * The claims on positions and units *)

Section PositionClaims.
Import Py.

(** C8: what [update_roi_xy(h, v)] does to the ROI.  In the program's
    binary64 arithmetic it keeps the size and sets the origin, on an axis
    whose argument is given, to the argument minus half the size
    ([h - size * 0.5]), and keeps the origin coordinate on an axis whose
    argument is [None].  In exact arithmetic the centre (origin plus half
    the size) is then the argument. *)
Theorem update_roi_xy_sets_origin :
  (forall (g : Camera64.CameraGUI) (h v : option float),
     let r := Camera64.roi_xy g in
     let r' := Camera64.roi_xy (exec (Camera64.update_roi_xy h v) g) in
     Camera64.size r' = Camera64.size r /\
     fst (Camera64.pos r') =
       match h with
       | Some c => (c - fst (Camera64.size r) * 0.5)%float
       | None => fst (Camera64.pos r)
       end /\
     snd (Camera64.pos r') =
       match v with
       | Some c => (c - snd (Camera64.size r) * 0.5)%float
       | None => snd (Camera64.pos r)
       end) /\
  (forall (g : Camera.CameraGUI) (h v : option Q),
     let r := Camera.roi_xy g in
     let r' := Camera.roi_xy (exec (Camera.update_roi_xy h v) g) in
     Camera.size r' = Camera.size r /\
     match h with
     | Some c => (fst (Camera.centre r') == c)%Q
     | None => fst (Camera.pos r') = fst (Camera.pos r)
     end /\
     match v with
     | Some c => (snd (Camera.centre r') == c)%Q
     | None => snd (Camera.pos r') = snd (Camera.pos r)
     end).
Proof.
  split.
  - intros g h v r r'. subst r r'. rewrite roi64_after_update_roi_xy.
    destruct h, v; conj_split; reflexivity.
  - exact update_roi_xy_centres_exactly.
Qed.

(** In binary64 the centre is not always the argument: on the panel that
    [createCrosshair] leaves (ROI of size 1), [update_roi_xy(h=0.1)] puts
    the origin at -0.4, and -0.4 + 0.5 is 0.09999999999999998. *)
Lemma update_roi_xy_centre_is_rounded :
  fst (Camera64.pos
         (Camera64.roi_xy (exec (Camera64.update_roi_xy (Some 0.1%float) None)
                                Camera64.panel))) = (-0.4)%float /\
  fst (Camera64.centre
         (Camera64.roi_xy (exec (Camera64.update_roi_xy (Some 0.1%float) None)
                                Camera64.panel))) = 0.09999999999999998%float /\
  ~ (forall (g : Camera64.CameraGUI) (c : float),
       (fst (Camera64.centre
               (Camera64.roi_xy (exec (Camera64.update_roi_xy (Some c) None) g)))
        =? c)%float = true).
Proof.
  assert (H : fst (Camera64.centre
                     (Camera64.roi_xy
                        (exec (Camera64.update_roi_xy (Some 0.1%float) None)
                              Camera64.panel))) = 0.09999999999999998%float)
    by (vm_compute; reflexivity).
  conj_split.
  - vm_compute. reflexivity.
  - exact H.
  - intros F. specialize (F Camera64.panel 0.1%float). rewrite H in F.
    vm_compute in F. discriminate F.
Qed.

(** C4: the conversion between pixels and meters.  In the program's
    binary64 arithmetic: [update_input_x(p)] hands the meter box
    [p * pixel_size], which the box shows held in its range;
    [update_from_input_x_meter] derives [m / pixel_size] from the meter
    value [m], puts the ROI there and, when it returns, hands that value
    to the pixel box; and the two handlers of a pair of boxes one after
    the other leave [(p * s) / s], or [(m / s) * s], each step held in the
    range of its box.  In exact arithmetic, on a panel that is safe for
    the mask and for values inside the ranges of the boxes, that is the
    value one started from.  Likewise on the vertical axis. *)
Theorem pixel_meter_conversion_rounds :
  (forall (g : Camera64.CameraGUI) (p : float),
     Camera64.SpinBox.value
       (Camera64.x_current_InputWidget_meter
          (Camera64._mw (exec (Camera64.update_input_x p) g)))
     = Camera64.SpinBox.bound (Camera64.x_current_InputWidget_meter (Camera64._mw g))
         (p * Camera64._pixel_size_x g)%float /\
     Camera64.SpinBox.value
       (Camera64.y_current_InputWidget_meter
          (Camera64._mw (exec (Camera64.update_input_y p) g)))
     = Camera64.SpinBox.bound (Camera64.y_current_InputWidget_meter (Camera64._mw g))
         (p * Camera64._pixel_size_y g)%float) /\
  (forall g : Camera64.CameraGUI,
     let m := Camera64.SpinBox.value
                (Camera64.x_current_InputWidget_meter (Camera64._mw g)) in
     (Camera64._pixel_size_x g =? 0)%float = false ->
     fst (Camera64.pos (Camera64.roi_xy (exec Camera64.update_from_input_x_meter g)))
     = (m / Camera64._pixel_size_x g
        - fst (Camera64.size (Camera64.roi_xy g)) * 0.5)%float /\
     (outcome Camera64.update_from_input_x_meter g = inr tt ->
      Camera64.SpinBox.value
        (Camera64.x_current_InputWidget_pixels
           (Camera64._mw (exec Camera64.update_from_input_x_meter g)))
      = Camera64.SpinBox.bound (Camera64.x_current_InputWidget_pixels (Camera64._mw g))
          (m / Camera64._pixel_size_x g)%float)) /\
  (forall g : Camera64.CameraGUI,
     let m := Camera64.SpinBox.value
                (Camera64.y_current_InputWidget_meter (Camera64._mw g)) in
     (Camera64._pixel_size_y g =? 0)%float = false ->
     snd (Camera64.pos (Camera64.roi_xy (exec Camera64.update_from_input_y_meter g)))
     = (m / Camera64._pixel_size_y g
        - snd (Camera64.size (Camera64.roi_xy g)) * 0.5)%float /\
     (outcome Camera64.update_from_input_y_meter g = inr tt ->
      Camera64.SpinBox.value
        (Camera64.y_current_InputWidget_pixels
           (Camera64._mw (exec Camera64.update_from_input_y_meter g)))
      = Camera64.SpinBox.bound (Camera64.y_current_InputWidget_pixels (Camera64._mw g))
          (m / Camera64._pixel_size_y g)%float)) /\
  (forall g : Camera64.CameraGUI,
     let xp := Camera64.x_current_InputWidget_pixels (Camera64._mw g) in
     let yp := Camera64.y_current_InputWidget_pixels (Camera64._mw g) in
     let xm := Camera64.x_current_InputWidget_meter (Camera64._mw g) in
     let ym := Camera64.y_current_InputWidget_meter (Camera64._mw g) in
     ((Camera64._pixel_size_x g =? 0)%float = false ->
      outcome (Camera64.update_from_input_x ;;; Camera64.update_from_input_x_meter) g
      = inr tt ->
      Camera64.SpinBox.value
        (Camera64.x_current_InputWidget_pixels
           (Camera64._mw (exec (Camera64.update_from_input_x ;;;
                                Camera64.update_from_input_x_meter) g)))
      = Camera64.SpinBox.bound xp
          (Camera64.SpinBox.bound xm
             (Camera64.SpinBox.value xp * Camera64._pixel_size_x g)
           / Camera64._pixel_size_x g)%float) /\
     ((Camera64._pixel_size_y g =? 0)%float = false ->
      outcome (Camera64.update_from_input_y ;;; Camera64.update_from_input_y_meter) g
      = inr tt ->
      Camera64.SpinBox.value
        (Camera64.y_current_InputWidget_pixels
           (Camera64._mw (exec (Camera64.update_from_input_y ;;;
                                Camera64.update_from_input_y_meter) g)))
      = Camera64.SpinBox.bound yp
          (Camera64.SpinBox.bound ym
             (Camera64.SpinBox.value yp * Camera64._pixel_size_y g)
           / Camera64._pixel_size_y g)%float) /\
     ((Camera64._pixel_size_x g =? 0)%float = false ->
      outcome (Camera64.update_from_input_x_meter ;;; Camera64.update_from_input_x) g
      = inr tt ->
      Camera64.SpinBox.value
        (Camera64.x_current_InputWidget_meter
           (Camera64._mw (exec (Camera64.update_from_input_x_meter ;;;
                                Camera64.update_from_input_x) g)))
      = Camera64.SpinBox.bound xm
          (Camera64.SpinBox.bound xp
             (Camera64.SpinBox.value xm / Camera64._pixel_size_x g)
           * Camera64._pixel_size_x g)%float) /\
     ((Camera64._pixel_size_y g =? 0)%float = false ->
      outcome (Camera64.update_from_input_y_meter ;;; Camera64.update_from_input_y) g
      = inr tt ->
      Camera64.SpinBox.value
        (Camera64.y_current_InputWidget_meter
           (Camera64._mw (exec (Camera64.update_from_input_y_meter ;;;
                                Camera64.update_from_input_y) g)))
      = Camera64.SpinBox.bound ym
          (Camera64.SpinBox.bound yp
             (Camera64.SpinBox.value ym / Camera64._pixel_size_y g)
           * Camera64._pixel_size_y g)%float)) /\
  (forall (g : Camera.CameraGUI) (p m : Q),
     let xp := Camera.x_current_InputWidget_pixels (Camera._mw g) in
     let yp := Camera.y_current_InputWidget_pixels (Camera._mw g) in
     let xm := Camera.x_current_InputWidget_meter (Camera._mw g) in
     let ym := Camera.y_current_InputWidget_meter (Camera._mw g) in
     Camera.mask_safe g = true ->
     (~ Camera._pixel_size_x g == 0)%Q ->
     (~ Camera._pixel_size_y g == 0)%Q ->
     (Camera.SpinBox.within xp p = true ->
      Camera.SpinBox.within xm (p * Camera._pixel_size_x g)%Q = true ->
      (Camera.SpinBox.value
         (Camera.x_current_InputWidget_pixels
            (Camera._mw (exec (Camera.update_from_input_x ;;;
                               Camera.update_from_input_x_meter)
                              (Camera.with_mw
                                 (Camera.set_x_pixels (Camera.SpinBox.enter p)) g))))
       == p)%Q) /\
     (Camera.SpinBox.within yp p = true ->
      Camera.SpinBox.within ym (p * Camera._pixel_size_y g)%Q = true ->
      (Camera.SpinBox.value
         (Camera.y_current_InputWidget_pixels
            (Camera._mw (exec (Camera.update_from_input_y ;;;
                               Camera.update_from_input_y_meter)
                              (Camera.with_mw
                                 (Camera.set_y_pixels (Camera.SpinBox.enter p)) g))))
       == p)%Q) /\
     (Camera.SpinBox.within xm m = true ->
      Camera.SpinBox.within xp (m / Camera._pixel_size_x g)%Q = true ->
      (Camera.SpinBox.value
         (Camera.x_current_InputWidget_meter
            (Camera._mw (exec (Camera.update_from_input_x_meter ;;;
                               Camera.update_from_input_x)
                              (Camera.with_mw
                                 (Camera.set_x_meter (Camera.SpinBox.enter m)) g))))
       == m)%Q) /\
     (Camera.SpinBox.within ym m = true ->
      Camera.SpinBox.within yp (m / Camera._pixel_size_y g)%Q = true ->
      (Camera.SpinBox.value
         (Camera.y_current_InputWidget_meter
            (Camera._mw (exec (Camera.update_from_input_y_meter ;;;
                               Camera.update_from_input_y)
                              (Camera.with_mw
                                 (Camera.set_y_meter (Camera.SpinBox.enter m)) g))))
       == m)%Q)).
Proof.
  conj_split.
  - intros g p. split; reflexivity.
  - intros g m Hz. subst m.
    destruct (update_from_input_x_meter64 g Hz) as (Hroi & Hbox).
    cbv zeta in Hroi, Hbox. split.
    + rewrite Hroi. reflexivity.
    + intros Hout. apply (Hbox Hout).
  - intros g m Hz. subst m.
    destruct (update_from_input_y_meter64 g Hz) as (Hroi & Hbox).
    cbv zeta in Hroi, Hbox. split.
    + rewrite Hroi. reflexivity.
    + intros Hout. apply (Hbox Hout).
  - intros g xp yp xm ym. subst xp yp xm ym. conj_split.
    + apply x_round_trip_from_pixels64.
    + apply y_round_trip_from_pixels64.
    + apply x_round_trip_from_meters64.
    + apply y_round_trip_from_meters64.
  - intros g p m xp yp xm ym Hsafe Hsx Hsy. subst xp yp xm ym. conj_split.
    + apply x_round_trip_from_pixels; assumption.
    + apply y_round_trip_from_pixels; assumption.
    + apply x_round_trip_from_meters; assumption.
    + apply y_round_trip_from_meters; assumption.
Qed.

(** On the panels that [createCrosshair] leaves (image 20 by 20, pixels of
    0.5 by 3 units): in binary64, 1.2 entered in the horizontal meter box
    gives 2.4 pixels, and 0.1 entered in the vertical pixel box comes back
    as [(0.1 * 3) / 3]; in exact arithmetic 12 pixels come back as 12
    pixels and 7/2 units as 7/2 units. *)
Lemma pixel_meter_conversion_rounds_witness :
  Camera64.SpinBox.value
    (Camera64.x_current_InputWidget_pixels
       (Camera64._mw (exec Camera64.update_from_input_x_meter Camera64.panel_x_meter_12)))
  = 2.4%float /\
  Camera64.SpinBox.value
    (Camera64.y_current_InputWidget_pixels
       (Camera64._mw (exec (Camera64.update_from_input_y ;;;
                            Camera64.update_from_input_y_meter)
                           Camera64.panel_y_pixels_01)))
  = (0.1 * 3 / 3)%float /\
  (Camera.SpinBox.value
     (Camera.x_current_InputWidget_pixels
        (Camera._mw (exec (Camera.update_from_input_x ;;; Camera.update_from_input_x_meter)
                          (Camera.with_mw (Camera.set_x_pixels (Camera.SpinBox.enter 12))
                                          Camera.panel)))) == 12)%Q /\
  (Camera.SpinBox.value
     (Camera.y_current_InputWidget_meter
        (Camera._mw (exec (Camera.update_from_input_y_meter ;;; Camera.update_from_input_y)
                          (Camera.with_mw (Camera.set_y_meter (Camera.SpinBox.enter (7#2)))
                                          Camera.panel)))) == 7#2)%Q.
Proof.
  destruct pixel_meter_conversion_rounds as (_ & Hxm & _ & Htrip & Hexact).
  destruct (Hxm Camera64.panel_x_meter_12) as (_ & Hbox); [reflexivity |].
  destruct (Htrip Camera64.panel_y_pixels_01) as (_ & Hy & _).
  destruct (Hexact Camera.panel 12%Q (7#2)%Q) as (Hpx & _ & _ & Hmy).
  - vm_compute. reflexivity.
  - vm_compute. discriminate.
  - vm_compute. discriminate.
  - conj_split.
    + rewrite Hbox; [| vm_compute; reflexivity]. vm_compute. reflexivity.
    + rewrite Hy; [| reflexivity | vm_compute; reflexivity]. vm_compute. reflexivity.
    + apply Hpx; vm_compute; reflexivity.
    + apply Hmy; vm_compute; reflexivity.
Defined.

(** In binary64 the value does not always come back, and a box does not
    show a value outside its range: with pixels of 3 units, 0.1 pixels are
    0.30000000000000004 units, which are 0.10000000000000002 pixels; and
    on the image of 20 pixels with pixels of 0.5 units, [update_input_x(30)]
    leaves 10 in the meter box, the upper end of its range, and not
    30 * 0.5 = 15. *)
Lemma pixel_meter_round_trip_is_rounded :
  Camera64.SpinBox.value
    (Camera64.y_current_InputWidget_pixels (Camera64._mw Camera64.panel_y_pixels_01))
  = 0.1%float /\
  Camera64._pixel_size_y Camera64.panel_y_pixels_01 = 3%float /\
  outcome (Camera64.update_from_input_y ;;; Camera64.update_from_input_y_meter)
          Camera64.panel_y_pixels_01 = inr tt /\
  Camera64.SpinBox.value
    (Camera64.y_current_InputWidget_pixels
       (Camera64._mw (exec (Camera64.update_from_input_y ;;;
                            Camera64.update_from_input_y_meter)
                           Camera64.panel_y_pixels_01)))
  = 0.10000000000000002%float /\
  (0.10000000000000002 =? 0.1)%float = false /\
  Camera64._pixel_size_x Camera64.panel = 0.5%float /\
  Camera64.SpinBox.value
    (Camera64.x_current_InputWidget_meter
       (Camera64._mw (exec (Camera64.update_input_x 30%float) Camera64.panel)))
  = 10%float /\
  (30 * 0.5)%float = 15%float.
Proof. conj_split; vm_compute; reflexivity. Qed.

End PositionClaims.
